(** * CRM email engine: templates, campaigns, sequences, tracking

    A shallow embedding of the communications app of the CRM
    (communications/models.py, communications/services.py,
    communications/views.py, communications/signals.py,
    communications/tasks.py, leads/models.py) and the properties of its
    template renderer, campaign engine, sequence engine, retry task,
    statistics and tracking callback.

    Conventions of the embedding.
    - A database table is a finite map from primary key to row
      ([gmap Z row]); [Model.save] on an instance with a key is an upsert at
      that key, [objects.create] inserts at a key one above the largest one.
      Append-only logs (tracking events, lead activities) are lists.
    - A model instance held by the Python code is its key together with its
      column values.  Related rows that the operations only read
      ([campaign.template], [campaign.user], [campaign.email_config],
      [enrollment.lead], [enrollment.sequence.user], [step.template]) are
      carried inside the instance, where Django caches them on first access.
    - Python integers are [Z]; text is [string] (a sequence of bytes).
      Column length limits are not enforced, as on SQLite.
    - [timezone.now()] is the argument [now] of an operation: one reading of
      the clock per call.
    - Code that can raise returns a [result]. *)

From Stdlib Require Import ZArith String Ascii Lia.
From stdpp Require Import base tactics option list sorting gmap fin_maps strings.

(** ** Results and exceptions *)

Inductive exn : Type :=
  | TemplateSyntaxError
  | OutsideFragment
  | NotSupportedError
  | NegativeIndexing
  | IntegrityError
  | MultipleObjectsReturned.

Inductive result (A : Type) : Type :=
  | Ok (a : A)
  | Raise (e : exn).

Arguments Ok {A} a.
Arguments Raise {A} e.

Definition bind {A B : Type} (r : result A) (k : A → result B) : result B :=
  match r with
  | Ok a => k a
  | Raise e => Raise e
  end.

Notation "x <- r ;; k" := (bind r (λ x, k))
  (at level 100, r at next level, right associativity).

Global Instance exn_eq_dec : EqDecision exn.
Proof. solve_decision. Defined.

(** ** Text helpers *)

Module Text.

(** The ASCII characters for which Python's [str.isspace] holds. *)
Definition isspace (c : ascii) : bool :=
  match c with
  | "009" | "010" | "011" | "012" | "013"
  | "028" | "029" | "030" | "031" | " " => true
  | _ => false
  end%char.

Fixpoint lstrip (s : string) : string :=
  match s with
  | String c s' => if isspace c then lstrip s' else s
  | EmptyString => EmptyString
  end.

Fixpoint rstrip (s : string) : string :=
  match s with
  | String c s' =>
      match rstrip s' with
      | EmptyString => if isspace c then EmptyString else String c EmptyString
      | r => String c r
      end
  | EmptyString => EmptyString
  end.

(** [str.strip()] *)
Definition strip (s : string) : string := rstrip (lstrip s).

Definition is_empty (s : string) : bool :=
  match s with EmptyString => true | _ => false end.

(** [needle in hay] *)
Fixpoint contains (needle hay : string) : bool :=
  String.prefix needle hay
  || match hay with
     | String _ hay' => contains needle hay'
     | EmptyString => false
     end.

(** No opening brace anywhere in the text. *)
Fixpoint brace_free (s : string) : bool :=
  match s with
  | String c s' => negb (Ascii.eqb c "{") && brace_free s'
  | EmptyString => true
  end.

Definition is_alpha (c : ascii) : bool :=
  let n := N_of_ascii c in
  ((65 <=? n) && (n <=? 90) || (97 <=? n) && (n <=? 122))%N.

Definition is_digit (c : ascii) : bool :=
  let n := N_of_ascii c in ((48 <=? n) && (n <=? 57))%N.

Definition is_word (c : ascii) : bool :=
  is_alpha c || is_digit c || Ascii.eqb c "_".

Fixpoint all_word (s : string) : bool :=
  match s with
  | String c s' => is_word c && all_word s'
  | EmptyString => true
  end.

(** [html.escape(s, quote=True)], applied to every value a template
    variable resolves to when autoescaping is on (the default). *)
Fixpoint escape (s : string) : string :=
  match s with
  | String c s' =>
      (if Ascii.eqb c "&" then "&amp;"
       else if Ascii.eqb c "<" then "&lt;"
       else if Ascii.eqb c ">" then "&gt;"
       else if Ascii.eqb c "034" then "&quot;"
       else if Ascii.eqb c "'" then "&#x27;"
       else String c EmptyString) +:+ escape s'
  | EmptyString => EmptyString
  end.

End Text.

(** ** The template engine

    [EmailTemplate.get_rendered_content] hands each string to
    [django.template.Template(...).render(Context(context))].  The engine is
    embedded for the fragment the stored templates are written in: literal
    text, comments and variable tags [{{ name }}] whose content is a plain
    name.  Block tags [{% ... %}] and variable tags with filters, dotted
    lookups or literals are outside the fragment: rendering answers
    [Raise OutsideFragment] for them and nothing is stated about them. *)

Module Django.

Inductive token : Type :=
  | TText (s : string)
  | TVar (s : string)
  | TBlock (s : string)
  | TComment (s : string).

(** The text after the two opening characters of a tag: the shortest body
    closed by [c] and a brace on the same line (the lexer's
    [{{.*?}}], where the dot matches no newline), and the number of
    characters read, the closing pair included. *)
Fixpoint find_close (c : ascii) (s : string) : option (string * nat) :=
  match s with
  | String a s' =>
      if Ascii.eqb a "010" then None
      else
        match s' with
        | String b _ =>
            if Ascii.eqb a c && Ascii.eqb b "}" then Some (EmptyString, 2)
            else
              match find_close c s' with
              | Some (body, n) => Some (String a body, S n)
              | None => None
              end
        | EmptyString => None
        end
  | EmptyString => None
  end.

(** The tag that starts at the head of [s], with its length. *)
Definition tag_at (s : string) : option (token * nat) :=
  match s with
  | String "{" (String "{" rest) =>
      '(body, n) ← find_close "}" rest; Some (TVar (Text.strip body), 2 + n)
  | String "{" (String "%" rest) =>
      '(body, n) ← find_close "%" rest; Some (TBlock (Text.strip body), 2 + n)
  | String "{" (String "#" rest) =>
      '(body, n) ← find_close "#" rest; Some (TComment (Text.strip body), 2 + n)
  | _ => None
  end%char.

Definition flush (text : string) : list token :=
  if Text.is_empty text then [] else [TText text].

(** [Lexer.tokenize]: split the string at the leftmost tags.  [skip] counts
    the characters of the current tag still to pass over, [text] is the
    literal text read since the last tag. *)
Fixpoint lex (skip : nat) (text : string) (s : string) : list token :=
  match s with
  | String a s' =>
      match skip with
      | S k => lex k text s'
      | O =>
          match tag_at s with
          | Some (tok, n) => flush text ++ tok :: lex (pred n) EmptyString s'
          | None => lex 0 (text +:+ String a EmptyString) s'
          end
      end
  | EmptyString => flush text
  end.

Definition tokenize (s : string) : list token := lex 0 EmptyString s.

(** A variable name the fragment covers: letters, digits and underscores,
    starting with a letter (so neither a number literal nor a name with a
    leading underscore, which the engine rejects). *)
Definition plain_name (s : string) : bool :=
  match s with
  | String c s' => Text.is_alpha c && Text.all_word s'
  | EmptyString => false
  end.

(** The bottom layer of every [Context]. *)
Definition builtins : gmap string string :=
  {[ "True" := "True"; "False" := "False"; "None" := "None" ]}.

(** The engine's [string_if_invalid] option, at its default. *)
Definition string_if_invalid : string := "".

(** [Variable.resolve] followed by [render_value_in_context]: the context's
    own layer is searched first, then the builtins; a name found nowhere
    renders as [string_if_invalid]. *)
Definition resolve (ctx : gmap string string) (name : string) : string :=
  match ctx !! name with
  | Some v => Text.escape v
  | None =>
      match builtins !! name with
      | Some v => Text.escape v
      | None => string_if_invalid
      end
  end.

Definition render_token (ctx : gmap string string) (t : token) : result string :=
  match t with
  | TText s => Ok s
  | TComment _ => Ok ""
  | TVar name =>
      if Text.is_empty name then Raise TemplateSyntaxError
      else if plain_name name then Ok (resolve ctx name)
      else Raise OutsideFragment
  | TBlock _ => Raise OutsideFragment
  end.

Fixpoint render_tokens (ctx : gmap string string) (ts : list token) : result string :=
  match ts with
  | [] => Ok ""
  | t :: ts' =>
      s <- render_token ctx t;;
      rest <- render_tokens ctx ts';;
      Ok (s +:+ rest)
  end.

(** [Template(s).render(Context(ctx))] *)
Definition render (ctx : gmap string string) (s : string) : result string :=
  render_tokens ctx (tokenize s).

(** Whether a token compiles, which does not depend on the context. *)
Definition token_ok (t : token) : bool :=
  match t with
  | TText _ | TComment _ => true
  | TVar name => negb (Text.is_empty name) && plain_name name
  | TBlock _ => false
  end.

Definition compiles (s : string) : bool := forallb token_ok (tokenize s).

End Django.

(** ** The data model (leads/models.py, accounts/models.py,
    communications/models.py)

    Each model is a module: its record [t] has the columns the embedded
    operations read or write, under the names of the source, and [set_f] is
    the assignment [self.f = v]. *)

Module User.

Record t : Type := mk {
  id : Z;
  first_name : string;
  last_name : string;
  email : string
}.

(** [AbstractUser.get_full_name] *)
Definition get_full_name (self : t) : string :=
  Text.strip (self.(first_name) +:+ " " +:+ self.(last_name)).

End User.

Module Lead.

(** [last_name], [phone] and [company] are nullable; [email] is not. *)
Record t : Type := mk {
  first_name : string;
  last_name : option string;
  email : string;
  phone : option string;
  company : option string;
  source_id : option Z;
  status : string;
  priority : string;
  created_at : Z
}.

Definition get_full_name (self : t) : string :=
  Text.strip (self.(first_name) +:+ " " +:+ default "" self.(last_name)).

End Lead.

Module LeadActivity.

Record t : Type := mk {
  lead : Z;
  user : Z;
  activity_type : string;
  subject : string;
  description : string;
  created_at : Z
}.

End LeadActivity.

Module EmailConfiguration.

(** The transport settings (host, port, credentials) belong to the
    transport and are not columns of the embedding. *)
Record t : Type := mk {
  user : Z;
  name : string;
  from_email : string;
  from_name : string;
  reply_to : string;
  is_active : bool;
  is_default : bool
}.

Definition set_is_default (v : bool) (self : t) : t :=
  mk
    (self.(user)) (self.(name)) (self.(from_email)) (self.(from_name))
    (self.(reply_to)) (self.(is_active)) v.

End EmailConfiguration.

Module EmailTemplate.

Record t : Type := mk {
  id : Z;
  subject : string;
  body_html : string;
  body_text : string
}.

End EmailTemplate.

Module EmailCampaign.

(** [STATUS_CHOICES] *)
Inductive Status : Type :=
  | draft | scheduled | sending | sent | paused | cancelled.

Global Instance Status_eq_dec : EqDecision Status.
Proof. solve_decision. Defined.

Record t : Type := mk {
  user : User.t;
  template : EmailTemplate.t;
  email_config : EmailConfiguration.t;
  status : Status;
  target_all_leads : bool;
  target_statuses : list string;
  target_priorities : list string;
  target_sources : list Z;
  batch_size : Z;
  emails_sent : Z;
  emails_failed : Z;
  completed_at : option Z
}.

Definition set_status (v : Status) (self : t) : t :=
  mk
    (self.(user)) (self.(template)) (self.(email_config)) v
    (self.(target_all_leads)) (self.(target_statuses))
    (self.(target_priorities)) (self.(target_sources)) (self.(batch_size))
    (self.(emails_sent)) (self.(emails_failed)) (self.(completed_at)).

Definition set_emails_sent (v : Z) (self : t) : t :=
  mk
    (self.(user)) (self.(template)) (self.(email_config)) (self.(status))
    (self.(target_all_leads)) (self.(target_statuses))
    (self.(target_priorities)) (self.(target_sources)) (self.(batch_size))
    v (self.(emails_failed)) (self.(completed_at)).

Definition set_emails_failed (v : Z) (self : t) : t :=
  mk
    (self.(user)) (self.(template)) (self.(email_config)) (self.(status))
    (self.(target_all_leads)) (self.(target_statuses))
    (self.(target_priorities)) (self.(target_sources)) (self.(batch_size))
    (self.(emails_sent)) v (self.(completed_at)).

Definition set_completed_at (v : option Z) (self : t) : t :=
  mk
    (self.(user)) (self.(template)) (self.(email_config)) (self.(status))
    (self.(target_all_leads)) (self.(target_statuses))
    (self.(target_priorities)) (self.(target_sources)) (self.(batch_size))
    (self.(emails_sent)) (self.(emails_failed)) v.

End EmailCampaign.

Module Email.

(** [STATUS_CHOICES], in the order of the source *)
Inductive Status : Type :=
  | queued | sending | sent | delivered | opened | clicked | replied
  | bounced | failed | spam.

Global Instance Status_eq_dec : EqDecision Status.
Proof. solve_decision. Defined.

(** The position of a status in [STATUS_CHOICES]. *)
Definition status_index (s : Status) : nat :=
  match s with
  | queued => 0 | sending => 1 | sent => 2 | delivered => 3 | opened => 4
  | clicked => 5 | replied => 6 | bounced => 7 | failed => 8 | spam => 9
  end.

Record t : Type := mk {
  tracking_id : Z;
  user : Z;
  lead : Z;
  campaign : option Z;
  template : option Z;
  subject : string;
  body_html : string;
  body_text : string;
  from_email : string;
  from_name : string;
  to_email : string;
  to_name : string;
  reply_to : string;
  status : Status;
  created_at : Z;
  sent_at : option Z;
  opened_at : option Z;
  clicked_at : option Z;
  open_count : Z;
  click_count : Z;
  error_message : string;
  retry_count : Z;
  max_retries : Z
}.

Definition set_status (v : Status) (self : t) : t :=
  mk
    (self.(tracking_id)) (self.(user)) (self.(lead)) (self.(campaign))
    (self.(template)) (self.(subject)) (self.(body_html))
    (self.(body_text)) (self.(from_email)) (self.(from_name))
    (self.(to_email)) (self.(to_name)) (self.(reply_to)) v
    (self.(created_at)) (self.(sent_at)) (self.(opened_at))
    (self.(clicked_at)) (self.(open_count)) (self.(click_count))
    (self.(error_message)) (self.(retry_count)) (self.(max_retries)).

Definition set_sent_at (v : option Z) (self : t) : t :=
  mk
    (self.(tracking_id)) (self.(user)) (self.(lead)) (self.(campaign))
    (self.(template)) (self.(subject)) (self.(body_html))
    (self.(body_text)) (self.(from_email)) (self.(from_name))
    (self.(to_email)) (self.(to_name)) (self.(reply_to)) (self.(status))
    (self.(created_at)) v (self.(opened_at)) (self.(clicked_at))
    (self.(open_count)) (self.(click_count)) (self.(error_message))
    (self.(retry_count)) (self.(max_retries)).

Definition set_opened_at (v : option Z) (self : t) : t :=
  mk
    (self.(tracking_id)) (self.(user)) (self.(lead)) (self.(campaign))
    (self.(template)) (self.(subject)) (self.(body_html))
    (self.(body_text)) (self.(from_email)) (self.(from_name))
    (self.(to_email)) (self.(to_name)) (self.(reply_to)) (self.(status))
    (self.(created_at)) (self.(sent_at)) v (self.(clicked_at))
    (self.(open_count)) (self.(click_count)) (self.(error_message))
    (self.(retry_count)) (self.(max_retries)).

Definition set_clicked_at (v : option Z) (self : t) : t :=
  mk
    (self.(tracking_id)) (self.(user)) (self.(lead)) (self.(campaign))
    (self.(template)) (self.(subject)) (self.(body_html))
    (self.(body_text)) (self.(from_email)) (self.(from_name))
    (self.(to_email)) (self.(to_name)) (self.(reply_to)) (self.(status))
    (self.(created_at)) (self.(sent_at)) (self.(opened_at)) v
    (self.(open_count)) (self.(click_count)) (self.(error_message))
    (self.(retry_count)) (self.(max_retries)).

Definition set_open_count (v : Z) (self : t) : t :=
  mk
    (self.(tracking_id)) (self.(user)) (self.(lead)) (self.(campaign))
    (self.(template)) (self.(subject)) (self.(body_html))
    (self.(body_text)) (self.(from_email)) (self.(from_name))
    (self.(to_email)) (self.(to_name)) (self.(reply_to)) (self.(status))
    (self.(created_at)) (self.(sent_at)) (self.(opened_at))
    (self.(clicked_at)) v (self.(click_count)) (self.(error_message))
    (self.(retry_count)) (self.(max_retries)).

Definition set_click_count (v : Z) (self : t) : t :=
  mk
    (self.(tracking_id)) (self.(user)) (self.(lead)) (self.(campaign))
    (self.(template)) (self.(subject)) (self.(body_html))
    (self.(body_text)) (self.(from_email)) (self.(from_name))
    (self.(to_email)) (self.(to_name)) (self.(reply_to)) (self.(status))
    (self.(created_at)) (self.(sent_at)) (self.(opened_at))
    (self.(clicked_at)) (self.(open_count)) v (self.(error_message))
    (self.(retry_count)) (self.(max_retries)).

Definition set_error_message (v : string) (self : t) : t :=
  mk
    (self.(tracking_id)) (self.(user)) (self.(lead)) (self.(campaign))
    (self.(template)) (self.(subject)) (self.(body_html))
    (self.(body_text)) (self.(from_email)) (self.(from_name))
    (self.(to_email)) (self.(to_name)) (self.(reply_to)) (self.(status))
    (self.(created_at)) (self.(sent_at)) (self.(opened_at))
    (self.(clicked_at)) (self.(open_count)) (self.(click_count)) v
    (self.(retry_count)) (self.(max_retries)).

Definition set_retry_count (v : Z) (self : t) : t :=
  mk
    (self.(tracking_id)) (self.(user)) (self.(lead)) (self.(campaign))
    (self.(template)) (self.(subject)) (self.(body_html))
    (self.(body_text)) (self.(from_email)) (self.(from_name))
    (self.(to_email)) (self.(to_name)) (self.(reply_to)) (self.(status))
    (self.(created_at)) (self.(sent_at)) (self.(opened_at))
    (self.(clicked_at)) (self.(open_count)) (self.(click_count))
    (self.(error_message)) v (self.(max_retries)).

End Email.

Module EmailTracking.

Record t : Type := mk {
  email : Z;
  event_type : string;
  timestamp : Z;
  ip_address : option string;
  user_agent : string
}.

End EmailTracking.

Module EmailSequenceStep.

Record t : Type := mk {
  sequence : Z;
  template : EmailTemplate.t;
  step_number : Z;
  delay_days : Z;
  send_only_if_not_replied : bool;
  send_only_if_status : list string;
  is_active : bool
}.

End EmailSequenceStep.

Module EmailSequenceEnrollment.

(** [sequence_user] is [enrollment.sequence.user], [lead] the row behind
    [lead_id]. *)
Record t : Type := mk {
  sequence : Z;
  sequence_user : User.t;
  lead_id : Z;
  lead : Lead.t;
  current_step : Z;
  is_active : bool;
  completed_at : option Z;
  emails_sent : Z;
  last_email_sent : option Z;
  has_replied : bool
}.

Definition set_current_step (v : Z) (self : t) : t :=
  mk
    (self.(sequence)) (self.(sequence_user)) (self.(lead_id)) (self.(lead))
    v (self.(is_active)) (self.(completed_at)) (self.(emails_sent))
    (self.(last_email_sent)) (self.(has_replied)).

Definition set_is_active (v : bool) (self : t) : t :=
  mk
    (self.(sequence)) (self.(sequence_user)) (self.(lead_id)) (self.(lead))
    (self.(current_step)) v (self.(completed_at)) (self.(emails_sent))
    (self.(last_email_sent)) (self.(has_replied)).

Definition set_completed_at (v : option Z) (self : t) : t :=
  mk
    (self.(sequence)) (self.(sequence_user)) (self.(lead_id)) (self.(lead))
    (self.(current_step)) (self.(is_active)) v (self.(emails_sent))
    (self.(last_email_sent)) (self.(has_replied)).

Definition set_emails_sent (v : Z) (self : t) : t :=
  mk
    (self.(sequence)) (self.(sequence_user)) (self.(lead_id)) (self.(lead))
    (self.(current_step)) (self.(is_active)) (self.(completed_at)) v
    (self.(last_email_sent)) (self.(has_replied)).

Definition set_last_email_sent (v : option Z) (self : t) : t :=
  mk
    (self.(sequence)) (self.(sequence_user)) (self.(lead_id)) (self.(lead))
    (self.(current_step)) (self.(is_active)) (self.(completed_at))
    (self.(emails_sent)) v (self.(has_replied)).

End EmailSequenceEnrollment.


Module EmailSequence.

Record t : Type := mk {
  name : string;
  user : User.t;
  trigger_on_lead_creation : bool;
  trigger_on_status_change : list string;
  trigger_on_priority_change : list string;
  is_active : bool;
  delay_start_days : Z
}.

End EmailSequence.

(** ** The database

    One table per model; [db_specific_leads] is the join table of
    [EmailCampaign.specific_leads], as pairs (campaign key, lead key). *)

Record DB : Type := mkDB {
  db_leads : gmap Z Lead.t;
  db_email_configs : gmap Z EmailConfiguration.t;
  db_campaigns : gmap Z EmailCampaign.t;
  db_specific_leads : list (Z * Z);
  db_emails : gmap Z Email.t;
  db_tracking : list EmailTracking.t;
  db_activities : list LeadActivity.t;
  db_steps : gmap Z EmailSequenceStep.t;
  db_enrollments : gmap Z EmailSequenceEnrollment.t
}.

Definition with_email_configs (v : gmap Z EmailConfiguration.t) (db : DB) : DB :=
  mkDB
    (db.(db_leads)) v (db.(db_campaigns)) (db.(db_specific_leads))
    (db.(db_emails)) (db.(db_tracking)) (db.(db_activities)) (db.(db_steps))
    (db.(db_enrollments)).

Definition with_campaigns (v : gmap Z EmailCampaign.t) (db : DB) : DB :=
  mkDB
    (db.(db_leads)) (db.(db_email_configs)) v (db.(db_specific_leads))
    (db.(db_emails)) (db.(db_tracking)) (db.(db_activities)) (db.(db_steps))
    (db.(db_enrollments)).

Definition with_emails (v : gmap Z Email.t) (db : DB) : DB :=
  mkDB
    (db.(db_leads)) (db.(db_email_configs)) (db.(db_campaigns))
    (db.(db_specific_leads)) v (db.(db_tracking)) (db.(db_activities))
    (db.(db_steps)) (db.(db_enrollments)).

Definition with_tracking (v : list EmailTracking.t) (db : DB) : DB :=
  mkDB
    (db.(db_leads)) (db.(db_email_configs)) (db.(db_campaigns))
    (db.(db_specific_leads)) (db.(db_emails)) v (db.(db_activities))
    (db.(db_steps)) (db.(db_enrollments)).

Definition with_activities (v : list LeadActivity.t) (db : DB) : DB :=
  mkDB
    (db.(db_leads)) (db.(db_email_configs)) (db.(db_campaigns))
    (db.(db_specific_leads)) (db.(db_emails)) (db.(db_tracking)) v
    (db.(db_steps)) (db.(db_enrollments)).

Definition with_enrollments (v : gmap Z EmailSequenceEnrollment.t) (db : DB) : DB :=
  mkDB
    (db.(db_leads)) (db.(db_email_configs)) (db.(db_campaigns))
    (db.(db_specific_leads)) (db.(db_emails)) (db.(db_tracking))
    (db.(db_activities)) (db.(db_steps)) v.

(** *** Queries

    A table scan returns the rows in key order; [Meta.ordering] is applied on
    top of it by a merge sort, so rows that tie on the ordering column come
    in an order left to the database. *)

Definition by_pk {A : Type} (a b : Z * A) : Prop := (a.1 ≤ b.1)%Z.

Global Instance by_pk_dec {A : Type} : RelDecision (@by_pk A).
Proof. intros a b. unfold by_pk. apply _. Defined.

Definition rows {A : Type} (table : gmap Z A) : list (Z * A) :=
  merge_sort by_pk (map_to_list table).

(** [ORDER BY column DESC] *)
Definition desc {A : Type} (column : A → Z) (a b : Z * A) : Prop :=
  (column b.2 ≤ column a.2)%Z.

Global Instance desc_dec {A : Type} (column : A → Z) : RelDecision (desc column).
Proof. intros a b. unfold desc. apply _. Defined.

Definition order_by_desc {A : Type} (column : A → Z) (l : list (Z * A)) : list (Z * A) :=
  merge_sort (desc column) l.

(** The key the database gives to a new row. *)
Definition next_pk {A : Type} (table : gmap Z A) : Z :=
  (1 + foldr Z.max 0 (map_to_list table).*1)%Z.

(** [Model.objects.create(...)] *)
Definition create {A : Type} (row : A) (table : gmap Z A) : Z * gmap Z A :=
  (next_pk table, <[next_pk table := row]> table).

(** *** Lead querysets

    [EmailCampaign.get_target_leads] composes querysets before it filters
    them, and Django treats the three kinds differently: [none()] is an
    [EmptyQuerySet], for which [union] hands back its single argument;
    [union] on anything else builds a combined query, and [filter],
    [exclude] and [distinct] on a combined query raise [NotSupportedError]
    (Django 3.1.3 and later; [models.JSONField] needs 3.1). *)

Module QuerySet.

Inductive Kind : Type := plain | empty | combined.

Record t : Type := mk {
  kind : Kind;
  result_rows : list (Z * Lead.t)
}.

(** [Lead.objects.all()] *)
Definition all (table : gmap Z Lead.t) : t := mk plain (rows table).

(** [Lead.objects.none()] *)
Definition none : t := mk empty [].

(** [Lead.objects.filter(...)], with the lookup as a predicate on the row *)
Definition objects_filter (p : Lead.t → bool) (table : gmap Z Lead.t) : t :=
  mk plain (filter (λ r, p r.2) (rows table)).

(** [self.union(other)], SQL [UNION]: the rows of both, each key once *)
Definition union (self other : t) : t :=
  match self.(kind) with
  | empty =>
      match other.(kind) with
      | empty => self
      | _ => other
      end
  | _ =>
      mk combined
        (self.(result_rows)
         ++ filter (λ r, r.1 ∉ self.(result_rows).*1) other.(result_rows))
  end.

(** [self.filter(...)] *)
Definition filter (p : Lead.t → bool) (self : t) : result t :=
  match self.(kind) with
  | combined => Raise NotSupportedError
  | k => Ok (mk k (base.filter (λ r, p r.2) self.(result_rows)))
  end.

(** [self.exclude(...)] *)
Definition exclude (p : Lead.t → bool) (self : t) : result t :=
  filter (λ l, negb (p l)) self.

(** [self.distinct()]: a table has one row per key *)
Definition distinct (self : t) : result t :=
  match self.(kind) with
  | combined => Raise NotSupportedError
  | _ => Ok self
  end.

(** Iterating the queryset: [Lead.Meta.ordering] is [-created_at]. *)
Definition evaluate (self : t) : list (Z * Lead.t) :=
  order_by_desc Lead.created_at self.(result_rows).

End QuerySet.

(** The dictionary [get_rendered_content] returns. *)
Module Rendered.

Record t : Type := mk {
  subject : string;
  html_body : string;
  text_body : string
}.

End Rendered.

(** How the body of the [try] block in [EmailService.send_email] ends between
    the first [email.save()] and the test of [result]: the message is built
    and [msg.send(...)] returns the number of messages delivered, or an
    exception is raised, with [str(e)] as its text.  The call is
    [msg.send(using=connection)]: [EmailMessage.send] of Django has the one
    parameter [fail_silently], so that with that class the call raises
    [TypeError] and every attempt ends as [raised]; a failure of the SMTP
    connection ends as [raised] as well.  [returned] is the end of a call
    on a message class whose [send] takes [using]. *)
Inductive send_result : Type :=
  | returned (result : Z)
  | raised (message : string).

(** The response of the tracking view. *)
Inductive response : Type :=
  | pixel_gif
  | no_content.

(** [x in values], for the JSON lists of the targeting and gating fields *)
Definition within {A : Type} `{EqDecision A} (x : A) (values : list A) : bool :=
  bool_decide (x ∈ values).

(** Truth value of a Python list *)
Definition truthy {A : Type} (l : list A) : bool :=
  match l with [] => false | _ => true end.

(** ** The statistics of a campaign (communications/services.py,
    EmailAnalyticsService) *)

Section Statistics.

(** Python's floats, with the two operations the statistics use: the true
    division of two integers and the product of a float with 100. *)
Variable float : Type.
Variable truediv : Z → Z → float.
Variable times100 : float → float.

(** A value of a rate of the statistics: the integer 0, or a float. *)
Inductive number : Type :=
  | int (n : Z)
  | real (x : float).

(** The dictionary [EmailAnalyticsService.get_campaign_stats] returns. *)
Record campaign_stats : Type := mk_campaign_stats {
  total_sent : Z;
  delivered : Z;
  opened : Z;
  clicked : Z;
  bounced : Z;
  failed : Z;
  delivery_rate : number;
  open_rate : number;
  click_rate : number;
  bounce_rate : number
}.

(** [emails.filter(status__in=statuses).count()], for the emails of a
    campaign *)
Definition count_status (campaign : Z) (statuses : list Email.Status) (db : DB) : Z :=
  Z.of_nat
    (size (filter (λ r, r.2.(Email.campaign) = Some campaign
                        ∧ r.2.(Email.status) ∈ statuses) db.(db_emails))).

(** [(part / whole * 100) if whole > 0 else 0] *)
Definition rate (part whole : Z) : number :=
  if bool_decide (0 < whole)%Z then real (times100 (truediv part whole)) else int 0.

(** [EmailAnalyticsService.get_campaign_stats] *)
Definition get_campaign_stats (campaign : Z) (db : DB) : campaign_stats :=
  let total_sent :=
    count_status campaign [Email.sent; Email.delivered; Email.opened; Email.clicked] db in
  let delivered :=
    count_status campaign [Email.delivered; Email.opened; Email.clicked] db in
  let opened := count_status campaign [Email.opened; Email.clicked] db in
  let clicked := count_status campaign [Email.clicked] db in
  let bounced := count_status campaign [Email.bounced] db in
  let failed := count_status campaign [Email.failed] db in
  {| total_sent := total_sent;
     delivered := delivered;
     opened := opened;
     clicked := clicked;
     bounced := bounced;
     failed := failed;
     delivery_rate := rate delivered total_sent;
     open_rate := rate opened delivered;
     click_rate := rate clicked delivered;
     bounce_rate := rate bounced total_sent |}.

End Statistics.

Arguments int {float} n.
Arguments real {float} x.

(** ** The operations *)

Section Engine.

Set Default Proof Using "Type".

(** What the repository calls but does not define: [strip_tags] of
    [django.utils.html], [strftime] (format, then time), the [uuid4] drawn for
    a new Email row (by the row's key), the SMTP transport, which for an
    Email row about to be sent tells how the attempt ends, and
    [clean_ipv6_address] of [django.utils.ipv6], which gives the normal form
    of an IPv6 address and raises [ValidationError] ([None]) for a text that
    is not one. *)
Variable strip_tags : string → string.
Variable strftime : string → Z → string.
Variable uuid4 : Z → Z.
Variable transport : Z → Email.t → send_result.
Variable clean_ipv6_address : string → option string.

(** *** communications/models.py *)

(** [Model.save()] of an instance that has a key *)
Definition save_email (pk : Z) (email : Email.t) (db : DB) : DB :=
  with_emails (<[pk := email]> db.(db_emails)) db.

Definition save_campaign (pk : Z) (campaign : EmailCampaign.t) (db : DB) : DB :=
  with_campaigns (<[pk := campaign]> db.(db_campaigns)) db.

Definition save_enrollment (pk : Z) (enrollment : EmailSequenceEnrollment.t)
    (db : DB) : DB :=
  with_enrollments (<[pk := enrollment]> db.(db_enrollments)) db.

(** [.update(is_default=False)] on the rows of [user] that are default *)
Definition clear_default (user : Z) (c : EmailConfiguration.t) : EmailConfiguration.t :=
  if bool_decide (c.(EmailConfiguration.user) = user) && c.(EmailConfiguration.is_default)
  then EmailConfiguration.set_is_default false c
  else c.

(** [unique_together = ['user', 'name']]: a row under another key with the
    user and the name of [self] *)
Definition name_taken (key : Z) (self : EmailConfiguration.t)
    (table : gmap Z EmailConfiguration.t) : bool :=
  existsb
    (λ r, bool_decide (r.1 ≠ key
                       ∧ r.2.(EmailConfiguration.user) = self.(EmailConfiguration.user)
                       ∧ r.2.(EmailConfiguration.name) = self.(EmailConfiguration.name)))
    (rows table).

(** [EmailConfiguration.save]; [pk] is [None] for an instance not yet in the
    table.  The update runs in its own statement, so it stays when the
    insert is refused.  Returns the key of the saved row. *)
Definition save (pk : option Z) (self : EmailConfiguration.t) (db : DB)
    : DB * result Z :=
  let db :=
    if self.(EmailConfiguration.is_default)
    then with_email_configs
           (clear_default self.(EmailConfiguration.user) <$> db.(db_email_configs)) db
    else db in
  let key := default (next_pk db.(db_email_configs)) pk in
  if name_taken key self db.(db_email_configs)
  then (db, Raise IntegrityError)
  else (with_email_configs (<[key := self]> db.(db_email_configs)) db, Ok key).

(** [EmailTemplate.get_rendered_content] *)
Definition get_rendered_content (self : EmailTemplate.t)
    (context : gmap string string) : result Rendered.t :=
  rendered_subject <- Django.render context self.(EmailTemplate.subject);;
  rendered_html <- Django.render context self.(EmailTemplate.body_html);;
  rendered_text <-
    (if Text.is_empty self.(EmailTemplate.body_text)
     then Ok (strip_tags rendered_html)
     else Django.render context self.(EmailTemplate.body_text));;
  Ok (Rendered.mk rendered_subject rendered_html rendered_text).

(** The leads [self.specific_leads.all()] joins to campaign [pk]. *)
Definition specific_leads (pk : Z) (db : DB) : list (Z * Lead.t) :=
  filter (λ r, (pk, r.1) ∈ db.(db_specific_leads)) (rows db.(db_leads)).

(** [EmailCampaign.get_target_leads], iterated *)
Definition get_target_leads (pk : Z) (self : EmailCampaign.t) (db : DB)
    : result (list (Z * Lead.t)) :=
  let queryset :=
    if self.(EmailCampaign.target_all_leads)
    then QuerySet.all db.(db_leads)
    else
      let queryset := QuerySet.none in
      let queryset :=
        if truthy self.(EmailCampaign.target_statuses)
        then QuerySet.union queryset
               (QuerySet.objects_filter
                  (λ l, within l.(Lead.status) self.(EmailCampaign.target_statuses))
                  db.(db_leads))
        else queryset in
      let queryset :=
        if truthy self.(EmailCampaign.target_priorities)
        then QuerySet.union queryset
               (QuerySet.objects_filter
                  (λ l, within l.(Lead.priority) self.(EmailCampaign.target_priorities))
                  db.(db_leads))
        else queryset in
      let queryset :=
        if truthy self.(EmailCampaign.target_sources)
        then QuerySet.union queryset
               (QuerySet.objects_filter
                  (λ l, match l.(Lead.source_id) with
                        | Some s => within s self.(EmailCampaign.target_sources)
                        | None => false
                        end)
                  db.(db_leads))
        else queryset in
      if truthy (specific_leads pk db)
      then QuerySet.union queryset (QuerySet.mk QuerySet.plain (specific_leads pk db))
      else queryset in
  (* the email column is declared NOT NULL: email__isnull=False keeps every row *)
  not_null <- QuerySet.filter (λ _, true) queryset;;
  with_email <- QuerySet.exclude (λ l, Text.is_empty l.(Lead.email)) not_null;;
  leads <- QuerySet.distinct with_email;;
  Ok (QuerySet.evaluate leads).

(** [Email.mark_as_opened] *)
Definition mark_as_opened (now : Z) (pk : Z) (self : Email.t) (db : DB)
    : DB * Email.t :=
  if within self.(Email.status) [Email.sent; Email.delivered] then
    let self := Email.set_status Email.opened self in
    let self := Email.set_opened_at (Some now) self in
    let self := Email.set_open_count (self.(Email.open_count) + 1)%Z self in
    (save_email pk self db, self)
  else (db, self).

(** [Email.mark_as_clicked] *)
Definition mark_as_clicked (now : Z) (pk : Z) (self : Email.t) (db : DB)
    : DB * Email.t :=
  if within self.(Email.status) [Email.sent; Email.delivered; Email.opened] then
    let self := Email.set_status Email.clicked self in
    let self := Email.set_clicked_at (Some now) self in
    let self := Email.set_click_count (self.(Email.click_count) + 1)%Z self in
    let self :=
      match self.(Email.opened_at) with
      | Some _ => self
      | None =>
          Email.set_open_count (self.(Email.open_count) + 1)%Z
            (Email.set_opened_at (Some now) self)
      end in
    (save_email pk self db, self)
  else (db, self).

(** *** communications/views.py *)

(** What the column [ip_address] of EmailTracking, a
    [GenericIPAddressField(blank=True, null=True)], stores for a value
    ([get_db_prep_value]): NULL for [None] and for the empty string, the
    normal form of the address for a text with a colon that is an IPv6
    address, and the text itself in every other case. *)
Definition ip_address_db_value (value : option string) : option string :=
  match value with
  | None => None
  | Some v =>
      if Text.is_empty v then None
      else if Text.contains ":" v then Some (default v (clean_ipv6_address v))
      else Some v
  end.

(** [email_tracking(request, tracking_id, event)]; [remote_addr] and
    [user_agent] are the two entries of [request.META] it reads, and the
    tracking row is the row as the table holds it.
    [Email.objects.get] finds no row ([DoesNotExist], which the view passes
    over), one row, or several ([MultipleObjectsReturned], which it does
    not catch). *)
Definition email_tracking (now : Z) (remote_addr : option string)
    (user_agent : string) (tracking_id : Z) (event : string) (db : DB)
    : DB * result response :=
  match filter (λ r, r.2.(Email.tracking_id) = tracking_id) (rows db.(db_emails)) with
  | [] => (db, Ok no_content)
  | [(pk, email)] =>
      let db :=
        with_tracking
          (db.(db_tracking)
           ++ [EmailTracking.mk pk event now (ip_address_db_value remote_addr)
                 user_agent]) db in
      let db :=
        if String.eqb event "opened" then (mark_as_opened now pk email db).1
        else if String.eqb event "clicked" then (mark_as_clicked now pk email db).1
        else db in
      (db, Ok (if String.eqb event "opened" then pixel_gif else no_content))
  | _ => (db, Raise MultipleObjectsReturned)
  end.

(** *** communications/services.py *)

(** [EmailService.send_email]: the database, the instance as the call
    leaves it, and the pair it returns. *)
Definition send_email (now : Z) (pk : Z) (email : Email.t) (db : DB)
    : DB * Email.t * (bool * string) :=
  let email := Email.set_status Email.sending email in
  let db := save_email pk email db in
  match transport pk email with
  | returned result =>
      if bool_decide (result ≠ 0%Z) then
        let email := Email.set_status Email.sent email in
        let email := Email.set_sent_at (Some now) email in
        let db := save_email pk email db in
        let db :=
          with_tracking
            (db.(db_tracking) ++ [EmailTracking.mk pk "sent" now None ""]) db in
        let db :=
          with_activities
            (db.(db_activities)
             ++ [LeadActivity.mk email.(Email.lead) email.(Email.user) "email"
                   ("Email sent: " +:+ email.(Email.subject))
                   ("Email sent to " +:+ email.(Email.to_email)) now]) db in
        (db, email, (true, "Email sent successfully"))
      else
        let email := Email.set_status Email.failed email in
        let email := Email.set_error_message "Failed to send email" email in
        let db := save_email pk email db in
        (db, email, (false, "Failed to send email"))
  | raised message =>
      let email := Email.set_status Email.failed email in
      let email := Email.set_error_message message email in
      let email := Email.set_retry_count (email.(Email.retry_count) + 1)%Z email in
      let db := save_email pk email db in
      (db, email, (false, message))
  end.

(** The [context] dictionary of [EmailTemplateService.render_template] *)
Definition template_context (lead : Lead.t) (user : User.t) (now : Z)
    : gmap string string :=
  {[ "lead_name" := Lead.get_full_name lead;
     "first_name" := lead.(Lead.first_name);
     "last_name" := default "" lead.(Lead.last_name);
     "company" := default "" lead.(Lead.company);
     "email" := lead.(Lead.email);
     "phone" := default "" lead.(Lead.phone);
     "user_name" := User.get_full_name user;
     "user_email" := user.(User.email);
     "current_date" := strftime "%B %d, %Y" now;
     "current_time" := strftime "%H:%M" now ]}.

(** [EmailTemplateService.render_template] *)
Definition render_template (template : EmailTemplate.t) (lead : Lead.t)
    (user : User.t) (now : Z) : result Rendered.t :=
  get_rendered_content template (template_context lead user now).

(** The rows [Email.objects.filter(campaign=campaign, lead=lead)] selects. *)
Definition campaign_lead_emails (campaign lead : Z) (db : DB) : gmap Z Email.t :=
  filter (λ r, r.2.(Email.campaign) = Some campaign ∧ r.2.(Email.lead) = lead)
    db.(db_emails).

(** [.exists()] *)
Definition exists_ {A : Type} (table : gmap Z A) : bool :=
  truthy (map_to_list table).

(** The row [Email.objects.create(...)] inserts for a target of a campaign. *)
Definition campaign_email (now key : Z) (pk : Z) (campaign : EmailCampaign.t)
    (lead_id : Z) (lead : Lead.t) (rendered_content : Rendered.t) : Email.t :=
  {| Email.tracking_id := uuid4 key;
     Email.user := campaign.(EmailCampaign.user).(User.id);
     Email.lead := lead_id;
     Email.campaign := Some pk;
     Email.template := Some campaign.(EmailCampaign.template).(EmailTemplate.id);
     Email.subject := rendered_content.(Rendered.subject);
     Email.body_html := rendered_content.(Rendered.html_body);
     Email.body_text := rendered_content.(Rendered.text_body);
     Email.from_email := campaign.(EmailCampaign.email_config).(EmailConfiguration.from_email);
     Email.from_name := campaign.(EmailCampaign.email_config).(EmailConfiguration.from_name);
     Email.to_email := lead.(Lead.email);
     Email.to_name := Lead.get_full_name lead;
     Email.reply_to := campaign.(EmailCampaign.email_config).(EmailConfiguration.reply_to);
     Email.status := Email.queued;
     Email.created_at := now;
     Email.sent_at := None;
     Email.opened_at := None;
     Email.clicked_at := None;
     Email.open_count := 0;
     Email.click_count := 0;
     Email.error_message := "";
     Email.retry_count := 0;
     Email.max_retries := 3 |}.

(** The loop of [create_campaign_emails] over the target leads; an exception
    of the renderer leaves the loop with the rows created so far. *)
Fixpoint create_emails (now : Z) (pk : Z) (campaign : EmailCampaign.t)
    (leads : list (Z * Lead.t)) (emails_created : Z) (db : DB) : DB * result Z :=
  match leads with
  | [] => (db, Ok emails_created)
  | (lead_id, lead) :: leads =>
      if exists_ (campaign_lead_emails pk lead_id db)
      then create_emails now pk campaign leads emails_created db
      else
        match render_template campaign.(EmailCampaign.template) lead
                campaign.(EmailCampaign.user) now with
        | Raise e => (db, Raise e)
        | Ok rendered_content =>
            let key := next_pk db.(db_emails) in
            let email := campaign_email now key pk campaign lead_id lead rendered_content in
            create_emails now pk campaign leads (emails_created + 1)%Z
              (save_email key email db)
        end
  end.

(** [EmailCampaignService.create_campaign_emails]: the database, and the
    campaign instance with the count it returns. *)
Definition create_campaign_emails (now : Z) (pk : Z) (campaign : EmailCampaign.t)
    (db : DB) : DB * result (EmailCampaign.t * Z) :=
  match get_target_leads pk campaign db with
  | Raise e => (db, Raise e)
  | Ok leads =>
      match create_emails now pk campaign leads 0 db with
      | (db, Raise e) => (db, Raise e)
      | (db, Ok emails_created) =>
          let campaign := EmailCampaign.set_emails_sent 0 campaign in
          let campaign := EmailCampaign.set_emails_failed 0 campaign in
          (save_campaign pk campaign db, Ok (campaign, emails_created))
      end
  end.

(** The lookup [campaign=campaign, status='queued'], on a row with its key *)
Definition is_queued (campaign : Z) (r : Z * Email.t) : Prop :=
  r.2.(Email.campaign) = Some campaign ∧ r.2.(Email.status) = Email.queued.

Global Instance is_queued_dec (campaign : Z) (r : Z * Email.t) :
  Decision (is_queued campaign r).
Proof. unfold is_queued. apply _. Defined.

(** The rows [Email.objects.filter(campaign=campaign, status='queued')]
    selects. *)
Definition queued (campaign : Z) (db : DB) : gmap Z Email.t :=
  filter (is_queued campaign) db.(db_emails).

(** The loop of [send_campaign_batch]: database, sent count, failed count. *)
Fixpoint send_emails (now : Z) (queued_emails : list (Z * Email.t))
    (sent_count failed_count : Z) (db : DB) : DB * Z * Z :=
  match queued_emails with
  | [] => (db, sent_count, failed_count)
  | (pk, email) :: queued_emails =>
      let '(db, _, (success, _)) := send_email now pk email db in
      if success
      then send_emails now queued_emails (sent_count + 1)%Z failed_count db
      else send_emails now queued_emails sent_count (failed_count + 1)%Z db
  end.

(** [EmailCampaignService.send_campaign_batch]: the database, and the
    campaign instance with the dictionary (sent, failed) it returns.  A
    negative bound is refused when the queryset is sliced. *)
Definition send_campaign_batch (now : Z) (pk : Z) (campaign : EmailCampaign.t)
    (batch_size : option Z) (db : DB)
    : DB * result (EmailCampaign.t * (Z * Z)) :=
  let batch_size :=
    match batch_size with
    | Some b => if bool_decide (b = 0%Z) then campaign.(EmailCampaign.batch_size) else b
    | None => campaign.(EmailCampaign.batch_size)
    end in
  if bool_decide (batch_size < 0)%Z then (db, Raise NegativeIndexing)
  else
    let queued_emails :=
      take (Z.to_nat batch_size)
        (order_by_desc Email.created_at (rows (queued pk db))) in
    if negb (truthy queued_emails) then
      let campaign := EmailCampaign.set_status EmailCampaign.sent campaign in
      let campaign := EmailCampaign.set_completed_at (Some now) campaign in
      (save_campaign pk campaign db, Ok (campaign, (0, 0)%Z))
    else
      let '(db, sent_count, failed_count) := send_emails now queued_emails 0 0 db in
      let campaign :=
        EmailCampaign.set_emails_sent
          (campaign.(EmailCampaign.emails_sent) + sent_count)%Z campaign in
      let campaign :=
        EmailCampaign.set_emails_failed
          (campaign.(EmailCampaign.emails_failed) + failed_count)%Z campaign in
      (save_campaign pk campaign db, Ok (campaign, (sent_count, failed_count))).

(** [Meta.ordering = ['-is_default', 'name']] of EmailConfiguration *)
Definition config_order (a b : Z * EmailConfiguration.t) : Prop :=
  if bool_decide (a.2.(EmailConfiguration.is_default) = b.2.(EmailConfiguration.is_default))
  then String.le a.2.(EmailConfiguration.name) b.2.(EmailConfiguration.name)
  else a.2.(EmailConfiguration.is_default) = true.

Global Instance config_order_dec : RelDecision config_order.
Proof. intros a b. unfold config_order. case_bool_decide; apply _. Defined.

(** [EmailConfiguration.objects.filter(user=user, ...).first()] *)
Definition first_config (p : EmailConfiguration.t → bool) (user : Z) (db : DB)
    : option (Z * EmailConfiguration.t) :=
  head (merge_sort config_order
          (filter (λ r, r.2.(EmailConfiguration.user) = user ∧ p r.2)
             (rows db.(db_email_configs)))).

(** The default configuration of the user or, without one, an active one. *)
Definition find_email_config (user : Z) (db : DB) : option (Z * EmailConfiguration.t) :=
  match first_config EmailConfiguration.is_default user db with
  | Some c => Some c
  | None => first_config EmailConfiguration.is_active user db
  end.

(** [enrollment.sequence.steps.filter(step_number=n, is_active=True).first()];
    the rows that pass the filter tie on [step_number], the ordering column. *)
Definition find_step (sequence : Z) (n : Z) (db : DB)
    : option (Z * EmailSequenceStep.t) :=
  head (filter
          (λ r, r.2.(EmailSequenceStep.sequence) = sequence
                ∧ r.2.(EmailSequenceStep.step_number) = n
                ∧ r.2.(EmailSequenceStep.is_active))
          (rows db.(db_steps))).

(** The row [Email.objects.create(...)] inserts for a step of a sequence. *)
Definition step_email (now key : Z) (enrollment : EmailSequenceEnrollment.t)
    (next_step : EmailSequenceStep.t) (email_config : EmailConfiguration.t)
    (rendered_content : Rendered.t) : Email.t :=
  {| Email.tracking_id := uuid4 key;
     Email.user := enrollment.(EmailSequenceEnrollment.sequence_user).(User.id);
     Email.lead := enrollment.(EmailSequenceEnrollment.lead_id);
     Email.campaign := None;
     Email.template := Some next_step.(EmailSequenceStep.template).(EmailTemplate.id);
     Email.subject := rendered_content.(Rendered.subject);
     Email.body_html := rendered_content.(Rendered.html_body);
     Email.body_text := rendered_content.(Rendered.text_body);
     Email.from_email := email_config.(EmailConfiguration.from_email);
     Email.from_name := email_config.(EmailConfiguration.from_name);
     Email.to_email := enrollment.(EmailSequenceEnrollment.lead).(Lead.email);
     Email.to_name := Lead.get_full_name enrollment.(EmailSequenceEnrollment.lead);
     Email.reply_to := email_config.(EmailConfiguration.reply_to);
     Email.status := Email.queued;
     Email.created_at := now;
     Email.sent_at := None;
     Email.opened_at := None;
     Email.clicked_at := None;
     Email.open_count := 0;
     Email.click_count := 0;
     Email.error_message := "";
     Email.retry_count := 0;
     Email.max_retries := 3 |}.

(** The [try] block of [_schedule_next_step]: without a configuration it
    logs and returns; an exception of the renderer is logged by the
    handler. *)
Definition send_step (now : Z) (pk : Z) (enrollment : EmailSequenceEnrollment.t)
    (next_step : EmailSequenceStep.t) (db : DB)
    : DB * EmailSequenceEnrollment.t :=
  match find_email_config
          enrollment.(EmailSequenceEnrollment.sequence_user).(User.id) db with
  | None => (db, enrollment)
  | Some (_, email_config) =>
      match render_template next_step.(EmailSequenceStep.template)
              enrollment.(EmailSequenceEnrollment.lead)
              enrollment.(EmailSequenceEnrollment.sequence_user) now with
      | Raise _ => (db, enrollment)
      | Ok rendered_content =>
          let key := next_pk db.(db_emails) in
          let email := step_email now key enrollment next_step email_config rendered_content in
          let db := save_email key email db in
          let enrollment :=
            EmailSequenceEnrollment.set_current_step
              next_step.(EmailSequenceStep.step_number) enrollment in
          let enrollment :=
            EmailSequenceEnrollment.set_emails_sent
              (enrollment.(EmailSequenceEnrollment.emails_sent) + 1)%Z enrollment in
          let enrollment :=
            EmailSequenceEnrollment.set_last_email_sent (Some now) enrollment in
          let db := save_enrollment pk enrollment db in
          ((send_email now key email db).1.1, enrollment)
      end
  end.

(** [EmailSequenceService._schedule_next_step], which calls itself after a
    skipped step; [fuel] bounds the depth of these calls and [None] means
    that it ran out. *)
Fixpoint schedule_steps (fuel : nat) (now : Z) (pk : Z)
    (enrollment : EmailSequenceEnrollment.t) (db : DB)
    : option (DB * EmailSequenceEnrollment.t) :=
  match fuel with
  | O => None
  | S fuel =>
      match find_step enrollment.(EmailSequenceEnrollment.sequence)
              (enrollment.(EmailSequenceEnrollment.current_step) + 1)%Z db with
      | None =>
          let enrollment := EmailSequenceEnrollment.set_is_active false enrollment in
          let enrollment := EmailSequenceEnrollment.set_completed_at (Some now) enrollment in
          Some (save_enrollment pk enrollment db, enrollment)
      | Some (_, next_step) =>
          if next_step.(EmailSequenceStep.send_only_if_not_replied)
             && enrollment.(EmailSequenceEnrollment.has_replied)
          then
            let enrollment :=
              EmailSequenceEnrollment.set_current_step
                next_step.(EmailSequenceStep.step_number) enrollment in
            schedule_steps fuel now pk enrollment (save_enrollment pk enrollment db)
          else if truthy next_step.(EmailSequenceStep.send_only_if_status)
                  && negb (within enrollment.(EmailSequenceEnrollment.lead).(Lead.status)
                             next_step.(EmailSequenceStep.send_only_if_status))
          then
            let enrollment :=
              EmailSequenceEnrollment.set_current_step
                next_step.(EmailSequenceStep.step_number) enrollment in
            schedule_steps fuel now pk enrollment (save_enrollment pk enrollment db)
          else Some (send_step now pk enrollment next_step db)
      end
  end.

(** One call for every step of the table and one more always suffice
    ([schedule_next_step_total]). *)
Definition _schedule_next_step (now : Z) (pk : Z)
    (enrollment : EmailSequenceEnrollment.t) (db : DB)
    : option (DB * EmailSequenceEnrollment.t) :=
  schedule_steps (S (size db.(db_steps))) now pk enrollment db.

(** [EmailSequenceEnrollment.objects.get_or_create(sequence=sequence,
    lead=lead, defaults={'is_active': True})] looks for the rows of the
    pair. *)
Definition enrollments_of (sequence lead : Z) (db : DB)
    : list (Z * EmailSequenceEnrollment.t) :=
  filter (λ r, r.2.(EmailSequenceEnrollment.sequence) = sequence
               ∧ r.2.(EmailSequenceEnrollment.lead_id) = lead)
    (rows db.(db_enrollments)).

(** [EmailSequenceService.enroll_lead_in_sequence]: the database and the
    value returned.  With one row for the pair nothing is created; with
    several, [get_or_create] raises [MultipleObjectsReturned], which the
    handler turns into [False].  [None] stands for a run of
    [_schedule_next_step] out of fuel. *)
Definition enroll_lead_in_sequence (now : Z) (lead_id : Z) (lead : Lead.t)
    (sequence_id : Z) (sequence : EmailSequence.t) (db : DB)
    : option (DB * bool) :=
  match enrollments_of sequence_id lead_id db with
  | [] =>
      let key := next_pk db.(db_enrollments) in
      let enrollment :=
        EmailSequenceEnrollment.mk sequence_id sequence.(EmailSequence.user)
          lead_id lead 0 true None 0 None false in
      let db := save_enrollment key enrollment db in
      if bool_decide (sequence.(EmailSequence.delay_start_days) = 0%Z)
      then
        match _schedule_next_step now key enrollment db with
        | Some (db, _) => Some (db, true)
        | None => None
        end
      else Some (db, true)
  | _ => Some (db, false)
  end.

(** [Meta.ordering = ['name']] of EmailSequence *)
Definition sequence_order (a b : Z * EmailSequence.t) : Prop :=
  String.le a.2.(EmailSequence.name) b.2.(EmailSequence.name).

Global Instance sequence_order_dec : RelDecision sequence_order.
Proof. intros a b. unfold sequence_order. apply _. Defined.

(** The loops [for sequence in sequences: enroll_lead_in_sequence(instance,
    sequence)] of the signal handler *)
Fixpoint enroll_in_all (now : Z) (lead_id : Z) (lead : Lead.t)
    (sequences : list (Z * EmailSequence.t)) (db : DB) : option DB :=
  match sequences with
  | [] => Some db
  | (sequence_id, sequence) :: sequences =>
      match enroll_lead_in_sequence now lead_id lead sequence_id sequence db with
      | Some (db, _) => enroll_in_all now lead_id lead sequences db
      | None => None
      end
  end.

(** [EmailSequence.objects.filter(..., is_active=True)] *)
Definition active_sequences (p : EmailSequence.t → bool)
    (table : gmap Z EmailSequence.t) : list (Z * EmailSequence.t) :=
  merge_sort sequence_order
    (filter (λ r, p r.2 ∧ r.2.(EmailSequence.is_active)) (rows table)).

(** communications/signals.py, [trigger_email_sequences]: the [post_save]
    handler of Lead, which runs after the row of [instance] was written.
    The EmailSequence table, which no embedded operation writes, is the
    argument [sequences].  The two [__contains] lookups are those of a
    backend that has them for JSON columns (PostgreSQL, MySQL). *)
Definition trigger_email_sequences (now : Z) (sequences : gmap Z EmailSequence.t)
    (pk : Z) (instance : Lead.t) (created : bool) (db : DB) : option DB :=
  if created then
    enroll_in_all now pk instance
      (active_sequences EmailSequence.trigger_on_lead_creation sequences) db
  else
    match db.(db_leads) !! pk with
    | None => Some db
    | Some old_instance =>
        db ←
          (if bool_decide (old_instance.(Lead.status) ≠ instance.(Lead.status))
           then enroll_in_all now pk instance
                  (active_sequences
                     (λ q, within instance.(Lead.status)
                             q.(EmailSequence.trigger_on_status_change))
                     sequences) db
           else Some db);
        if bool_decide (old_instance.(Lead.priority) ≠ instance.(Lead.priority))
        then enroll_in_all now pk instance
               (active_sequences
                  (λ q, within instance.(Lead.priority)
                          q.(EmailSequence.trigger_on_priority_change))
                  sequences) db
        else Some db
    end.

(** The rows [Email.objects.filter(status='failed',
    retry_count__lt=F('max_retries'))] selects. *)
Definition can_retry (r : Z * Email.t) : Prop :=
  r.2.(Email.status) = Email.failed
  ∧ (r.2.(Email.retry_count) < r.2.(Email.max_retries))%Z.

Global Instance can_retry_dec (r : Z * Email.t) : Decision (can_retry r).
Proof. unfold can_retry. apply _. Defined.

(** The configuration a retry sends through: the default active one of the
    user or, without one, an active one. *)
Definition retry_config (user : Z) (db : DB) : option (Z * EmailConfiguration.t) :=
  match first_config
          (λ c, c.(EmailConfiguration.is_default) && c.(EmailConfiguration.is_active))
          user db with
  | Some c => Some c
  | None => first_config EmailConfiguration.is_active user db
  end.

(** The loop of [retry_failed_emails] *)
Fixpoint retry_emails (now : Z) (failed_emails : list (Z * Email.t))
    (retried_count : Z) (db : DB) : DB * Z :=
  match failed_emails with
  | [] => (db, retried_count)
  | (pk, email) :: failed_emails =>
      match retry_config email.(Email.user) db with
      | Some _ =>
          let '(db, _, (success, _)) := send_email now pk email db in
          retry_emails now failed_emails
            (if success then (retried_count + 1)%Z else retried_count) db
      | None => retry_emails now failed_emails retried_count db
      end
  end.

(** communications/tasks.py, [retry_failed_emails]: the database and the
    count it logs. *)
Definition retry_failed_emails (now : Z) (db : DB) : DB * Z :=
  retry_emails now
    (order_by_desc Email.created_at (rows (filter can_retry db.(db_emails)))) 0 db.

(** The keys of the context dictionary of [render_template]. *)
Definition allowed_placeholders : list string :=
  ["lead_name"; "first_name"; "last_name"; "company"; "email"; "phone";
   "user_name"; "user_email"; "current_date"; "current_time"].

(** At most one default configuration per user. *)
Definition one_default (db : DB) : Prop :=
  ∀ k1 k2 c1 c2,
    db.(db_email_configs) !! k1 = Some c1 →
    db.(db_email_configs) !! k2 = Some c2 →
    c1.(EmailConfiguration.user) = c2.(EmailConfiguration.user) →
    c1.(EmailConfiguration.is_default) = true →
    c2.(EmailConfiguration.is_default) = true →
    k1 = k2.

(** The steps of a sequence that lie after a given step number: what a run
    of [_schedule_next_step] can still visit. *)
Definition remaining_steps (sequence current_step : Z) (db : DB)
    : gmap Z EmailSequenceStep.t :=
  filter (λ r, r.2.(EmailSequenceStep.sequence) = sequence
               ∧ (current_step < r.2.(EmailSequenceStep.step_number))%Z)
    db.(db_steps).

(** The three strings of a template compile. *)
Definition template_compiles (template : EmailTemplate.t) : bool :=
  Django.compiles template.(EmailTemplate.subject)
  && Django.compiles template.(EmailTemplate.body_html)
  && (Text.is_empty template.(EmailTemplate.body_text)
      || Django.compiles template.(EmailTemplate.body_text)).

(** An Email row after a successful [send_email] at time [now]. *)
Definition as_sent (now : Z) (email : Email.t) : Email.t :=
  Email.set_sent_at (Some now)
    (Email.set_status Email.sent (Email.set_status Email.sending email)).

(** The Email table after a batch in which every attempt succeeded. *)
Definition deliver_all (now : Z) (batch : list (Z * Email.t))
    (table : gmap Z Email.t) : gmap Z Email.t :=
  foldl (λ m r, <[r.1 := as_sent now r.2]> m) table batch.

(** ** Sample data

    A user with one configuration, six leads (one of them without an email
    address), a campaign that targets all leads with a batch size of 2, the
    five queued rows of that campaign, and a sequence of one step.  The
    collaborators are stood in for by the simplest functions; the transport
    either delivers every message or returns zero for every message. *)

Definition sample_strip_tags (html : string) : string := html.

Definition sample_strftime (format : string) (now : Z) : string := format.

Definition sample_uuid4 (key : Z) : Z := (40 + key)%Z.

Definition sample_clean_ipv6_address (address : string) : option string :=
  Some address.

Definition always_delivers (pk : Z) (email : Email.t) : send_result := returned 1.

Definition nothing_sent (pk : Z) (email : Email.t) : send_result := returned 0.

Definition sample_user : User.t := User.mk 1 "Sam" "Seller" "sam@crm.test".

Definition sample_template : EmailTemplate.t :=
  EmailTemplate.mk 1 "Hi {{first_name}} {{nickname}}!" "<p>{{company}}</p>" "".

Definition sample_config : EmailConfiguration.t :=
  EmailConfiguration.mk 1 "main" "sam@crm.test" "Sam" "" true true.

Definition second_config : EmailConfiguration.t :=
  EmailConfiguration.mk 1 "backup" "sales@crm.test" "Sales" "" true true.

Definition sample_lead (created_at : Z) (email : string) : Lead.t :=
  Lead.mk "Ann" None email None (Some "ACME") None "new" "warm" created_at.

Definition sample_leads : gmap Z Lead.t :=
  list_to_map
    [(1, sample_lead 1 "a@x.test"); (2, sample_lead 2 "");
     (3, sample_lead 3 "c@x.test"); (4, sample_lead 4 "d@x.test");
     (5, sample_lead 5 "e@x.test"); (6, sample_lead 6 "f@x.test")]%Z.

Definition sample_campaign : EmailCampaign.t :=
  EmailCampaign.mk sample_user sample_template sample_config
    EmailCampaign.sending true [] [] [] 2 0 0 None.

(** A campaign whose template has an empty variable tag. *)
Definition broken_campaign : EmailCampaign.t :=
  EmailCampaign.mk sample_user (EmailTemplate.mk 2 "Hi {{ }}" "<p>Hello</p>" "")
    sample_config EmailCampaign.draft true [] [] [] 2 4 1 None.

(** A queued row of campaign 7 for a lead. *)
Definition sample_email (lead : Z) : Email.t :=
  {| Email.tracking_id := 40 + lead;
     Email.user := 1;
     Email.lead := lead;
     Email.campaign := Some 7%Z;
     Email.template := Some 1%Z;
     Email.subject := "Hi Ann !";
     Email.body_html := "<p>ACME</p>";
     Email.body_text := "<p>ACME</p>";
     Email.from_email := "sam@crm.test";
     Email.from_name := "Sam";
     Email.to_email := "lead@x.test";
     Email.to_name := "Ann";
     Email.reply_to := "";
     Email.status := Email.queued;
     Email.created_at := 100;
     Email.sent_at := None;
     Email.opened_at := None;
     Email.clicked_at := None;
     Email.open_count := 0;
     Email.click_count := 0;
     Email.error_message := "";
     Email.retry_count := 0;
     Email.max_retries := 3 |}.

(** The leads and the configuration, no email yet. *)
Definition sample_db : DB :=
  mkDB sample_leads {[ 1%Z := sample_config ]} {[ 7%Z := sample_campaign ]}
    [] ∅ [] [] ∅ ∅.

(** The same with the five queued rows of campaign 7. *)
Definition sample_queue_db : DB :=
  mkDB sample_leads {[ 1%Z := sample_config ]} {[ 7%Z := sample_campaign ]} []
    (list_to_map
       [(1, sample_email 1); (2, sample_email 3); (3, sample_email 4);
        (4, sample_email 5); (5, sample_email 6)]%Z)
    [] [] ∅ ∅.

(** An email that was opened once. *)
Definition opened_email : Email.t :=
  Email.set_open_count 1
    (Email.set_opened_at (Some 150%Z) (Email.set_status Email.opened (sample_email 1))).

Definition opened_db : DB :=
  mkDB sample_leads {[ 1%Z := sample_config ]} ∅ [] {[ 1%Z := opened_email ]}
    [] [] ∅ ∅.

(** A sequence (key 1) of one step, and an enrollment of lead 1 in it. *)
Definition sample_step : EmailSequenceStep.t :=
  EmailSequenceStep.mk 1 sample_template 1 0 true [] true.

Definition sample_enrollment : EmailSequenceEnrollment.t :=
  EmailSequenceEnrollment.mk 1 sample_user 1 (sample_lead 1 "a@x.test")
    0 true None 0 None false.

Definition replied_enrollment : EmailSequenceEnrollment.t :=
  EmailSequenceEnrollment.mk 1 sample_user 1 (sample_lead 1 "a@x.test")
    0 true None 0 None true.

Definition finished_enrollment : EmailSequenceEnrollment.t :=
  EmailSequenceEnrollment.mk 1 sample_user 1 (sample_lead 1 "a@x.test")
    1 true None 1 (Some 50%Z) false.

Definition sequence_db : DB :=
  mkDB sample_leads {[ 1%Z := sample_config ]} ∅ [] ∅ [] []
    {[ 1%Z := sample_step ]} {[ 1%Z := sample_enrollment ]}.

(** The same for an owner without any configuration. *)
Definition unconfigured_db : DB :=
  mkDB sample_leads ∅ ∅ [] ∅ [] []
    {[ 1%Z := sample_step ]} {[ 1%Z := sample_enrollment ]}.


(** ** Invariants used by the further properties *)

(** [open_count] counts at most the first opening: it is 1 when [opened_at]
    is set and 0 otherwise, and a row with an opening time is past the
    statuses [sent] and [delivered]. *)
Definition opened_once (email : Email.t) : Prop :=
  email.(Email.open_count)
  = match email.(Email.opened_at) with Some _ => 1%Z | None => 0%Z end
  ∧ (is_Some email.(Email.opened_at) →
     email.(Email.status) ∉ [Email.sent; Email.delivered]).


(** ** Sample data for the further properties *)

(** A transport that raises for every message. *)
Definition always_raises (pk : Z) (email : Email.t) : send_result :=
  raised "Connection refused".


(** An email that was sent and not yet opened. *)
Definition sent_email : Email.t :=
  Email.set_sent_at (Some 120%Z) (Email.set_status Email.sent (sample_email 1)).

Definition sent_db : DB :=
  mkDB sample_leads {[ 1%Z := sample_config ]} ∅ [] {[ 1%Z := sent_email ]}
    [] [] ∅ ∅.

(** A failed row with one retry counted, and the table that holds it next
    to a queued row. *)
Definition failed_email : Email.t :=
  Email.set_retry_count 1 (Email.set_status Email.failed (sample_email 1)).

Definition failed_db : DB :=
  mkDB sample_leads {[ 1%Z := sample_config ]} {[ 7%Z := sample_campaign ]} []
    (list_to_map [(1, failed_email); (2, sample_email 3)]%Z)
    [] [] ∅ ∅.

(** Campaigns that do not target all leads: by status, by status and
    priority, by nothing at all; and the sample campaign with a batch size
    of zero. *)
Definition statuses_campaign : EmailCampaign.t :=
  EmailCampaign.mk sample_user sample_template sample_config
    EmailCampaign.draft false ["new"] [] [] 2 0 0 None.

Definition two_criteria_campaign : EmailCampaign.t :=
  EmailCampaign.mk sample_user sample_template sample_config
    EmailCampaign.draft false ["new"] ["warm"] [] 2 0 0 None.

Definition no_criteria_campaign : EmailCampaign.t :=
  EmailCampaign.mk sample_user sample_template sample_config
    EmailCampaign.draft false [] [] [] 2 0 0 None.

Definition zero_batch_campaign : EmailCampaign.t :=
  EmailCampaign.mk sample_user sample_template sample_config
    EmailCampaign.sending true [] [] [] 0 0 0 None.

(** A configuration with the user and the name of the sample one. *)
Definition duplicate_config : EmailConfiguration.t :=
  EmailConfiguration.mk 1 "main" "other@crm.test" "Other" "" true true.

(** A configuration of another user. *)
Definition other_config : EmailConfiguration.t :=
  EmailConfiguration.mk 2 "main" "pat@crm.test" "Pat" "" true true.

Definition two_users_db : DB :=
  mkDB sample_leads {[ 1%Z := sample_config; 2%Z := other_config ]} ∅ [] ∅ [] [] ∅ ∅.

(** The sequence of the sample enrollment with other first steps: one for
    qualified leads only, one switched off and followed by an active second
    step, and one whose template has an empty variable tag. *)
Definition status_step : EmailSequenceStep.t :=
  EmailSequenceStep.mk 1 sample_template 1 0 false ["qualified"] true.

Definition status_db : DB :=
  mkDB sample_leads {[ 1%Z := sample_config ]} ∅ [] ∅ [] []
    {[ 1%Z := status_step ]} {[ 1%Z := sample_enrollment ]}.

Definition inactive_step : EmailSequenceStep.t :=
  EmailSequenceStep.mk 1 sample_template 1 0 true [] false.

Definition second_step : EmailSequenceStep.t :=
  EmailSequenceStep.mk 1 sample_template 2 3 true [] true.

Definition gap_db : DB :=
  mkDB sample_leads {[ 1%Z := sample_config ]} ∅ [] ∅ [] []
    {[ 1%Z := inactive_step; 2%Z := second_step ]} {[ 1%Z := sample_enrollment ]}.

Definition broken_step : EmailSequenceStep.t :=
  EmailSequenceStep.mk 1 (EmailTemplate.mk 2 "Hi {{ }}" "<p>Hello</p>" "") 1 0 true [] true.

Definition broken_step_db : DB :=
  mkDB sample_leads {[ 1%Z := sample_config ]} ∅ [] ∅ [] []
    {[ 1%Z := broken_step ]} {[ 1%Z := sample_enrollment ]}.

(** Two steps that both ask for no reply, and the enrollment of a lead that
    replied. *)
Definition replied_db : DB :=
  mkDB sample_leads {[ 1%Z := sample_config ]} ∅ [] ∅ [] []
    {[ 1%Z := sample_step; 2%Z := second_step ]} {[ 1%Z := replied_enrollment ]}.

(** A sequence that starts at once and one that starts after two days. *)
Definition sample_sequence : EmailSequence.t :=
  EmailSequence.mk "Welcome" sample_user true [] [] true 0.

Definition delayed_sequence : EmailSequence.t :=
  EmailSequence.mk "Follow up" sample_user true [] [] true 2.

(** The sample database with the step of sequence 1 and no enrollment. *)
Definition enroll_db : DB :=
  mkDB sample_leads {[ 1%Z := sample_config ]} ∅ [] ∅ [] []
    {[ 1%Z := sample_step ]} ∅.

(** A lead whose name has a character that HTML escapes. *)
Definition escaped_lead : Lead.t :=
  Lead.mk "Ann & Co" None "a@x.test" None (Some "ACME") None "new" "warm" 1.

(** ** Properties of the template engine *)

Lemma tag_at_other (a : ascii) (s : string) :
  Ascii.eqb a "{" = false → Django.tag_at (String a s) = None.
Proof.
  intros Ha. unfold Django.tag_at.
  destruct a as [[] [] [] [] [] [] [] []]; try reflexivity; discriminate Ha.
Qed.

Lemma append_cons (a : ascii) (s t : string) :
  String a s +:+ t = String a (s +:+ t).
Proof. reflexivity. Qed.

Lemma append_nil (t : string) : "" +:+ t = t.
Proof. reflexivity. Qed.

Lemma append_assoc_char (text : string) (a : ascii) (s : string) :
  (text +:+ String a EmptyString) +:+ s = text +:+ String a s.
Proof.
  induction text as [|c text IH]; [done|].
  by rewrite !append_cons, IH.
Qed.

Lemma append_empty_r (s : string) : s +:+ "" = s.
Proof. induction s as [|c s IH]; [done|]. by rewrite append_cons, IH. Qed.

Lemma append_assoc (s t u : string) : (s +:+ t) +:+ u = s +:+ t +:+ u.
Proof. induction s as [|c s IH]; [done|]. by rewrite !append_cons, IH. Qed.

Lemma length_append (s t : string) :
  String.length (s +:+ t) = (String.length s + String.length t)%nat.
Proof. induction s as [|c s IH]; [done|]. rewrite append_cons. simpl. by rewrite IH. Qed.

(** Text without an opening brace is read as literal text. *)
Lemma lex_brace_free (pre text s : string) :
  Text.brace_free pre = true →
  Django.lex 0 text (pre +:+ s) = Django.lex 0 (text +:+ pre) s.
Proof.
  revert text. induction pre as [|a pre IH]; intros text Hpre.
  - by rewrite append_nil, append_empty_r.
  - simpl in Hpre. apply andb_true_iff in Hpre as [Ha Hpre].
    apply negb_true_iff in Ha.
    rewrite append_cons. cbn [Django.lex].
    rewrite (tag_at_other a (pre +:+ s) Ha).
    rewrite IH by done. by rewrite append_assoc_char.
Qed.

Lemma lex_skip (x text s : string) :
  Django.lex (String.length x) text (x +:+ s) = Django.lex 0 text s.
Proof.
  induction x as [|a x IH]; [by rewrite append_nil|].
  rewrite append_cons. cbn [Django.lex String.length]. apply IH.
Qed.

Lemma is_word_not_special (a : ascii) :
  Text.is_word a = true →
  Ascii.eqb a "010" = false ∧ Ascii.eqb a "}" = false ∧ Text.isspace a = false.
Proof. destruct a as [[] [] [] [] [] [] [] []]; vm_compute; intuition discriminate. Qed.

Lemma find_close_word (name post : string) :
  Text.all_word name = true →
  Django.find_close "}" (name +:+ "}}" +:+ post)
  = Some (name, (String.length name + 2)%nat).
Proof.
  induction name as [|a name IH]; intros Hname.
  - reflexivity.
  - simpl in Hname. apply andb_true_iff in Hname as [Ha Hname].
    destruct (is_word_not_special a Ha) as (Hnl & Hbr & _).
    rewrite append_cons. cbn [Django.find_close]. rewrite Hnl, IH by done.
    destruct (name +:+ "}}" +:+ post) eqn:Hrest.
    + destruct name; discriminate Hrest.
    + by rewrite Hbr.
Qed.

Lemma rstrip_word (s : string) :
  Text.all_word s = true → Text.rstrip s = s.
Proof.
  induction s as [|a s IH]; intros Hs; [done|].
  simpl in Hs. apply andb_true_iff in Hs as [Ha Hs].
  destruct (is_word_not_special a Ha) as (_ & _ & Hsp).
  simpl. rewrite IH, Hsp by done. by destruct s.
Qed.

Lemma is_alpha_word (a : ascii) : Text.is_alpha a = true → Text.is_word a = true.
Proof. unfold Text.is_word. by intros ->. Qed.

Lemma plain_name_all_word (name : string) :
  Django.plain_name name = true → Text.all_word name = true.
Proof.
  destruct name as [|a name]; [done|]. simpl.
  intros [Ha Hn]%andb_true_iff. by rewrite (is_alpha_word a Ha), Hn.
Qed.

Lemma strip_plain_name (name : string) :
  Django.plain_name name = true → Text.strip name = name.
Proof.
  intros Hp. pose proof (plain_name_all_word name Hp) as Hw.
  unfold Text.strip. destruct name as [|a name]; [done|].
  simpl in Hw. apply andb_true_iff in Hw as [Ha Hw].
  destruct (is_word_not_special a Ha) as (_ & _ & Hsp).
  cbn [Text.lstrip]. rewrite Hsp. apply rstrip_word. simpl. by rewrite Ha, Hw.
Qed.

Lemma lex_tag (text : string) (a : ascii) (s : string) (tok : Django.token) (n : nat) :
  Django.tag_at (String a s) = Some (tok, n) →
  Django.lex 0 text (String a s)
  = Django.flush text ++ tok :: Django.lex (pred n) "" s.
Proof. intros H. cbn [Django.lex]. by rewrite H. Qed.

Lemma tag_at_placeholder (name post : string) :
  Django.plain_name name = true →
  Django.tag_at (String "{" (String "{" (name +:+ "}}" +:+ post)))
  = Some (Django.TVar name, (2 + (String.length name + 2))%nat).
Proof.
  intros Hname. unfold Django.tag_at.
  rewrite find_close_word by by apply plain_name_all_word.
  cbn [mbind option_bind]. by rewrite strip_plain_name.
Qed.

(** The tokens of a string with a variable tag after brace-free text. *)
Lemma tokenize_placeholder (pre name post : string) :
  Text.brace_free pre = true →
  Django.plain_name name = true →
  Django.tokenize (pre +:+ "{{" +:+ name +:+ "}}" +:+ post)
  = Django.flush pre ++ Django.TVar name :: Django.tokenize post.
Proof.
  intros Hpre Hname. unfold Django.tokenize.
  rewrite lex_brace_free, append_nil by done.
  change ("{{" +:+ name +:+ "}}" +:+ post)
    with (String "{" (String "{" (name +:+ "}}" +:+ post))).
  rewrite (lex_tag _ _ _ _ _ (tag_at_placeholder name post Hname)).
  do 2 f_equal.
  rewrite <-(lex_skip (String "{" (name +:+ "}}")) "" post).
  rewrite (append_cons "{" (name +:+ "}}") post), (append_assoc name "}}" post).
  f_equal. cbn [String.length]. rewrite length_append. simpl. lia.
Qed.

Lemma render_tokens_app (ctx : gmap string string) (ts1 ts2 : list Django.token) :
  Django.render_tokens ctx (ts1 ++ ts2)
  = (s1 <- Django.render_tokens ctx ts1;;
     s2 <- Django.render_tokens ctx ts2;;
     Ok (s1 +:+ s2)).
Proof.
  induction ts1 as [|t ts1 IH]; simpl.
  - by destruct (Django.render_tokens ctx ts2).
  - destruct (Django.render_token ctx t) as [s|e]; simpl; [|done].
    rewrite IH. destruct (Django.render_tokens ctx ts1) as [s1|e]; simpl; [|done].
    destruct (Django.render_tokens ctx ts2) as [s2|e]; simpl; [|done].
    by rewrite append_assoc.
Qed.

Lemma render_flush (ctx : gmap string string) (text : string) :
  Django.render_tokens ctx (Django.flush text) = Ok text.
Proof.
  unfold Django.flush. destruct text; simpl; [done|]. by rewrite append_empty_r.
Qed.

(** Literal text renders as itself. *)
Lemma render_brace_free (ctx : gmap string string) (s : string) :
  Text.brace_free s = true → Django.render ctx s = Ok s.
Proof.
  intros Hs. unfold Django.render, Django.tokenize.
  rewrite <-(append_empty_r s) at 1.
  rewrite lex_brace_free, append_nil by done. apply render_flush.
Qed.

(** A variable tag after brace-free text renders as what its name resolves
    to, and the text after it is rendered on its own. *)
Lemma render_placeholder (ctx : gmap string string) (pre name post : string) :
  Text.brace_free pre = true →
  Django.plain_name name = true →
  Django.render ctx (pre +:+ "{{" +:+ name +:+ "}}" +:+ post)
  = (rest <- Django.render ctx post;;
     Ok (pre +:+ Django.resolve ctx name +:+ rest)).
Proof.
  intros Hpre Hname. unfold Django.render.
  rewrite tokenize_placeholder, render_tokens_app, render_flush by done.
  cbn [bind Django.render_tokens Django.render_token].
  rewrite Hname. destruct name; [done|]. cbn [Text.is_empty bind].
  by destruct (Django.render_tokens ctx (Django.tokenize post)).
Qed.

(** A blank field substitutes as the empty string, values are escaped, and
    an empty variable tag is a syntax error. *)
Example render_blank_field :
  Django.render {[ "first_name" := "Ann"; "company" := "" ]}
    "Hi {{first_name}}, from {{company}}"
  = Ok "Hi Ann, from ".
Proof. vm_compute. reflexivity. Qed.

Example render_escapes_value :
  Django.render {[ "company" := "A&B <Ltd>" ]} "{{ company }}"
  = Ok "A&amp;B &lt;Ltd&gt;".
Proof. vm_compute. reflexivity. Qed.

Example render_empty_tag :
  Django.render ∅ "Hi {{ }}" = Raise TemplateSyntaxError.
Proof. vm_compute. reflexivity. Qed.

(** A string whose tokens all compile renders in every context. *)
Lemma render_tokens_ok (ctx : gmap string string) (ts : list Django.token) :
  forallb Django.token_ok ts = true → ∃ s, Django.render_tokens ctx ts = Ok s.
Proof.
  induction ts as [|t ts IH]; simpl; [by eexists|].
  intros [Ht Hts]%andb_true_iff. destruct (IH Hts) as [s ->].
  destruct t as [x|x|x|x]; simpl in *; try discriminate; try by eexists.
  apply andb_true_iff in Ht as [He Hp]. apply negb_true_iff in He.
  rewrite He, Hp. by eexists.
Qed.

Lemma render_compiles (ctx : gmap string string) (s : string) :
  Django.compiles s = true → ∃ r, Django.render ctx s = Ok r.
Proof. apply render_tokens_ok. Qed.

Lemma template_context_unknown (lead : Lead.t) (user : User.t) (now : Z) (name : string) :
  name ∉ allowed_placeholders → template_context lead user now !! name = None.
Proof.
  intros Hname. unfold template_context.
  repeat (rewrite lookup_insert_ne;
          [|intros <-; apply Hname; unfold allowed_placeholders; repeat constructor]).
  apply lookup_singleton_ne.
  intros <-. apply Hname. unfold allowed_placeholders. repeat constructor.
Qed.

Lemma builtins_unknown (name : string) :
  name ∉ ["True"; "False"; "None"] → Django.builtins !! name = None.
Proof.
  intros Hname. unfold Django.builtins.
  repeat (rewrite lookup_insert_ne; [|intros <-; apply Hname; repeat constructor]).
  apply lookup_singleton_ne. intros <-. apply Hname. repeat constructor.
Qed.

(** C2 (amended).  A variable tag whose name is a plain name outside the
    allowed set (and not one of the context builtins True, False and None)
    is not left in the output: wherever the tag stands among the tokens of a
    string that [render_template] renders, the string renders as the tokens
    before the tag followed by the tokens after it, that is as the string
    without the tag, and no error is raised when the other tokens compile.
    In particular a tag [{{name}}] after brace-free text renders as that
    text followed by what the rest of the string renders as. *)
Theorem unknown_placeholder_renders_empty
    (lead : Lead.t) (user : User.t) (now : Z) (name : string) :
  Django.plain_name name = true →
  name ∉ allowed_placeholders →
  name ∉ ["True"; "False"; "None"] →
  (∀ (s : string) (before after : list Django.token),
     Django.tokenize s = before ++ Django.TVar name :: after →
     Django.render (template_context lead user now) s
     = (text_before <- Django.render_tokens (template_context lead user now) before;;
        text_after <- Django.render_tokens (template_context lead user now) after;;
        Ok (text_before +:+ text_after))
     ∧ Django.render (template_context lead user now) s
       = Django.render_tokens (template_context lead user now) (before ++ after)
     ∧ (forallb Django.token_ok before = true →
        forallb Django.token_ok after = true →
        ∃ text_before text_after,
          Django.render_tokens (template_context lead user now) before = Ok text_before
          ∧ Django.render_tokens (template_context lead user now) after = Ok text_after
          ∧ Django.render (template_context lead user now) s
            = Ok (text_before +:+ text_after)))
  ∧ (∀ pre post : string,
       Text.brace_free pre = true →
       Django.render (template_context lead user now)
         (pre +:+ "{{" +:+ name +:+ "}}" +:+ post)
       = (rest <- Django.render (template_context lead user now) post;;
          Ok (pre +:+ rest))
       ∧ (Django.compiles post = true →
          ∃ rest, Django.render (template_context lead user now)
                    (pre +:+ "{{" +:+ name +:+ "}}" +:+ post)
                  = Ok (pre +:+ rest))).
Proof.
  intros Hplain Hname Hbuiltin.
  assert (Django.resolve (template_context lead user now) name = "") as Hres.
  { unfold Django.resolve.
    by rewrite template_context_unknown, builtins_unknown. }
  split.
  - intros s before after Htokens.
    assert (Django.render (template_context lead user now) s
            = (text_before <- Django.render_tokens (template_context lead user now)
                                before;;
               text_after <- Django.render_tokens (template_context lead user now)
                               after;;
               Ok (text_before +:+ text_after))) as Hrender.
    { unfold Django.render. rewrite Htokens, render_tokens_app.
      cbn [Django.render_tokens Django.render_token]. rewrite Hplain, Hres.
      destruct name; [done|]. cbn [Text.is_empty bind].
      destruct (Django.render_tokens _ before) as [text_before|e]; [|done].
      by destruct (Django.render_tokens _ after) as [text_after|e]. }
    split; [exact Hrender|]. split; [by rewrite Hrender, render_tokens_app|].
    intros Hbefore Hafter. rewrite Hrender.
    destruct (render_tokens_ok (template_context lead user now) before Hbefore)
      as [text_before ->].
    destruct (render_tokens_ok (template_context lead user now) after Hafter)
      as [text_after ->].
    by exists text_before, text_after.
  - intros pre post Hpre.
    rewrite render_placeholder, Hres by done. split; [done|].
    intros Hpost.
    destruct (render_compiles (template_context lead user now) post Hpost) as [r ->].
    by exists r.
Qed.

(** ** Properties of the queries *)

Lemma elem_of_rows {A : Type} (table : gmap Z A) (k : Z) (x : A) :
  (k, x) ∈ rows table ↔ table !! k = Some x.
Proof.
  unfold rows. rewrite merge_sort_Permutation. apply elem_of_map_to_list.
Qed.

Lemma NoDup_rows_keys {A : Type} (table : gmap Z A) : NoDup (rows table).*1.
Proof.
  unfold rows. rewrite merge_sort_Permutation. apply NoDup_fst_map_to_list.
Qed.

Lemma order_by_desc_Permutation {A : Type} (column : A → Z) (l : list (Z * A)) :
  order_by_desc column l ≡ₚ l.
Proof. apply merge_sort_Permutation. Qed.

Lemma NoDup_filter_keys {A : Type} (P : Z * A → Prop) `{!∀ x, Decision (P x)}
    (l : list (Z * A)) :
  NoDup l.*1 → NoDup (filter P l).*1.
Proof.
  induction l as [|x l IH]; [done|]. rewrite fmap_cons, NoDup_cons.
  intros [Hx Hl]. rewrite filter_cons. case_decide; [|by apply IH].
  rewrite fmap_cons, NoDup_cons. split; [|by apply IH].
  intros Hin. apply Hx. apply list_elem_of_fmap in Hin as (y & -> & Hy).
  apply list_elem_of_filter in Hy as [_ Hy]. apply list_elem_of_fmap. by exists y.
Qed.

Lemma target_all_leads_query (pk : Z) (self : EmailCampaign.t) (db : DB) :
  self.(EmailCampaign.target_all_leads) = true →
  get_target_leads pk self db
  = Ok (order_by_desc Lead.created_at
          (filter (λ r : Z * Lead.t, negb (Text.is_empty r.2.(Lead.email)))
             (filter (λ _ : Z * Lead.t, true) (rows db.(db_leads))))).
Proof. intros Hall. unfold get_target_leads. by rewrite Hall. Qed.

(** C4.  With [target_all_leads] set, [get_target_leads] returns the leads
    whose email is not empty (each of them once, and no other row), whatever
    the status, priority and source filters and the explicit leads of the
    campaign are. *)
Theorem get_target_leads_all (pk : Z) (self : EmailCampaign.t) (db : DB) :
  self.(EmailCampaign.target_all_leads) = true →
  ∃ leads,
    get_target_leads pk self db = Ok leads
    ∧ NoDup leads.*1
    ∧ (∀ k lead, (k, lead) ∈ leads
                 ↔ db.(db_leads) !! k = Some lead ∧ lead.(Lead.email) ≠ "")
    ∧ (∀ pk' self',
         self'.(EmailCampaign.target_all_leads) = true →
         get_target_leads pk' self' db = Ok leads).
Proof.
  clear clean_ipv6_address strftime strip_tags transport uuid4.
  intros Hall. eexists. split; [by apply target_all_leads_query|].
  split; [|split].
  - rewrite order_by_desc_Permutation.
    do 2 apply NoDup_filter_keys. apply NoDup_rows_keys.
  - intros k lead. rewrite order_by_desc_Permutation.
    rewrite !list_elem_of_filter, elem_of_rows. cbn.
    destruct (Lead.email lead); cbn; intuition congruence.
  - intros pk' self' Hall'. by apply target_all_leads_query.
Qed.

Lemma foldr_max_ge (l : list Z) (k : Z) : k ∈ l → (k ≤ foldr Z.max 0 l)%Z.
Proof.
  induction l as [|x l IH]; [by intros ?%elem_of_nil|].
  intros [->|Hin]%elem_of_cons; cbn; [lia|]. specialize (IH Hin). lia.
Qed.

(** The key of a new row is not in the table. *)
Lemma next_pk_fresh {A : Type} (table : gmap Z A) : table !! next_pk table = None.
Proof.
  destruct (table !! next_pk table) as [x|] eqn:Hx; [|done].
  apply elem_of_map_to_list in Hx.
  assert (next_pk table ∈ (map_to_list table).*1) as Hin.
  { apply list_elem_of_fmap. by exists (next_pk table, x). }
  apply foldr_max_ge in Hin. unfold next_pk in Hin. lia.
Qed.

(** ** The default configuration *)

Lemma clear_default_user (user : Z) (c : EmailConfiguration.t) :
  (clear_default user c).(EmailConfiguration.user) = c.(EmailConfiguration.user).
Proof. unfold clear_default. by destruct (_ && _). Qed.

Lemma clear_default_is_default (user : Z) (c : EmailConfiguration.t) :
  (clear_default user c).(EmailConfiguration.is_default) = true →
  c.(EmailConfiguration.user) ≠ user ∧ c.(EmailConfiguration.is_default) = true.
Proof.
  unfold clear_default. case_bool_decide as Hu; cbn.
  - destruct (EmailConfiguration.is_default c) eqn:Hd; cbn.
    + discriminate.
    + rewrite Hd. discriminate.
  - done.
Qed.

Lemma save_cleared (user : Z) (table : gmap Z EmailConfiguration.t)
    (k : Z) (c : EmailConfiguration.t) :
  (clear_default user <$> table) !! k = Some c →
  c.(EmailConfiguration.user) = user →
  c.(EmailConfiguration.is_default) = false.
Proof.
  rewrite lookup_fmap. destruct (table !! k) as [c0|]; [|done]. cbn.
  intros [= <-] Hu. rewrite clear_default_user in Hu.
  destruct (EmailConfiguration.is_default (clear_default user c0)) eqn:Hd; [|done].
  by apply clear_default_is_default in Hd as [? _].
Qed.

Lemma clear_default_one_default (user : Z) (db : DB) :
  one_default db →
  one_default (with_email_configs (clear_default user <$> db.(db_email_configs)) db).
Proof.
  intros Hone k1 k2 c1 c2. cbn. rewrite !lookup_fmap.
  destruct (db_email_configs db !! k1) as [d1|] eqn:H1; [|done].
  destruct (db_email_configs db !! k2) as [d2|] eqn:H2; [|done].
  cbn. intros [= <-] [= <-] Hu Hd1 Hd2.
  apply clear_default_is_default in Hd1 as [_ Hd1].
  apply clear_default_is_default in Hd2 as [_ Hd2].
  rewrite !clear_default_user in Hu. by apply (Hone k1 k2 d1 d2).
Qed.

Lemma insert_one_default (key : Z) (self : EmailConfiguration.t) (db : DB) :
  one_default db →
  (self.(EmailConfiguration.is_default) = true →
   ∀ k c, db.(db_email_configs) !! k = Some c →
          c.(EmailConfiguration.user) = self.(EmailConfiguration.user) →
          c.(EmailConfiguration.is_default) = false) →
  one_default (with_email_configs (<[key := self]> db.(db_email_configs)) db).
Proof.
  intros Hone Hclear k1 k2 c1 c2. cbn. rewrite !lookup_insert.
  repeat case_decide; subst; intros H1 H2 Hu Hd1 Hd2; simplify_eq; try done.
  - rewrite (Hclear Hd1 k2 c2) in Hd2; done.
  - rewrite (Hclear Hd2 k1 c1) in Hd1; done.
  - by apply (Hone k1 k2 c1 c2).
Qed.

(** The table after a save, outside the row it writes: the table as it
    was, with the defaults of the user cleared when the instance is a
    default. *)
Lemma save_table (pk : option Z) (self : EmailConfiguration.t) (db : DB) (k : Z) :
  (save pk self db).2 ≠ Ok k →
  (save pk self db).1.(db_email_configs) !! k
  = (if self.(EmailConfiguration.is_default)
     then clear_default self.(EmailConfiguration.user) <$> db.(db_email_configs)
     else db.(db_email_configs)) !! k.
Proof.
  unfold save. intros Hkey.
  destruct (EmailConfiguration.is_default self);
    destruct (name_taken _ self _); cbn in *; try done;
    (rewrite lookup_insert_ne; [done|congruence]).
Qed.

Lemma clear_default_cleared (user : Z) (c : EmailConfiguration.t) :
  c.(EmailConfiguration.user) = user →
  clear_default user c = EmailConfiguration.set_is_default false c.
Proof.
  intros Hu. unfold clear_default. rewrite bool_decide_true by done.
  destruct c as [u n fe fn rt act []]; reflexivity.
Qed.

Lemma clear_default_other (user : Z) (c : EmailConfiguration.t) :
  c.(EmailConfiguration.user) ≠ user → clear_default user c = c.
Proof. intros Hu. unfold clear_default. by rewrite bool_decide_false. Qed.

(** C7.  [EmailConfiguration.save] of an instance with [is_default] set
    leaves no other configuration of the same user default, whether the row
    is then written or refused; a written row is the instance; and every
    save keeps the invariant that a user has at most one default
    configuration.  Every other configuration is kept: one of the same user
    is the row it was with [is_default] cleared when the instance is a
    default, any other is the row it was, and no row appears or goes; so a
    second configuration saved as the default clears the flag on the first
    and changes nothing else in it. *)
Theorem save_one_default (pk : option Z) (self : EmailConfiguration.t) (db : DB) :
  (self.(EmailConfiguration.is_default) = true →
   ∀ k c, (save pk self db).1.(db_email_configs) !! k = Some c →
          c.(EmailConfiguration.user) = self.(EmailConfiguration.user) →
          (save pk self db).2 ≠ Ok k →
          c.(EmailConfiguration.is_default) = false)
  ∧ (∀ k, (save pk self db).2 = Ok k →
          (save pk self db).1.(db_email_configs) !! k = Some self)
  ∧ (one_default db → one_default (save pk self db).1)
  ∧ (∀ k c, db.(db_email_configs) !! k = Some c →
            (save pk self db).2 ≠ Ok k →
            self.(EmailConfiguration.is_default) = true →
            c.(EmailConfiguration.user) = self.(EmailConfiguration.user) →
            (save pk self db).1.(db_email_configs) !! k
            = Some (EmailConfiguration.set_is_default false c))
  ∧ (∀ k c, db.(db_email_configs) !! k = Some c →
            (save pk self db).2 ≠ Ok k →
            self.(EmailConfiguration.is_default) = false
            ∨ c.(EmailConfiguration.user) ≠ self.(EmailConfiguration.user) →
            (save pk self db).1.(db_email_configs) !! k = Some c)
  ∧ (∀ k, db.(db_email_configs) !! k = None →
          (save pk self db).2 ≠ Ok k →
          (save pk self db).1.(db_email_configs) !! k = None).
Proof.
  assert ((self.(EmailConfiguration.is_default) = true →
           ∀ k c, (save pk self db).1.(db_email_configs) !! k = Some c →
                  c.(EmailConfiguration.user) = self.(EmailConfiguration.user) →
                  (save pk self db).2 ≠ Ok k →
                  c.(EmailConfiguration.is_default) = false)
          ∧ (∀ k, (save pk self db).2 = Ok k →
                  (save pk self db).1.(db_email_configs) !! k = Some self)
          ∧ (one_default db → one_default (save pk self db).1)) as (H1 & H2 & H3).
  { unfold save.
    destruct (EmailConfiguration.is_default self) eqn:Hd.
    - set (db1 := with_email_configs _ db).
      assert (∀ k c, db1.(db_email_configs) !! k = Some c →
                     c.(EmailConfiguration.user) = self.(EmailConfiguration.user) →
                     c.(EmailConfiguration.is_default) = false) as Hclear.
      { intros k c. apply save_cleared. }
      destruct (name_taken _ self _); cbn.
      + split; [|split]; [by eauto|done|].
        intros Hone. by apply clear_default_one_default.
      + split; [|split].
        * intros _ k c. rewrite lookup_insert. case_decide; [by intros; subst|].
          intros ???. by eapply Hclear.
        * intros k [= <-]. by rewrite lookup_insert_eq.
        * intros Hone. apply insert_one_default; [|done].
          by apply clear_default_one_default.
    - destruct (name_taken _ self _); cbn.
      + done.
      + split; [done|]. split.
        * intros k [= <-]. by rewrite lookup_insert_eq.
        * intros Hone. apply insert_one_default; [done|]. by rewrite Hd. }
  split; [exact H1|]. split; [exact H2|]. split; [exact H3|].
  split; [|split].
  - intros k c Hk Hkey Hd Hu. rewrite save_table, Hd by done.
    rewrite lookup_fmap, Hk. cbn. f_equal. by apply clear_default_cleared.
  - intros k c Hk Hkey Hcase. rewrite save_table by done.
    destruct (EmailConfiguration.is_default self); [|done].
    destruct Hcase as [|Hu]; [done|].
    rewrite lookup_fmap, Hk. cbn. f_equal. by apply clear_default_other.
  - intros k Hk Hkey. rewrite save_table by done.
    destruct (EmailConfiguration.is_default self); [|done].
    by rewrite lookup_fmap, Hk.
Qed.

(** ** The tracking callback *)

Lemma filter_rows_unique {A : Type} (P : Z * A → Prop) `{!∀ x, Decision (P x)}
    (table : gmap Z A) (pk : Z) (x : A) :
  table !! pk = Some x →
  P (pk, x) →
  (∀ k y, table !! k = Some y → P (k, y) → k = pk) →
  filter P (rows table) = [(pk, x)].
Proof.
  intros Hpk HP Huniq.
  pose proof (NoDup_filter_keys P (rows table) (NoDup_rows_keys table)) as Hnd.
  assert ((pk, x) ∈ filter P (rows table)) as Hin.
  { apply list_elem_of_filter. split; [done|]. by apply elem_of_rows. }
  assert (∀ k y, (k, y) ∈ filter P (rows table) → (k, y) = (pk, x)) as Hall.
  { intros k y [HP' Hky%elem_of_rows]%list_elem_of_filter.
    assert (k = pk) as -> by eauto. congruence. }
  destruct (filter P (rows table)) as [|[k y] l]; [by apply elem_of_nil in Hin|].
  rewrite (Hall k y) by apply list_elem_of_here. f_equal.
  destruct l as [|[k' y'] l]; [done|].
  assert ((k', y') = (pk, x)) as [= -> ->].
  { apply Hall. apply list_elem_of_further, list_elem_of_here. }
  assert ((k, y) = (pk, x)) as [= -> ->] by (apply Hall, list_elem_of_here).
  rewrite !fmap_cons in Hnd. cbn in Hnd.
  apply NoDup_cons in Hnd as [Hnot _]. exfalso. apply Hnot, list_elem_of_here.
Qed.

Lemma save_email_lookup (pk : Z) (email : Email.t) (db : DB) :
  (save_email pk email db).(db_emails) !! pk = Some email.
Proof. cbn. apply lookup_insert_eq. Qed.

(** An [opened] callback on an email that is neither [sent] nor [delivered]
    leaves the Email table as it is. *)
Lemma email_tracking_reopen (now : Z) (remote_addr : option string)
    (user_agent : string) (tracking_id : Z) (db : DB) (pk : Z) (email : Email.t) :
  db.(db_emails) !! pk = Some email →
  email.(Email.tracking_id) = tracking_id →
  (∀ k e, db.(db_emails) !! k = Some e → e.(Email.tracking_id) = tracking_id → k = pk) →
  email.(Email.status) ∉ [Email.sent; Email.delivered] →
  (email_tracking now remote_addr user_agent tracking_id "opened" db).1.(db_emails)
  = db.(db_emails).
Proof.
  intros Hpk Htid Huniq Hst. unfold email_tracking.
  rewrite (filter_rows_unique _ _ pk email) by done.
  cbn. unfold mark_as_opened, within. by rewrite bool_decide_false.
Qed.

(** C9 (amended).  A callback for a known tracking id appends a tracking
    event, writes no Email row but the one of the email, and never moves
    the status of the email to an earlier position of the status list.  An
    [opened] callback on an email that is [sent] or [delivered] sets the
    status [opened], stamps [opened_at] and adds one to [open_count]; on an
    email in any other status, [opened] and [clicked] included, it changes
    nothing in the row, so that a second [opened] callback never counts.  A
    [clicked] callback makes an email that is [sent], [delivered] or
    [opened] [clicked] and counts the click, and changes nothing in a row
    in any other status; a callback with another event changes no row. *)
Theorem email_tracking_effect (now : Z) (remote_addr : option string)
    (user_agent : string) (tracking_id : Z) (event : string) (db : DB)
    (pk : Z) (email : Email.t) :
  db.(db_emails) !! pk = Some email →
  email.(Email.tracking_id) = tracking_id →
  (∀ k e, db.(db_emails) !! k = Some e → e.(Email.tracking_id) = tracking_id → k = pk) →
  ∃ db' email',
    email_tracking now remote_addr user_agent tracking_id event db
    = (db', Ok (if String.eqb event "opened" then pixel_gif else no_content))
    ∧ db'.(db_emails) !! pk = Some email'
    ∧ db'.(db_tracking)
      = db.(db_tracking)
        ++ [EmailTracking.mk pk event now (ip_address_db_value remote_addr) user_agent]
    ∧ (Email.status_index email.(Email.status)
       ≤ Email.status_index email'.(Email.status))%nat
    ∧ (event = "opened" →
       email'.(Email.open_count)
       = if within email.(Email.status) [Email.sent; Email.delivered]
         then (email.(Email.open_count) + 1)%Z
         else email.(Email.open_count))
    ∧ (event = "opened" →
       email.(Email.status) ∈ [Email.opened; Email.clicked] →
       email' = email ∧ db'.(db_emails) = db.(db_emails))
    ∧ db'.(db_emails) = <[pk := email']> db.(db_emails)
    ∧ (event = "opened" →
       email.(Email.status) ∈ [Email.sent; Email.delivered] →
       email' = Email.set_open_count (email.(Email.open_count) + 1)%Z
                  (Email.set_opened_at (Some now)
                     (Email.set_status Email.opened email)))
    ∧ (event = "opened" →
       email.(Email.status) ∉ [Email.sent; Email.delivered] →
       email' = email ∧ db'.(db_emails) = db.(db_emails))
    ∧ (event = "opened" →
       ∀ later remote_addr' user_agent',
         (email_tracking later remote_addr' user_agent' tracking_id "opened" db').1
           .(db_emails)
         = db'.(db_emails))
    ∧ (event = "clicked" →
       email.(Email.status) ∈ [Email.sent; Email.delivered; Email.opened] →
       email'.(Email.status) = Email.clicked
       ∧ email'.(Email.clicked_at) = Some now
       ∧ email'.(Email.click_count) = (email.(Email.click_count) + 1)%Z)
    ∧ (event = "clicked" →
       email.(Email.status) ∉ [Email.sent; Email.delivered; Email.opened] →
       email' = email ∧ db'.(db_emails) = db.(db_emails))
    ∧ (event ≠ "opened" → event ≠ "clicked" →
       email' = email ∧ db'.(db_emails) = db.(db_emails)).
Proof.
  intros Hpk Htid Huniq.
  assert (∀ email' : Email.t,
            email'.(Email.tracking_id) = tracking_id →
            email'.(Email.status) ∉ [Email.sent; Email.delivered] →
            ∀ db' : DB,
              db'.(db_emails) = <[pk := email']> db.(db_emails) →
              ∀ later remote_addr' user_agent',
                (email_tracking later remote_addr' user_agent' tracking_id "opened" db').1
                  .(db_emails)
                = db'.(db_emails)) as Hagain.
  { intros email' Htid' Hst' db' Htable later remote_addr' user_agent'.
    apply (email_tracking_reopen later remote_addr' user_agent' tracking_id db' pk email');
      [rewrite Htable; apply lookup_insert_eq|done| |done].
    intros k e. rewrite Htable. destruct (decide (k = pk)) as [->|Hne]; [done|].
    rewrite lookup_insert_ne by done. apply Huniq. }
  unfold email_tracking.
  rewrite (filter_rows_unique _ _ pk email) by done.
  set (logged := with_tracking _ db).
  destruct (String.eqb event "opened") eqn:Hopened.
  - apply String.eqb_eq in Hopened as ->.
    unfold mark_as_opened, within.
    case_bool_decide as Hst.
    + set (email1 := Email.set_open_count _ _).
      exists (save_email pk email1 logged), email1.
      split; [done|]. split; [apply save_email_lookup|]. split; [done|].
      split.
      { cbn. repeat (apply elem_of_cons in Hst as [->|Hst]; [cbn; lia|]).
        by apply elem_of_nil in Hst. }
      split; [done|]. split.
      { intros _ Hin. exfalso.
        repeat (apply elem_of_cons in Hst as [Hst|Hst];
                [rewrite Hst in Hin;
                 repeat (apply elem_of_cons in Hin as [Hin|Hin]; [discriminate|]);
                 by apply elem_of_nil in Hin|]).
        by apply elem_of_nil in Hst. }
      split; [done|]. split; [done|]. split; [done|]. split.
      { intros _. apply (Hagain email1); [done| |done].
        cbn. intros Hin.
        repeat (apply elem_of_cons in Hin as [Hin|Hin]; [discriminate|]).
        by apply elem_of_nil in Hin. }
      split; [discriminate|]. split; [discriminate|]. done.
    + exists logged, email.
      split; [done|]. split; [done|]. split; [done|]. split; [lia|].
      split; [done|]. split; [done|].
      split; [cbn; by rewrite insert_id|]. split; [done|]. split; [done|].
      split.
      { intros _. apply (Hagain email); [done|done|]. cbn. by rewrite insert_id. }
      split; [discriminate|]. split; [discriminate|]. done.
  - assert (event ≠ "opened") as Hne by (by apply String.eqb_neq).
    destruct (String.eqb event "clicked") eqn:Hclicked.
    + apply String.eqb_eq in Hclicked as ->.
      unfold mark_as_clicked, within.
      case_bool_decide as Hst.
      * eexists (save_email pk _ logged), _.
        split; [done|]. split; [apply save_email_lookup|]. split; [done|].
        split.
        { destruct (Email.opened_at _);
            repeat (apply elem_of_cons in Hst as [->|Hst]; [cbn; lia|]);
            by apply elem_of_nil in Hst. }
        split; [done|]. split; [done|]. split; [done|]. split; [done|].
        split; [done|]. split; [done|]. split.
        { intros _ _. by destruct (Email.opened_at _). }
        split; [done|]. done.
      * exists logged, email.
        split; [done|]. split; [done|]. split; [done|]. split; [lia|].
        split; [done|]. split; [done|].
        split; [cbn; by rewrite insert_id|]. split; [done|]. split; [done|].
        split; [done|]. split; [done|]. split; [done|]. done.
    + assert (event ≠ "clicked") as Hne' by (by apply String.eqb_neq).
      exists logged, email.
      split; [done|]. split; [done|]. split; [done|]. split; [lia|].
      split; [done|]. split; [done|].
      split; [cbn; by rewrite insert_id|]. split; [done|]. split; [done|].
      split; [done|]. split; [done|]. split; [done|]. done.
Qed.

(** ** Sending one email *)

Lemma send_email_saved (now pk : Z) (email : Email.t) (db : DB) :
  (send_email now pk email db).1.1.(db_emails) !! pk
  = Some (send_email now pk email db).1.2.
Proof.
  unfold send_email. destruct (transport pk _) as [n|msg].
  - case_bool_decide; cbn; apply lookup_insert_eq.
  - cbn. apply lookup_insert_eq.
Qed.

Lemma send_email_enrollments (now pk : Z) (email : Email.t) (db : DB) :
  (send_email now pk email db).1.1.(db_enrollments) = db.(db_enrollments).
Proof.
  unfold send_email. destruct (transport pk _) as [n|msg]; [|done].
  by case_bool_decide.
Qed.

Lemma send_email_delivered (now pk : Z) (email : Email.t) (db : DB) (n : Z) :
  transport pk (Email.set_status Email.sending email) = returned n →
  n ≠ 0%Z →
  (send_email now pk email db).1.2
  = Email.set_sent_at (Some now)
      (Email.set_status Email.sent (Email.set_status Email.sending email))
  ∧ (send_email now pk email db).2 = (true, "Email sent successfully").
Proof. intros Ht Hn. unfold send_email. rewrite Ht. by rewrite bool_decide_true. Qed.


(** The branch of a result of zero, which no call of Django's own
    [EmailMessage.send] reaches: [send_email] marks the row failed and
    stores its message, and [retry_count] stays what it was. *)
Lemma send_email_no_result_keeps_retry_count
    (now pk : Z) (email : Email.t) (db : DB) :
  transport pk (Email.set_status Email.sending email) = returned 0 →
  ∃ db' email',
    send_email now pk email db = (db', email', (false, "Failed to send email"))
    ∧ db'.(db_emails) !! pk = Some email'
    ∧ email'.(Email.status) = Email.failed
    ∧ email'.(Email.error_message) = "Failed to send email"
    ∧ email'.(Email.retry_count) = email.(Email.retry_count).
Proof.
  intros Ht. unfold send_email. rewrite Ht. eexists _, _.
  split; [done|]. split; [apply save_email_lookup|done].
Qed.

(** Every email of a batch is attempted and counted once, as sent or as
    failed, whatever happens to the others. *)
Lemma send_emails_counts (now : Z) (queued_emails : list (Z * Email.t))
    (sent_count failed_count : Z) (db : DB) :
  ((send_emails now queued_emails sent_count failed_count db).1.2
   + (send_emails now queued_emails sent_count failed_count db).2
   = sent_count + failed_count + Z.of_nat (length queued_emails))%Z.
Proof.
  revert sent_count failed_count db.
  induction queued_emails as [|[pk email] l IH]; intros s f db; cbn; [lia|].
  destruct (send_email now pk email db) as [[db' email'] [[] message]]; cbn;
    rewrite IH; lia.
Qed.

(** ** The sequence engine *)

Lemma find_step_Some (sequence n : Z) (db : DB) (k : Z) (st : EmailSequenceStep.t) :
  find_step sequence n db = Some (k, st) →
  db.(db_steps) !! k = Some st
  ∧ st.(EmailSequenceStep.sequence) = sequence
  ∧ st.(EmailSequenceStep.step_number) = n
  ∧ st.(EmailSequenceStep.is_active) = true.
Proof.
  unfold find_step. intros Hhead.
  assert ((k, st) ∈ filter
            (λ r : Z * EmailSequenceStep.t,
               r.2.(EmailSequenceStep.sequence) = sequence
               ∧ r.2.(EmailSequenceStep.step_number) = n
               ∧ r.2.(EmailSequenceStep.is_active))
            (rows db.(db_steps))) as Hin.
  { destruct (filter _ _) as [|x l]; [done|]. cbn in Hhead.
    injection Hhead as ->. apply list_elem_of_here. }
  apply list_elem_of_filter in Hin as [(? & ? & Ha) Hin%elem_of_rows].
  cbn in *. by apply Is_true_true in Ha.
Qed.

Lemma find_step_None (sequence n : Z) (db : DB) :
  (∀ k st, db.(db_steps) !! k = Some st →
           st.(EmailSequenceStep.sequence) = sequence →
           st.(EmailSequenceStep.step_number) ≠ n) →
  find_step sequence n db = None.
Proof.
  intros Hnone. destruct (find_step sequence n db) as [[k st]|] eqn:Hfind; [|done].
  apply find_step_Some in Hfind as (Hk & Hs & Hn & _). by destruct (Hnone k st).
Qed.

Lemma remaining_steps_next (sequence n : Z) (db : DB) (k : Z) (st : EmailSequenceStep.t) :
  find_step sequence (n + 1) db = Some (k, st) →
  size (remaining_steps sequence (n + 1) db) < size (remaining_steps sequence n db).
Proof.
  intros (Hk & Hs & Hn & _)%find_step_Some.
  apply map_subset_size, map_subset_alt. split.
  - apply map_filter_subseteq_ext. intros i x _ [? ?]. cbn in *. split; [done|lia].
  - exists k. split.
    + apply map_lookup_filter_None. right. intros x Hx [_ Hlt]. cbn in *.
      simplify_eq. lia.
    + exists st. apply map_lookup_filter_Some_2; [done|]. cbn. split; [done|lia].
Qed.

Lemma schedule_steps_mono (fuel : nat) (now pk : Z)
    (enrollment : EmailSequenceEnrollment.t) (db : DB)
    (r : DB * EmailSequenceEnrollment.t) :
  schedule_steps fuel now pk enrollment db = Some r →
  schedule_steps (S fuel) now pk enrollment db = Some r.
Proof.
  revert enrollment db. induction fuel as [|fuel IH]; intros enrollment db; [done|].
  intros Hrun. cbn [schedule_steps] in Hrun |- *.
  destruct (find_step _ _ db) as [[k st]|]; [|done].
  destruct (_ && _); [by apply IH|].
  destruct (_ && _); [by apply IH|done].
Qed.

Lemma schedule_steps_total (fuel : nat) (now pk : Z)
    (enrollment : EmailSequenceEnrollment.t) (db : DB) :
  size (remaining_steps enrollment.(EmailSequenceEnrollment.sequence)
          enrollment.(EmailSequenceEnrollment.current_step) db) < fuel →
  is_Some (schedule_steps fuel now pk enrollment db).
Proof.
  revert enrollment db. induction fuel as [|fuel IH]; intros enrollment db Hfuel; [lia|].
  cbn [schedule_steps].
  destruct (find_step _ _ db) as [[k st]|] eqn:Hfind; [|done].
  pose proof (remaining_steps_next _ _ _ _ _ Hfind) as Hless.
  pose proof (find_step_Some _ _ _ _ _ Hfind) as (_ & _ & Hn & _).
  assert (is_Some
            (schedule_steps fuel now pk
               (EmailSequenceEnrollment.set_current_step
                  st.(EmailSequenceStep.step_number) enrollment)
               (save_enrollment pk
                  (EmailSequenceEnrollment.set_current_step
                     st.(EmailSequenceStep.step_number) enrollment) db))) as Hskip.
  { apply IH. cbn. rewrite Hn.
    change (remaining_steps ?s ?n (save_enrollment _ _ db))
      with (remaining_steps s n db). lia. }
  destruct (_ && _); [done|]. destruct (_ && _); done.
Qed.

(** [_schedule_next_step] returns: the skips end at the latest when the
    steps of the sequence are used up. *)
Lemma schedule_next_step_total (now pk : Z)
    (enrollment : EmailSequenceEnrollment.t) (db : DB) :
  is_Some (_schedule_next_step now pk enrollment db).
Proof.
  apply schedule_steps_total. unfold remaining_steps.
  pose proof (map_size_filter
                (λ r : Z * EmailSequenceStep.t,
                   r.2.(EmailSequenceStep.sequence)
                   = enrollment.(EmailSequenceEnrollment.sequence)
                   ∧ (enrollment.(EmailSequenceEnrollment.current_step)
                      < r.2.(EmailSequenceStep.step_number))%Z)
                db.(db_steps)).
  lia.
Qed.

Lemma schedule_next_step_complete (now pk : Z)
    (enrollment : EmailSequenceEnrollment.t) (db : DB) :
  find_step enrollment.(EmailSequenceEnrollment.sequence)
    (enrollment.(EmailSequenceEnrollment.current_step) + 1)%Z db = None →
  _schedule_next_step now pk enrollment db
  = Some (save_enrollment pk
            (EmailSequenceEnrollment.set_completed_at (Some now)
               (EmailSequenceEnrollment.set_is_active false enrollment)) db,
          EmailSequenceEnrollment.set_completed_at (Some now)
            (EmailSequenceEnrollment.set_is_active false enrollment)).
Proof. intros Hfind. unfold _schedule_next_step. cbn [schedule_steps]. by rewrite Hfind. Qed.

(** C6 (amended).  On an enrollment at or past the last step of its
    sequence, [_schedule_next_step] clears [is_active] and stamps
    [completed_at] with the time of the call.  A second call does the same
    again: every other column stays, and [completed_at] takes the time of
    the second call, so the second call changes nothing only when the clock
    reads the same. *)
Theorem schedule_past_last_step (now now' pk : Z)
    (enrollment : EmailSequenceEnrollment.t) (db : DB) :
  (∀ k st, db.(db_steps) !! k = Some st →
           st.(EmailSequenceStep.sequence) = enrollment.(EmailSequenceEnrollment.sequence) →
           (st.(EmailSequenceStep.step_number)
            ≤ enrollment.(EmailSequenceEnrollment.current_step))%Z) →
  ∃ completed db',
    _schedule_next_step now pk enrollment db = Some (db', completed)
    ∧ completed
      = EmailSequenceEnrollment.set_completed_at (Some now)
          (EmailSequenceEnrollment.set_is_active false enrollment)
    ∧ completed.(EmailSequenceEnrollment.is_active) = false
    ∧ completed.(EmailSequenceEnrollment.completed_at) = Some now
    ∧ db'.(db_enrollments) !! pk = Some completed
    ∧ _schedule_next_step now' pk completed db'
      = Some (save_enrollment pk
                (EmailSequenceEnrollment.set_completed_at (Some now') completed) db',
              EmailSequenceEnrollment.set_completed_at (Some now') completed)
    ∧ (EmailSequenceEnrollment.set_completed_at (Some now') completed = completed
       ↔ now' = now).
Proof.
  intros Hlast.
  assert (∀ e d, e.(EmailSequenceEnrollment.sequence)
                 = enrollment.(EmailSequenceEnrollment.sequence) →
                 e.(EmailSequenceEnrollment.current_step)
                 = enrollment.(EmailSequenceEnrollment.current_step) →
                 d.(db_steps) = db.(db_steps) →
                 find_step e.(EmailSequenceEnrollment.sequence)
                   (e.(EmailSequenceEnrollment.current_step) + 1)%Z d = None)
    as Hnone.
  { intros e d Hs Hc Hd. apply find_step_None. intros k st Hk Hseq.
    rewrite Hd in Hk. rewrite Hs in Hseq. specialize (Hlast k st Hk Hseq). lia. }
  eexists _, _. split; [by apply schedule_next_step_complete, Hnone|].
  split; [done|]. split; [done|]. split; [done|].
  split; [apply lookup_insert_eq|]. split.
  - rewrite schedule_next_step_complete by by apply Hnone. done.
  - split; [|by intros ->].
    intros Heq. apply (f_equal EmailSequenceEnrollment.completed_at) in Heq.
    cbn in Heq. congruence.
Qed.

Lemma schedule_next_step_skip (now pk : Z)
    (enrollment : EmailSequenceEnrollment.t) (db : DB)
    (k : Z) (next_step : EmailSequenceStep.t) :
  find_step enrollment.(EmailSequenceEnrollment.sequence)
    (enrollment.(EmailSequenceEnrollment.current_step) + 1)%Z db
  = Some (k, next_step) →
  next_step.(EmailSequenceStep.send_only_if_not_replied)
  && enrollment.(EmailSequenceEnrollment.has_replied) = true
  ∨ truthy next_step.(EmailSequenceStep.send_only_if_status)
    && negb (within enrollment.(EmailSequenceEnrollment.lead).(Lead.status)
               next_step.(EmailSequenceStep.send_only_if_status)) = true →
  _schedule_next_step now pk enrollment db
  = _schedule_next_step now pk
      (EmailSequenceEnrollment.set_current_step
         next_step.(EmailSequenceStep.step_number) enrollment)
      (save_enrollment pk
         (EmailSequenceEnrollment.set_current_step
            next_step.(EmailSequenceStep.step_number) enrollment) db).
Proof.
  intros Hfind Hskip.
  set (skipped := EmailSequenceEnrollment.set_current_step _ enrollment).
  assert (schedule_steps (S (size db.(db_steps))) now pk enrollment db
          = schedule_steps (size db.(db_steps)) now pk skipped
              (save_enrollment pk skipped db)) as Hstep.
  { cbn [schedule_steps]. rewrite Hfind. fold skipped.
    destruct Hskip as [-> | Hgate]; [done|]. rewrite Hgate.
    by destruct (EmailSequenceStep.send_only_if_not_replied next_step
                 && EmailSequenceEnrollment.has_replied enrollment). }
  unfold _schedule_next_step at 1. rewrite Hstep.
  destruct (schedule_steps_total (size db.(db_steps)) now pk skipped
              (save_enrollment pk skipped db)) as [r Hr].
  { pose proof (remaining_steps_next _ _ _ _ _ Hfind) as Hless.
    pose proof (find_step_Some _ _ _ _ _ Hfind) as (_ & _ & Hn & _).
    pose proof (map_size_filter
                  (λ r : Z * EmailSequenceStep.t,
                     r.2.(EmailSequenceStep.sequence)
                     = enrollment.(EmailSequenceEnrollment.sequence)
                     ∧ (enrollment.(EmailSequenceEnrollment.current_step)
                        < r.2.(EmailSequenceStep.step_number))%Z)
                  db.(db_steps)) as Hle.
    subst skipped. cbn. rewrite Hn.
    change (remaining_steps ?s ?n (save_enrollment _ _ db))
      with (remaining_steps s n db).
    unfold remaining_steps in *. lia. }
  rewrite Hr. symmetry. unfold _schedule_next_step.
  by apply schedule_steps_mono.
Qed.

Lemma schedule_next_step_send (now pk : Z)
    (enrollment : EmailSequenceEnrollment.t) (db : DB)
    (k : Z) (next_step : EmailSequenceStep.t) :
  find_step enrollment.(EmailSequenceEnrollment.sequence)
    (enrollment.(EmailSequenceEnrollment.current_step) + 1)%Z db
  = Some (k, next_step) →
  next_step.(EmailSequenceStep.send_only_if_not_replied)
  && enrollment.(EmailSequenceEnrollment.has_replied) = false →
  truthy next_step.(EmailSequenceStep.send_only_if_status)
  && negb (within enrollment.(EmailSequenceEnrollment.lead).(Lead.status)
             next_step.(EmailSequenceStep.send_only_if_status)) = false →
  _schedule_next_step now pk enrollment db
  = Some (send_step now pk enrollment next_step db).
Proof.
  intros Hfind Hreplied Hgate. unfold _schedule_next_step.
  cbn [schedule_steps]. by rewrite Hfind, Hreplied, Hgate.
Qed.

(** C5 (amended).  A step with [send_only_if_not_replied] met on an
    enrollment that has replied is skipped: the call goes on as a call on
    the enrollment moved to that step's number, saved, with the Email table
    as it was, and it returns.  When the enrollment has not replied and the
    status gate lets the step pass, the email of the step is created and
    sent provided that the owner of the sequence has a default or an active
    configuration and the template renders: a new row is inserted for it,
    the enrollment moves to the step's number with one more email counted,
    and [send_email] is run on the row, which is [sent] when the transport
    delivers.  Without a configuration, and likewise when the renderer
    raises, the call returns with the database and the enrollment as they
    were: no email is created and [current_step] does not move; so a call
    on such a step changes the Email table only if there is a configuration
    and the template renders. *)
Theorem schedule_send_only_if_not_replied (now pk : Z)
    (enrollment : EmailSequenceEnrollment.t) (db : DB)
    (k : Z) (next_step : EmailSequenceStep.t) :
  find_step enrollment.(EmailSequenceEnrollment.sequence)
    (enrollment.(EmailSequenceEnrollment.current_step) + 1)%Z db
  = Some (k, next_step) →
  next_step.(EmailSequenceStep.send_only_if_not_replied) = true →
  (enrollment.(EmailSequenceEnrollment.has_replied) = true →
   let skipped :=
     EmailSequenceEnrollment.set_current_step
       next_step.(EmailSequenceStep.step_number) enrollment in
   _schedule_next_step now pk enrollment db
   = _schedule_next_step now pk skipped (save_enrollment pk skipped db)
   ∧ is_Some (_schedule_next_step now pk enrollment db)
   ∧ (save_enrollment pk skipped db).(db_emails) = db.(db_emails)
   ∧ skipped.(EmailSequenceEnrollment.current_step)
     = (enrollment.(EmailSequenceEnrollment.current_step) + 1)%Z)
  ∧ (enrollment.(EmailSequenceEnrollment.has_replied) = false →
     truthy next_step.(EmailSequenceStep.send_only_if_status)
     && negb (within enrollment.(EmailSequenceEnrollment.lead).(Lead.status)
                next_step.(EmailSequenceStep.send_only_if_status)) = false →
     ∀ ck email_config rendered_content,
       find_email_config
         enrollment.(EmailSequenceEnrollment.sequence_user).(User.id) db
       = Some (ck, email_config) →
       render_template next_step.(EmailSequenceStep.template)
         enrollment.(EmailSequenceEnrollment.lead)
         enrollment.(EmailSequenceEnrollment.sequence_user) now
       = Ok rendered_content →
       let key := next_pk db.(db_emails) in
       let email :=
         step_email now key enrollment next_step email_config rendered_content in
       ∃ db' advanced sent_email,
         _schedule_next_step now pk enrollment db = Some (db', advanced)
         ∧ db.(db_emails) !! key = None
         ∧ db'.(db_emails) !! key = Some sent_email
         ∧ sent_email = (send_email now key email
                           (save_enrollment pk advanced (save_email key email db))).1.2
         ∧ (∀ n, transport key (Email.set_status Email.sending email) = returned n →
                 n ≠ 0%Z → sent_email.(Email.status) = Email.sent)
         ∧ advanced.(EmailSequenceEnrollment.current_step)
           = (enrollment.(EmailSequenceEnrollment.current_step) + 1)%Z
         ∧ advanced.(EmailSequenceEnrollment.emails_sent)
           = (enrollment.(EmailSequenceEnrollment.emails_sent) + 1)%Z
         ∧ advanced.(EmailSequenceEnrollment.last_email_sent) = Some now
         ∧ db'.(db_enrollments) !! pk = Some advanced)
  ∧ (enrollment.(EmailSequenceEnrollment.has_replied) = false →
     truthy next_step.(EmailSequenceStep.send_only_if_status)
     && negb (within enrollment.(EmailSequenceEnrollment.lead).(Lead.status)
                next_step.(EmailSequenceStep.send_only_if_status)) = false →
     (find_email_config
        enrollment.(EmailSequenceEnrollment.sequence_user).(User.id) db = None →
      _schedule_next_step now pk enrollment db = Some (db, enrollment))
     ∧ (∀ e,
          render_template next_step.(EmailSequenceStep.template)
            enrollment.(EmailSequenceEnrollment.lead)
            enrollment.(EmailSequenceEnrollment.sequence_user) now
          = Raise e →
          _schedule_next_step now pk enrollment db = Some (db, enrollment))
     ∧ (∀ db' enrollment',
          _schedule_next_step now pk enrollment db = Some (db', enrollment') →
          db'.(db_emails) ≠ db.(db_emails)
          ∨ enrollment'.(EmailSequenceEnrollment.current_step)
            ≠ enrollment.(EmailSequenceEnrollment.current_step) →
          is_Some (find_email_config
                     enrollment.(EmailSequenceEnrollment.sequence_user).(User.id) db)
          ∧ ∃ rendered_content,
              render_template next_step.(EmailSequenceStep.template)
                enrollment.(EmailSequenceEnrollment.lead)
                enrollment.(EmailSequenceEnrollment.sequence_user) now
              = Ok rendered_content)).
Proof.
  intros Hfind Honly.
  pose proof (find_step_Some _ _ _ _ _ Hfind) as (_ & _ & Hn & _).
  split; [|split].
  - intros Hreplied skipped. split; [|split; [|split]].
    + apply (schedule_next_step_skip now pk enrollment db k next_step Hfind).
      left. by rewrite Honly, Hreplied.
    + apply schedule_next_step_total.
    + done.
    + done.
  - intros Hreplied Hgate ck email_config rendered_content Hconfig Hrender key email.
    rewrite (schedule_next_step_send now pk enrollment db k next_step Hfind)
      by (by rewrite ?Honly, ?Hreplied).
    unfold send_step. rewrite Hconfig, Hrender. fold key. fold email.
    eexists _, _, _. split; [done|].
    split; [apply next_pk_fresh|]. split; [apply send_email_saved|]. split; [done|].
    split.
    { intros n Ht Hne. by rewrite (proj1 (send_email_delivered _ _ _ _ n Ht Hne)). }
    split; [by rewrite <-Hn|]. split; [done|]. split; [done|].
    rewrite send_email_enrollments. apply lookup_insert_eq.
  - intros Hreplied Hgate.
    rewrite (schedule_next_step_send now pk enrollment db k next_step Hfind)
      by (by rewrite ?Honly, ?Hreplied).
    unfold send_step. split; [|split].
    + by intros ->.
    + intros e Hrender. rewrite Hrender.
      by destruct (find_email_config _ db) as [[? ?]|].
    + intros db' enrollment'.
      destruct (find_email_config _ db) as [[ck email_config]|].
      * destruct (render_template _ _ _ now) as [rendered|e].
        -- intros _ _. split; [by eexists|by eexists].
        -- intros [= <- <-] [Hbad|Hbad]; by destruct Hbad.
      * intros [= <- <-] [Hbad|Hbad]; by destruct Hbad.
Qed.

(** ** Creating the emails of a campaign *)

Lemma get_rendered_content_total (template : EmailTemplate.t)
    (context : gmap string string) :
  template_compiles template = true →
  ∃ r, get_rendered_content template context = Ok r.
Proof.
  unfold template_compiles, get_rendered_content.
  intros [[Hs Hh]%andb_true_iff Ht]%andb_true_iff.
  destruct (render_compiles context _ Hs) as [rs ->].
  destruct (render_compiles context _ Hh) as [rh ->]. cbn.
  destruct (Text.is_empty (EmailTemplate.body_text template)); cbn; [by eexists|].
  destruct (render_compiles context _ Ht) as [rt ->]. by eexists.
Qed.

Lemma exists_true {A : Type} (table : gmap Z A) :
  exists_ table = true ↔ size table ≠ 0.
Proof.
  unfold exists_. rewrite <-length_map_to_list.
  by destruct (map_to_list table).
Qed.

Lemma exists_false {A : Type} (table : gmap Z A) :
  exists_ table = false ↔ size table = 0.
Proof.
  unfold exists_. rewrite <-length_map_to_list.
  by destruct (map_to_list table).
Qed.

(** The rows of a (campaign, lead) pair after a row is inserted at a new
    key. *)
Lemma campaign_lead_emails_insert (campaign lead : Z) (key : Z) (email : Email.t)
    (db : DB) :
  db.(db_emails) !! key = None →
  size (campaign_lead_emails campaign lead (save_email key email db))
  = if decide (email.(Email.campaign) = Some campaign ∧ email.(Email.lead) = lead)
    then S (size (campaign_lead_emails campaign lead db))
    else size (campaign_lead_emails campaign lead db).
Proof.
  intros Hfresh. unfold campaign_lead_emails. cbn [save_email with_emails db_emails].
  case_decide as Hp.
  - rewrite map_filter_insert_True by done.
    apply map_size_insert_None, map_lookup_filter_None. by left.
  - rewrite map_filter_insert_not'; [done|done|]. intros y. by rewrite Hfresh.
Qed.

(** What the loop leaves for each (campaign, lead) pair: a target without a
    row gets one, nothing else changes. *)
Lemma create_emails_rows (now pk : Z) (campaign : EmailCampaign.t)
    (leads : list (Z * Lead.t)) (emails_created : Z) (db db' : DB) (n : Z) :
  create_emails now pk campaign leads emails_created db = (db', Ok n) →
  ∀ lead_id,
    size (campaign_lead_emails pk lead_id db')
    = if decide (lead_id ∈ leads.*1)
      then max 1 (size (campaign_lead_emails pk lead_id db))
      else size (campaign_lead_emails pk lead_id db).
Proof.
  clear transport.
  revert emails_created db.
  induction leads as [|[lid lead] leads IH]; intros created db Hrun lead_id.
  - cbn in Hrun. injection Hrun as <- _. by rewrite decide_False by apply not_elem_of_nil.
  - cbn [create_emails] in Hrun.
    destruct (exists_ (campaign_lead_emails pk lid db)) eqn:Hex.
    + apply exists_true in Hex. rewrite (IH _ _ Hrun lead_id).
      rewrite fmap_cons. cbn [fst].
      destruct (decide (lead_id = lid)) as [->|Hne].
      * rewrite (decide_True (P := lid ∈ lid :: _)) by apply list_elem_of_here.
        case_decide; lia.
      * rewrite (decide_ext (lead_id ∈ lid :: leads.*1) (lead_id ∈ leads.*1)); [done|].
        rewrite elem_of_cons. intuition.
    + apply exists_false in Hex.
      destruct (render_template _ lead _ now) as [rendered|e]; [|done].
      rewrite (IH _ _ Hrun lead_id).
      rewrite campaign_lead_emails_insert by apply next_pk_fresh.
      rewrite fmap_cons. cbn [fst Email.campaign Email.lead campaign_email].
      destruct (decide (lead_id = lid)) as [->|Hne].
      * rewrite (decide_True (P := lid ∈ lid :: _)) by apply list_elem_of_here.
        rewrite (decide_True (P := _ ∧ _)) by done. case_decide; lia.
      * rewrite (decide_False (P := _ ∧ _)) by (intros [_ ?]; congruence).
        rewrite (decide_ext (lead_id ∈ lid :: leads.*1) (lead_id ∈ leads.*1)); [done|].
        rewrite elem_of_cons. intuition.
Qed.

(** The loop writes to the Email table only. *)
Lemma create_emails_frame (now pk : Z) (campaign : EmailCampaign.t)
    (leads : list (Z * Lead.t)) (emails_created : Z) (db : DB) :
  let db' := (create_emails now pk campaign leads emails_created db).1 in
  db'.(db_leads) = db.(db_leads)
  ∧ db'.(db_specific_leads) = db.(db_specific_leads)
  ∧ db'.(db_campaigns) = db.(db_campaigns).
Proof.
  revert emails_created db. induction leads as [|[lid lead] leads IH]; intros created db.
  - done.
  - cbn [create_emails]. destruct (exists_ _); [apply IH|].
    destruct (render_template _ lead _ now) as [rendered|e]; [|done].
    cbn zeta. destruct (IH (created + 1)%Z
                          (save_email (next_pk db.(db_emails))
                             (campaign_email now (next_pk db.(db_emails)) pk campaign
                                lid lead rendered) db)) as (-> & -> & ->).
    done.
Qed.

(** When every target has a row, the loop creates nothing. *)
Lemma create_emails_nothing (now pk : Z) (campaign : EmailCampaign.t)
    (leads : list (Z * Lead.t)) (emails_created : Z) (db : DB) :
  (∀ lead_id, lead_id ∈ leads.*1 → size (campaign_lead_emails pk lead_id db) ≠ 0) →
  create_emails now pk campaign leads emails_created db = (db, Ok emails_created).
Proof.
  induction leads as [|[lid lead] leads IH]; intros Hall; [done|].
  cbn [create_emails].
  rewrite (proj2 (exists_true _)) by (apply Hall, list_elem_of_here).
  apply IH. intros lead_id Hin. apply Hall. rewrite fmap_cons.
  by apply list_elem_of_further.
Qed.

(** With a template that compiles, the loop ends without an exception. *)
Lemma create_emails_total (now pk : Z) (campaign : EmailCampaign.t)
    (leads : list (Z * Lead.t)) (emails_created : Z) (db : DB) :
  template_compiles campaign.(EmailCampaign.template) = true →
  ∃ db' n, create_emails now pk campaign leads emails_created db = (db', Ok n).
Proof.
  intros Hok. revert emails_created db.
  induction leads as [|[lid lead] leads IH]; intros created db; [by eexists _, _|].
  cbn [create_emails]. destruct (exists_ _); [apply IH|].
  unfold render_template.
  destruct (get_rendered_content_total campaign.(EmailCampaign.template)
              (template_context lead campaign.(EmailCampaign.user) now) Hok) as [r ->].
  apply IH.
Qed.

Lemma get_target_leads_frame (pk : Z) (campaign campaign' : EmailCampaign.t)
    (db db' : DB) :
  db'.(db_leads) = db.(db_leads) →
  db'.(db_specific_leads) = db.(db_specific_leads) →
  campaign'.(EmailCampaign.target_all_leads) = campaign.(EmailCampaign.target_all_leads) →
  campaign'.(EmailCampaign.target_statuses) = campaign.(EmailCampaign.target_statuses) →
  campaign'.(EmailCampaign.target_priorities) = campaign.(EmailCampaign.target_priorities) →
  campaign'.(EmailCampaign.target_sources) = campaign.(EmailCampaign.target_sources) →
  get_target_leads pk campaign' db' = get_target_leads pk campaign db.
Proof.
  intros Hl Hs H1 H2 H3 H4. unfold get_target_leads, specific_leads.
  by rewrite Hl, Hs, H1, H2, H3, H4.
Qed.

Lemma classic_all_rows (leads : list (Z * Lead.t)) (pk : Z) (db : DB) :
  (∀ lead_id, lead_id ∈ leads.*1 → size (campaign_lead_emails pk lead_id db) ≠ 0)
  ∨ ¬ (∀ lead_id, lead_id ∈ leads.*1 → size (campaign_lead_emails pk lead_id db) ≠ 0).
Proof.
  destruct (decide (Forall (λ lead_id, size (campaign_lead_emails pk lead_id db) ≠ 0)
                      leads.*1)) as [H|H]; rewrite Forall_forall in H; [by left|by right].
Qed.

(** When a target has no row yet and the renderer raises, the loop raises
    before it has created anything. *)
Lemma create_emails_raise (now pk : Z) (campaign : EmailCampaign.t)
    (leads : list (Z * Lead.t)) (emails_created : Z) (db : DB) (e : exn) :
  ¬ (∀ lead_id, lead_id ∈ leads.*1 → size (campaign_lead_emails pk lead_id db) ≠ 0) →
  (∀ lead, render_template campaign.(EmailCampaign.template) lead
             campaign.(EmailCampaign.user) now = Raise e) →
  create_emails now pk campaign leads emails_created db = (db, Raise e).
Proof.
  intros Hsome Hraise. induction leads as [|[lid lead] leads IH].
  - exfalso. apply Hsome. intros lead_id Hin. by apply elem_of_nil in Hin.
  - cbn [create_emails]. destruct (exists_ _) eqn:Hex; [|by rewrite Hraise].
    apply exists_true in Hex. apply IH. intros Hall. apply Hsome.
    intros lead_id. rewrite fmap_cons. intros [->|Hin]%elem_of_cons; [done|].
    by apply Hall.
Qed.

(** C10 (amended).  A call of [create_campaign_emails] that returns leaves
    [emails_sent] and [emails_failed] at zero, on the instance and in the
    saved row, whatever they were: also when every target already has its
    row, in which case the call returns with a count of zero and an
    unchanged Email table, so that what earlier batches had counted is gone.
    The call returns whenever the targets resolve and the template compiles
    or no row is left to create.  A call that raises does not reset
    anything: it leaves the Campaign table as it was; and a call raises
    when the targets cannot be resolved, and when a target has no row yet
    and the renderer raises, before anything is written. *)
Theorem create_campaign_emails_resets_counters (now pk : Z)
    (campaign : EmailCampaign.t) (db : DB) :
  (∀ db' campaign' n,
     create_campaign_emails now pk campaign db = (db', Ok (campaign', n)) →
     campaign' = EmailCampaign.set_emails_failed 0 (EmailCampaign.set_emails_sent 0 campaign)
     ∧ campaign'.(EmailCampaign.emails_sent) = 0%Z
     ∧ campaign'.(EmailCampaign.emails_failed) = 0%Z
     ∧ db'.(db_campaigns) !! pk = Some campaign')
  ∧ (∀ leads,
       get_target_leads pk campaign db = Ok leads →
       template_compiles campaign.(EmailCampaign.template) = true
       ∨ (∀ lead_id, lead_id ∈ leads.*1 →
                     size (campaign_lead_emails pk lead_id db) ≠ 0) →
       ∃ db' campaign' n,
         create_campaign_emails now pk campaign db = (db', Ok (campaign', n))
         ∧ campaign' = EmailCampaign.set_emails_failed 0
                         (EmailCampaign.set_emails_sent 0 campaign)
         ∧ campaign'.(EmailCampaign.emails_sent) = 0%Z
         ∧ campaign'.(EmailCampaign.emails_failed) = 0%Z
         ∧ db'.(db_campaigns) !! pk = Some campaign'
         ∧ ((∀ lead_id, lead_id ∈ leads.*1 →
                        size (campaign_lead_emails pk lead_id db) ≠ 0) →
            n = 0%Z ∧ db'.(db_emails) = db.(db_emails)))
  ∧ (∀ db' e,
       create_campaign_emails now pk campaign db = (db', Raise e) →
       e ≠ OutsideFragment →
       db'.(db_campaigns) = db.(db_campaigns))
  ∧ (∀ e,
       get_target_leads pk campaign db = Raise e →
       create_campaign_emails now pk campaign db = (db, Raise e))
  ∧ (∀ leads e,
       get_target_leads pk campaign db = Ok leads →
       ¬ (∀ lead_id, lead_id ∈ leads.*1 →
                     size (campaign_lead_emails pk lead_id db) ≠ 0) →
       (∀ lead, render_template campaign.(EmailCampaign.template) lead
                  campaign.(EmailCampaign.user) now = Raise e) →
       create_campaign_emails now pk campaign db = (db, Raise e)).
Proof.
  split; [|split; [|split; [|split]]].
  - intros db' campaign' n. unfold create_campaign_emails.
    destruct (get_target_leads pk campaign db) as [leads|e]; [|done].
    destruct (create_emails now pk campaign leads 0 db) as [db1 [created|e]]; [|done].
    intros [= <- <- <-]. split; [done|]. split; [done|]. split; [done|].
    apply lookup_insert_eq.
  - intros leads Htargets Hcan. unfold create_campaign_emails. rewrite Htargets.
    assert (∃ db1 n, create_emails now pk campaign leads 0 db = (db1, Ok n)
                     ∧ ((∀ lead_id, lead_id ∈ leads.*1 →
                                    size (campaign_lead_emails pk lead_id db) ≠ 0) →
                        n = 0%Z ∧ db1 = db)) as (db1 & n & Hrun & Hnone).
    { destruct (classic_all_rows leads pk db) as [Hall|Hsome].
      - exists db, 0%Z. by rewrite create_emails_nothing.
      - destruct Hcan as [Hok|Hall]; [|done].
        destruct (create_emails_total now pk campaign leads 0 db Hok) as (db1 & n & Hrun).
        exists db1, n. split; [done|]. intros Hall. done. }
    rewrite Hrun. eexists _, _, _. split; [done|]. split; [done|].
    split; [done|]. split; [done|]. split; [apply lookup_insert_eq|].
    intros Hall. destruct (Hnone Hall) as [-> ->]. done.
  - intros db' e. unfold create_campaign_emails.
    destruct (get_target_leads pk campaign db) as [leads|e']; [|by intros [= <- _]].
    pose proof (create_emails_frame now pk campaign leads 0 db) as (_ & _ & Hframe).
    destruct (create_emails now pk campaign leads 0 db) as [db1 [created|e']]; [done|].
    by intros [= <- _] _.
  - intros e Hraise. unfold create_campaign_emails. by rewrite Hraise.
  - intros leads e Htargets Hsome Hraise. unfold create_campaign_emails.
    by rewrite Htargets, (create_emails_raise _ _ _ _ _ _ e Hsome Hraise).
Qed.

(** C3.  After a call of [create_campaign_emails] that returned, a second
    call on the same campaign returns a count of zero and leaves the Email
    table as it is, and every target lead that had at most one row for the
    campaign before the first call has exactly one after the second. *)
Theorem create_campaign_emails_idempotent (now now' pk : Z)
    (campaign campaign1 : EmailCampaign.t) (db db1 : DB) (n : Z) :
  create_campaign_emails now pk campaign db = (db1, Ok (campaign1, n)) →
  ∃ leads db2,
    get_target_leads pk campaign db = Ok leads
    ∧ get_target_leads pk campaign1 db1 = Ok leads
    ∧ create_campaign_emails now' pk campaign1 db1 = (db2, Ok (campaign1, 0%Z))
    ∧ db2.(db_emails) = db1.(db_emails)
    ∧ (∀ lead_id lead,
         (lead_id, lead) ∈ leads →
         size (campaign_lead_emails pk lead_id db) ≤ 1 →
         size (campaign_lead_emails pk lead_id db1) = 1
         ∧ size (campaign_lead_emails pk lead_id db2) = 1).
Proof.
  unfold create_campaign_emails at 1.
  destruct (get_target_leads pk campaign db) as [leads|e] eqn:Htargets; [|done].
  destruct (create_emails now pk campaign leads 0 db) as [dbe [created|e]] eqn:Hrun;
    [|done].
  intros [= <- <- <-].
  pose proof (create_emails_frame now pk campaign leads 0 db) as Hframe.
  rewrite Hrun in Hframe. cbn in Hframe. destruct Hframe as (Hl & Hs & _).
  pose proof (create_emails_rows _ _ _ _ _ _ _ _ Hrun) as Hrows.
  assert (get_target_leads pk
            (EmailCampaign.set_emails_failed 0 (EmailCampaign.set_emails_sent 0 campaign))
            (save_campaign pk
               (EmailCampaign.set_emails_failed 0 (EmailCampaign.set_emails_sent 0 campaign))
               dbe)
          = Ok leads) as Htargets1.
  { rewrite <-Htargets. by apply get_target_leads_frame. }
  assert (∀ lead_id, lead_id ∈ leads.*1 →
                     size (campaign_lead_emails pk lead_id dbe) ≠ 0) as Hall.
  { intros lead_id Hin. rewrite Hrows, decide_True by done. lia. }
  exists leads. eexists. split; [done|]. split; [done|]. split.
  - unfold create_campaign_emails. rewrite Htargets1.
    rewrite create_emails_nothing by done. reflexivity.
  - split; [done|]. intros lead_id lead Hin Hle.
    assert (lead_id ∈ leads.*1) as Hin'.
    { apply list_elem_of_fmap. by exists (lead_id, lead). }
    assert (size (campaign_lead_emails pk lead_id dbe) = 1) as Hone.
    { rewrite Hrows, decide_True by done. lia. }
    done.
Qed.

(** ** Sending a batch *)

Section AllDelivered.

(** Every delivery attempt succeeds. *)
Hypothesis delivers : ∀ k email, ∃ n, transport k email = returned n ∧ n ≠ 0%Z.

Lemma send_email_success (now pk : Z) (email : Email.t) (db : DB) :
  ∃ db',
    send_email now pk email db = (db', as_sent now email, (true, "Email sent successfully"))
    ∧ db'.(db_emails) = <[pk := as_sent now email]> db.(db_emails)
    ∧ db'.(db_campaigns) = db.(db_campaigns).
Proof using delivers.
  destruct (delivers pk (Email.set_status Email.sending email)) as (n & Ht & Hn).
  unfold send_email. rewrite Ht, bool_decide_true by done.
  eexists. split; [done|]. split; [|done]. cbn. apply insert_insert_eq.
Qed.

Lemma send_emails_success (now : Z) (batch : list (Z * Email.t))
    (sent_count failed_count : Z) (db : DB) :
  ∃ db',
    send_emails now batch sent_count failed_count db
    = (db', (sent_count + Z.of_nat (length batch))%Z, failed_count)
    ∧ db'.(db_emails) = deliver_all now batch db.(db_emails)
    ∧ db'.(db_campaigns) = db.(db_campaigns).
Proof using delivers.
  revert sent_count db. induction batch as [|[pk email] batch IH]; intros s db.
  - exists db. cbn. split; [|done]. do 2 f_equal. lia.
  - cbn [send_emails].
    destruct (send_email_success now pk email db) as (db1 & -> & He & Hc).
    destruct (IH (s + 1)%Z db1) as (db' & -> & He' & Hc').
    exists db'. split; [|split].
    + do 2 f_equal. rewrite length_cons. lia.
    + by rewrite He', He.
    + by rewrite Hc', Hc.
Qed.

End AllDelivered.

Lemma deliver_all_other (now : Z) (batch : list (Z * Email.t))
    (table : gmap Z Email.t) (k : Z) :
  k ∉ batch.*1 → deliver_all now batch table !! k = table !! k.
Proof.
  revert table. induction batch as [|[pk email] batch IH]; intros table Hk; [done|].
  rewrite fmap_cons, not_elem_of_cons in Hk. destruct Hk as [Hne Hk].
  cbn. unfold deliver_all in IH. rewrite IH by done. by apply lookup_insert_ne.
Qed.

Lemma deliver_all_member (now : Z) (batch : list (Z * Email.t))
    (table : gmap Z Email.t) (k : Z) (email : Email.t) :
  NoDup batch.*1 → (k, email) ∈ batch →
  deliver_all now batch table !! k = Some (as_sent now email).
Proof.
  revert table. induction batch as [|[pk e] batch IH]; intros table Hnd Hin.
  - by apply elem_of_nil in Hin.
  - rewrite fmap_cons in Hnd. apply NoDup_cons in Hnd as [Hpk Hnd].
    apply elem_of_cons in Hin as [[= -> ->]|Hin].
    + change (deliver_all now ((pk, e) :: batch) table)
        with (deliver_all now batch (<[pk := as_sent now e]> table)).
      rewrite deliver_all_other by done. apply lookup_insert_eq.
    + by apply IH.
Qed.

(** Delivering a batch of queued rows takes them, and only them, out of the
    queue. *)
Lemma queued_after_batch (now campaign : Z) (batch : list (Z * Email.t))
    (table : gmap Z Email.t) :
  NoDup batch.*1 →
  (∀ k email, (k, email) ∈ batch → table !! k = Some email ∧ is_queued campaign (k, email)) →
  size (filter (is_queued campaign) (deliver_all now batch table)) + length batch
  = size (filter (is_queued campaign) table).
Proof.
  revert table. induction batch as [|[pk e] batch IH]; intros table Hnd Hin; [cbn; lia|].
  rewrite fmap_cons in Hnd. apply NoDup_cons in Hnd as [Hpk Hnd].
  destruct (Hin pk e) as [Hlook Hq]; [apply list_elem_of_here|].
  change (deliver_all now ((pk, e) :: batch) table)
    with (deliver_all now batch (<[pk := as_sent now e]> table)).
  rewrite length_cons.
  assert (size (filter (is_queued campaign) (<[pk := as_sent now e]> table))
          = pred (size (filter (is_queued campaign) table))) as Hsize.
  { rewrite map_filter_insert_False by (intros [_ ?]; done).
    rewrite map_filter_delete. apply map_size_delete_Some.
    exists e. by apply map_lookup_filter_Some_2. }
  assert (size (filter (is_queued campaign) table) ≠ 0) as Hpos.
  { apply map_size_ne_0_lookup_2 with pk. exists e. by apply map_lookup_filter_Some_2. }
  rewrite <-Nat.add_succ_comm. cut (S (size (filter (is_queued campaign)
                                               (deliver_all now batch
                                                  (<[pk := as_sent now e]> table)))
                                      + length batch)
                                    = size (filter (is_queued campaign) table)); [lia|].
  rewrite <-Nat.add_succ_l. cbn [plus]. rewrite IH; [lia|done|].
  intros k email Hk. destruct (Hin k email) as [Hl Hq']; [by apply list_elem_of_further|].
  split; [|done]. rewrite lookup_insert_ne; [done|].
  intros <-. apply Hpk, list_elem_of_fmap. by exists (pk, email).
Qed.

(** The rows a batch takes from the queue. *)
Lemma queued_batch (pk : Z) (n : nat) (db : DB) :
  let batch := take n (order_by_desc Email.created_at (rows (queued pk db))) in
  NoDup batch.*1
  ∧ (∀ k email, (k, email) ∈ batch →
                db.(db_emails) !! k = Some email ∧ is_queued pk (k, email))
  ∧ length batch = min n (size (queued pk db)).
Proof.
  intros batch. split; [|split].
  - subst batch. rewrite fmap_take. eapply sublist_NoDup; [|apply sublist_take].
    rewrite order_by_desc_Permutation. apply NoDup_rows_keys.
  - intros k email Hin. apply subseteq_take in Hin.
    rewrite order_by_desc_Permutation in Hin. apply elem_of_rows in Hin.
    unfold queued in Hin. by apply map_lookup_filter_Some in Hin as [? ?].
  - subst batch. rewrite length_take, order_by_desc_Permutation.
    unfold rows. by rewrite merge_sort_Permutation, length_map_to_list.
Qed.

(** A batch in which every attempt succeeds: it sends as many emails as the
    bound and the queue allow, adds them to [emails_sent], and leaves every
    row as it was or, for a row of the batch, sent. *)
Lemma send_campaign_batch_success (now pk : Z) (campaign : EmailCampaign.t) (db : DB) :
  (∀ k email, ∃ n, transport k email = returned n ∧ n ≠ 0%Z) →
  (0 < campaign.(EmailCampaign.batch_size))%Z →
  size (queued pk db) ≠ 0 →
  let n := min (Z.to_nat campaign.(EmailCampaign.batch_size)) (size (queued pk db)) in
  let campaign' :=
    EmailCampaign.set_emails_failed (campaign.(EmailCampaign.emails_failed) + 0)%Z
      (EmailCampaign.set_emails_sent
         (campaign.(EmailCampaign.emails_sent) + Z.of_nat n)%Z campaign) in
  ∃ db',
    send_campaign_batch now pk campaign None db
    = (db', Ok (campaign', (Z.of_nat n, 0%Z)))
    ∧ size (queued pk db') + n = size (queued pk db)
    ∧ (∀ k email,
         db.(db_emails) !! k = Some email →
         db'.(db_emails) !! k = Some email
         ∨ is_queued pk (k, email) ∧ db'.(db_emails) !! k = Some (as_sent now email)).
Proof.
  intros delivers Hsize Hqueue n campaign'.
  destruct (queued_batch pk (Z.to_nat campaign.(EmailCampaign.batch_size)) db)
    as (Hnd & Hin & Hlen).
  set (batch := take _ _) in *.
  unfold send_campaign_batch. rewrite bool_decide_false by lia. fold batch.
  assert (truthy batch = true) as ->.
  { destruct batch; [|done]. cbn in Hlen. lia. }
  cbn [negb].
  destruct (send_emails_success delivers now batch 0 0 db) as (db1 & -> & He & Hc).
  rewrite Hlen. fold n. rewrite Z.add_0_l. fold campaign'.
  eexists. split; [done|]. split.
  - unfold queued. cbn [save_campaign with_campaigns db_emails]. rewrite He.
    subst n. rewrite <-Hlen. by apply queued_after_batch.
  - intros k email Hk. cbn [save_campaign with_campaigns db_emails]. rewrite He.
    destruct (decide (k ∈ batch.*1)) as [Hmem|Hmem].
    + right. apply list_elem_of_fmap in Hmem as ([k' email'] & -> & Hmem).
      destruct (Hin _ _ Hmem) as [Hk' Hq]. cbn in Hk. simplify_eq.
      split; [done|]. by apply deliver_all_member.
    + left. by rewrite deliver_all_other.
Qed.

(** A call that finds the queue empty completes the campaign. *)
Lemma send_campaign_batch_empty (now pk : Z) (campaign : EmailCampaign.t) (db : DB) :
  (0 ≤ campaign.(EmailCampaign.batch_size))%Z →
  size (queued pk db) = 0 →
  send_campaign_batch now pk campaign None db
  = (save_campaign pk
       (EmailCampaign.set_completed_at (Some now)
          (EmailCampaign.set_status EmailCampaign.sent campaign)) db,
     Ok (EmailCampaign.set_completed_at (Some now)
           (EmailCampaign.set_status EmailCampaign.sent campaign), (0, 0)%Z)).
Proof.
  intros Hsize Hqueue.
  destruct (queued_batch pk (Z.to_nat campaign.(EmailCampaign.batch_size)) db)
    as (_ & _ & Hlen).
  unfold send_campaign_batch. rewrite bool_decide_false by lia.
  destruct (take _ _); [done|]. cbn in Hlen. lia.
Qed.

Lemma as_sent_not_queued (pk now k : Z) (email : Email.t) :
  ¬ is_queued pk (k, as_sent now email).
Proof. by intros [_ ?]. Qed.

(** C1 (amended).  With a batch size of 2, five queued rows and every
    attempt succeeding, the first call sends 2 and leaves [emails_sent] at 2
    and the status [sending]; the second sends 2 and the third 1, after
    which the five rows are [sent], [emails_sent] is 5 and the status is
    still [sending].  The status becomes [sent], with [completed_at]
    stamped, in a fourth call, the one that finds no queued row; it sends
    nothing. *)
Theorem send_campaign_batch_five_queued (t1 t2 t3 t4 pk : Z)
    (campaign : EmailCampaign.t) (db : DB) :
  (∀ k email, ∃ n, transport k email = returned n ∧ n ≠ 0%Z) →
  campaign.(EmailCampaign.batch_size) = 2%Z →
  campaign.(EmailCampaign.status) = EmailCampaign.sending →
  campaign.(EmailCampaign.emails_sent) = 0%Z →
  size (queued pk db) = 5 →
  ∃ db1 c1 db2 c2 db3 c3 db4 c4,
    send_campaign_batch t1 pk campaign None db = (db1, Ok (c1, (2, 0)%Z))
    ∧ c1.(EmailCampaign.emails_sent) = 2%Z
    ∧ c1.(EmailCampaign.status) = EmailCampaign.sending
    ∧ size (queued pk db1) = 3
    ∧ send_campaign_batch t2 pk c1 None db1 = (db2, Ok (c2, (2, 0)%Z))
    ∧ send_campaign_batch t3 pk c2 None db2 = (db3, Ok (c3, (1, 0)%Z))
    ∧ (∀ k email,
         db.(db_emails) !! k = Some email → is_queued pk (k, email) →
         ∃ email', db3.(db_emails) !! k = Some email'
                   ∧ email'.(Email.status) = Email.sent)
    ∧ c3.(EmailCampaign.emails_sent) = 5%Z
    ∧ c3.(EmailCampaign.status) = EmailCampaign.sending
    ∧ c3.(EmailCampaign.completed_at) = campaign.(EmailCampaign.completed_at)
    ∧ send_campaign_batch t4 pk c3 None db3 = (db4, Ok (c4, (0, 0)%Z))
    ∧ c4.(EmailCampaign.status) = EmailCampaign.sent
    ∧ c4.(EmailCampaign.completed_at) = Some t4
    ∧ c4.(EmailCampaign.emails_sent) = 5%Z
    ∧ db4.(db_emails) = db3.(db_emails).
Proof.
  intros delivers Hbatch Hstatus Hsent Hqueue.
  destruct (send_campaign_batch_success t1 pk campaign db delivers)
    as (db1 & Hrun1 & Hsize1 & Hrows1); [lia|lia|].
  rewrite ?Hbatch, ?Hqueue in Hrun1, Hsize1.
  change (Z.to_nat 2 `min` 5) with 2 in Hrun1, Hsize1.
  change (Z.of_nat 2) with 2%Z in Hrun1.
  set (c1 := EmailCampaign.set_emails_failed _ _) in Hrun1.
  assert (size (queued pk db1) = 3) as Hq1 by lia.
  destruct (send_campaign_batch_success t2 pk c1 db1 delivers)
    as (db2 & Hrun2 & Hsize2 & Hrows2); [cbn; lia|lia|].
  change (EmailCampaign.batch_size c1) with (EmailCampaign.batch_size campaign)
    in Hrun2, Hsize2.
  rewrite ?Hbatch, ?Hq1 in Hrun2, Hsize2.
  change (Z.to_nat 2 `min` 3) with 2 in Hrun2, Hsize2.
  change (Z.of_nat 2) with 2%Z in Hrun2.
  set (c2 := EmailCampaign.set_emails_failed _ _) in Hrun2.
  assert (size (queued pk db2) = 1) as Hq2 by lia.
  destruct (send_campaign_batch_success t3 pk c2 db2 delivers)
    as (db3 & Hrun3 & Hsize3 & Hrows3); [cbn; lia|lia|].
  change (EmailCampaign.batch_size c2) with (EmailCampaign.batch_size campaign)
    in Hrun3, Hsize3.
  rewrite ?Hbatch, ?Hq2 in Hrun3, Hsize3.
  change (Z.to_nat 2 `min` 1) with 1 in Hrun3, Hsize3.
  change (Z.of_nat 1) with 1%Z in Hrun3.
  set (c3 := EmailCampaign.set_emails_failed _ _) in Hrun3.
  assert (size (queued pk db3) = 0) as Hq3 by lia.
  exists db1, c1, db2, c2, db3, c3. eexists _, _.
  split; [done|]. split; [cbn; lia|]. split; [done|]. split; [done|].
  split; [done|]. split; [done|]. split.
  { intros k email Hk Hq.
    assert (∃ email', db3.(db_emails) !! k = Some email'
                      ∧ (email' = email ∨ ∃ t, email' = as_sent t email)) as Hcase.
    { destruct (Hrows1 k email Hk) as [H1|[_ H1]].
      - destruct (Hrows2 k email H1) as [H2|[_ H2]].
        + destruct (Hrows3 k email H2) as [H3|[_ H3]]; eauto 6.
        + destruct (Hrows3 _ _ H2) as [H3|[Hbad _]]; [eauto 6|].
          by apply as_sent_not_queued in Hbad.
      - destruct (Hrows2 _ _ H1) as [H2|[Hbad _]];
          [|by apply as_sent_not_queued in Hbad].
        destruct (Hrows3 _ _ H2) as [H3|[Hbad _]]; [eauto 6|].
        by apply as_sent_not_queued in Hbad. }
    destruct Hcase as (email' & Hk3 & [->|[t ->]]).
    - exfalso. apply map_size_empty_inv in Hq3.
      by eapply (map_filter_empty_not_lookup _ _ k email Hq3).
    - by eexists. }
  split; [cbn; lia|]. split; [done|]. split; [done|].
  split; [apply send_campaign_batch_empty; [cbn; lia|done]|].
  split; [done|]. split; [done|]. split; [cbn; lia|]. done.
Qed.


(** ** Further properties of sending *)

(** X2.  A delivered email is marked [sent] with the time of the call, one
    [sent] tracking event and one lead activity are appended for it, and no
    other Email row is written. *)
Theorem send_email_delivered_effect (now pk : Z) (email : Email.t) (db : DB) (n : Z) :
  transport pk (Email.set_status Email.sending email) = returned n →
  n ≠ 0%Z →
  ∃ db' email',
    send_email now pk email db = (db', email', (true, "Email sent successfully"))
    ∧ db'.(db_emails) !! pk = Some email'
    ∧ email'.(Email.status) = Email.sent
    ∧ email'.(Email.sent_at) = Some now
    ∧ email'.(Email.retry_count) = email.(Email.retry_count)
    ∧ db'.(db_tracking) = db.(db_tracking) ++ [EmailTracking.mk pk "sent" now None ""]
    ∧ db'.(db_activities)
      = db.(db_activities)
        ++ [LeadActivity.mk email.(Email.lead) email.(Email.user) "email"
              ("Email sent: " +:+ email.(Email.subject))
              ("Email sent to " +:+ email.(Email.to_email)) now]
    ∧ (∀ k, k ≠ pk → db'.(db_emails) !! k = db.(db_emails) !! k).
Proof.
  intros Ht Hn. unfold send_email. rewrite Ht, bool_decide_true by done.
  eexists _, _. split; [done|]. split; [apply save_email_lookup|].
  do 5 (split; [done|]). intros k Hk. cbn. by rewrite !lookup_insert_ne.
Qed.

(** What [send_email] does to the Email table, however the attempt ends: it
    writes the row of the email, which is then [sent] or [failed], and
    nothing else. *)
Lemma send_email_table (now pk : Z) (email : Email.t) (db : DB) :
  ∃ email',
    (send_email now pk email db).1.1.(db_emails) = <[pk := email']> db.(db_emails)
    ∧ (send_email now pk email db).1.2 = email'
    ∧ (email'.(Email.status) = Email.sent ∨ email'.(Email.status) = Email.failed)
    ∧ ((send_email now pk email db).2.1 = true ↔ email'.(Email.status) = Email.sent)
    ∧ email'.(Email.campaign) = email.(Email.campaign)
    ∧ (send_email now pk email db).1.1.(db_campaigns) = db.(db_campaigns).
Proof.
  clear clean_ipv6_address strftime strip_tags uuid4.
  unfold send_email. destruct (transport pk _) as [n|message].
  - case_bool_decide; eexists; cbn; (split; [apply insert_insert_eq|]); naive_solver.
  - eexists; cbn. split; [apply insert_insert_eq|]. naive_solver.
Qed.

Lemma send_emails_nonneg (now : Z) (batch : list (Z * Email.t))
    (sent_count failed_count : Z) (db : DB) :
  (sent_count ≤ (send_emails now batch sent_count failed_count db).1.2)%Z
  ∧ (failed_count ≤ (send_emails now batch sent_count failed_count db).2)%Z.
Proof.
  revert sent_count failed_count db.
  induction batch as [|[pk email] batch IH]; intros s f db; cbn; [lia|].
  destruct (send_email now pk email db) as [[db' email'] [[] message]]; cbn.
  - destruct (IH (s + 1)%Z f db'). lia.
  - destruct (IH s (f + 1)%Z db'). lia.
Qed.

(** The Email table after the loop of a batch: the rows of the batch are no
    longer queued, the other rows are as they were. *)
Lemma send_emails_table (now pk : Z) (batch : list (Z * Email.t))
    (sent_count failed_count : Z) (db : DB) :
  NoDup batch.*1 →
  (∀ k email, (k, email) ∈ batch →
              db.(db_emails) !! k = Some email ∧ is_queued pk (k, email)) →
  let db' := (send_emails now batch sent_count failed_count db).1.1 in
  size (queued pk db') + length batch = size (queued pk db)
  ∧ (∀ k, k ∉ batch.*1 → db'.(db_emails) !! k = db.(db_emails) !! k)
  ∧ (∀ k email, (k, email) ∈ batch →
                ∃ email', db'.(db_emails) !! k = Some email'
                          ∧ (email'.(Email.status) = Email.sent
                             ∨ email'.(Email.status) = Email.failed))
  ∧ db'.(db_campaigns) = db.(db_campaigns).
Proof.
  revert sent_count failed_count db.
  induction batch as [|[k0 e0] batch IH]; intros s f db Hnd Hin.
  { cbn. split; [lia|]. split; [done|]. split; [|done].
    intros k email Hbad. by apply elem_of_nil in Hbad. }
  rewrite fmap_cons in Hnd. apply NoDup_cons in Hnd as [Hk0 Hnd].
  destruct (Hin k0 e0) as [Hlook Hq]; [apply list_elem_of_here|].
  destruct (send_email_table now k0 e0 db) as (e1 & Htable & _ & Hstatus & _ & _ & Hcamp).
  cbn [send_emails].
  destruct (send_email now k0 e0 db) as [[db1 e1'] [success message]] eqn:Hsend.
  cbn in Htable, Hcamp.
  assert (∀ s' f',
            let db' := (send_emails now batch s' f' db1).1.1 in
            size (queued pk db') + length ((k0, e0) :: batch) = size (queued pk db)
            ∧ (∀ k, k ∉ ((k0, e0) :: batch).*1 →
                    db'.(db_emails) !! k = db.(db_emails) !! k)
            ∧ (∀ k email, (k, email) ∈ (k0, e0) :: batch →
                          ∃ email', db'.(db_emails) !! k = Some email'
                                    ∧ (email'.(Email.status) = Email.sent
                                       ∨ email'.(Email.status) = Email.failed))
            ∧ db'.(db_campaigns) = db.(db_campaigns)) as Hgoal.
  { intros s' f'.
    destruct (IH s' f' db1 Hnd) as (Hsize & Hother & Hrows & Hc).
    { intros k email Hk. destruct (Hin k email) as [Hl Hq']; [by apply list_elem_of_further|].
      split; [|done]. rewrite Htable, lookup_insert_ne; [done|].
      intros <-. apply Hk0, list_elem_of_fmap. by exists (k0, email). }
    assert (size (queued pk db1) = pred (size (queued pk db))) as Hpred.
    { unfold queued. rewrite Htable.
      rewrite map_filter_insert_False
        by (intros [_ Hbad]; cbn in Hbad; destruct Hstatus; congruence).
      rewrite map_filter_delete. apply map_size_delete_Some.
      exists e0. by apply map_lookup_filter_Some_2. }
    assert (size (queued pk db) ≠ 0) as Hpos.
    { apply map_size_ne_0_lookup_2 with k0. exists e0.
      by apply map_lookup_filter_Some_2. }
    split; [|split; [|split]].
    - rewrite length_cons. lia.
    - intros k Hk. rewrite fmap_cons, not_elem_of_cons in Hk. destruct Hk as [Hne Hk].
      rewrite Hother by done. rewrite Htable. by apply lookup_insert_ne.
    - intros k email [[= -> ->]|Hk]%elem_of_cons.
      + exists e1. rewrite Hother by done. rewrite Htable. split; [|done].
        apply lookup_insert_eq.
      + by apply (Hrows k email).
    - by rewrite Hc. }
  destruct success; apply Hgoal.
Qed.


(** X3.  A batch is best effort: whatever the transport does with each
    email, every email of the batch is attempted, the two counts returned
    add up to the number of queued rows within the bound (the override when
    it is given and not zero, the campaign's [batch_size] otherwise), they
    are added to the counters of the campaign, whose status stays, and the
    attempted rows leave the queue, delivered or not. *)
Theorem send_campaign_batch_best_effort (now pk : Z) (campaign : EmailCampaign.t)
    (batch_size : option Z) (db : DB) :
  let bound :=
    match batch_size with
    | Some b => if bool_decide (b = 0%Z) then campaign.(EmailCampaign.batch_size) else b
    | None => campaign.(EmailCampaign.batch_size)
    end in
  (0 < bound)%Z →
  size (queued pk db) ≠ 0 →
  ∃ db' campaign' sent_count failed_count,
    send_campaign_batch now pk campaign batch_size db
    = (db', Ok (campaign', (sent_count, failed_count)))
    ∧ (0 ≤ sent_count)%Z ∧ (0 ≤ failed_count)%Z
    ∧ (sent_count + failed_count)%Z
      = Z.of_nat (min (Z.to_nat bound) (size (queued pk db)))
    ∧ campaign'.(EmailCampaign.emails_sent)
      = (campaign.(EmailCampaign.emails_sent) + sent_count)%Z
    ∧ campaign'.(EmailCampaign.emails_failed)
      = (campaign.(EmailCampaign.emails_failed) + failed_count)%Z
    ∧ campaign'.(EmailCampaign.status) = campaign.(EmailCampaign.status)
    ∧ campaign'.(EmailCampaign.completed_at) = campaign.(EmailCampaign.completed_at)
    ∧ db'.(db_campaigns) !! pk = Some campaign'
    ∧ size (queued pk db') + min (Z.to_nat bound) (size (queued pk db))
      = size (queued pk db).
Proof.
  intros bound Hbound Hqueue.
  destruct (queued_batch pk (Z.to_nat bound) db) as (Hnd & Hin & Hlen).
  set (batch := take _ _) in *.
  unfold send_campaign_batch. fold bound. rewrite bool_decide_false by lia.
  fold batch.
  assert (truthy batch = true) as ->.
  { destruct batch; [|done]. cbn in Hlen. lia. }
  cbn [negb].
  pose proof (send_emails_counts now batch 0 0 db) as Hsum.
  pose proof (send_emails_nonneg now batch 0 0 db) as [Hs Hf].
  destruct (send_emails_table now pk batch 0 0 db Hnd Hin) as (Hsize & _ & _ & _).
  destruct (send_emails now batch 0 0 db) as [[db1 sent_count] failed_count].
  cbn in Hsum, Hs, Hf, Hsize.
  eexists _, _, _, _. split; [done|].
  split; [done|]. split; [done|]. split; [lia|]. split; [done|]. split; [done|].
  split; [done|]. split; [done|]. split; [apply lookup_insert_eq|].
  by rewrite <-Hlen.
Qed.

(** X4.  A batch writes only to rows it took from the queue of its campaign:
    a row of another campaign, or a row that is not [queued], is the same
    after the call, whatever the transport does and whether the call sends,
    completes the campaign or refuses the bound. *)
Theorem send_campaign_batch_frame (now pk : Z) (campaign : EmailCampaign.t)
    (batch_size : option Z) (db : DB) (k : Z) (email : Email.t) :
  db.(db_emails) !! k = Some email →
  ¬ is_queued pk (k, email) →
  (send_campaign_batch now pk campaign batch_size db).1.(db_emails) !! k = Some email.
Proof.
  intros Hk Hq. unfold send_campaign_batch.
  set (bound := match batch_size with Some _ => _ | None => _ end).
  case_bool_decide; [done|].
  destruct (queued_batch pk (Z.to_nat bound) db) as (Hnd & Hin & _).
  set (batch := take _ _) in *.
  destruct (truthy batch); cbn [negb]; [|done].
  destruct (send_emails_table now pk batch 0 0 db Hnd Hin) as (_ & Hother & _ & _).
  destruct (send_emails now batch 0 0 db) as [[db1 sent_count] failed_count].
  cbn in Hother |- *. rewrite Hother; [done|].
  intros ([k' email'] & -> & Hmem)%list_elem_of_fmap.
  destruct (Hin _ _ Hmem) as [Hk' Hq']. cbn in Hk. by simplify_eq.
Qed.

(** X5.  A call that finds no queued row for the campaign sets the status
    [sent] and stamps [completed_at], leaves both counters and the Email
    table as they are, and returns zero sent and zero failed. *)
Theorem send_campaign_batch_no_queued (now pk : Z) (campaign : EmailCampaign.t)
    (batch_size : option Z) (db : DB) :
  (0 ≤ match batch_size with
       | Some b => if bool_decide (b = 0%Z) then campaign.(EmailCampaign.batch_size) else b
       | None => campaign.(EmailCampaign.batch_size)
       end)%Z →
  size (queued pk db) = 0 →
  ∃ db' campaign',
    send_campaign_batch now pk campaign batch_size db = (db', Ok (campaign', (0, 0)%Z))
    ∧ campaign'.(EmailCampaign.status) = EmailCampaign.sent
    ∧ campaign'.(EmailCampaign.completed_at) = Some now
    ∧ campaign'.(EmailCampaign.emails_sent) = campaign.(EmailCampaign.emails_sent)
    ∧ campaign'.(EmailCampaign.emails_failed) = campaign.(EmailCampaign.emails_failed)
    ∧ db'.(db_campaigns) !! pk = Some campaign'
    ∧ db'.(db_emails) = db.(db_emails).
Proof.
  set (bound := match batch_size with Some _ => _ | None => _ end).
  intros Hbound Hqueue.
  destruct (queued_batch pk (Z.to_nat bound) db) as (_ & _ & Hlen).
  unfold send_campaign_batch. fold bound. rewrite bool_decide_false by lia.
  destruct (take _ _) as [|x batch]; [|cbn in Hlen; lia].
  eexists _, _. split; [done|]. do 4 (split; [done|]).
  split; [apply lookup_insert_eq|done].
Qed.

(** X6.  A bound of zero completes the campaign at once: when the campaign's
    [batch_size] is 0 and no other bound is given, the call marks the
    campaign [sent] and sends nothing, and the rows that were queued stay
    queued. *)
Theorem send_campaign_batch_zero_bound (now pk : Z) (campaign : EmailCampaign.t)
    (batch_size : option Z) (db : DB) :
  campaign.(EmailCampaign.batch_size) = 0%Z →
  batch_size = None ∨ batch_size = Some 0%Z →
  ∃ db' campaign',
    send_campaign_batch now pk campaign batch_size db = (db', Ok (campaign', (0, 0)%Z))
    ∧ campaign'.(EmailCampaign.status) = EmailCampaign.sent
    ∧ campaign'.(EmailCampaign.completed_at) = Some now
    ∧ db'.(db_emails) = db.(db_emails)
    ∧ queued pk db' = queued pk db.
Proof.
  intros Hzero Hnone. unfold send_campaign_batch.
  assert (match batch_size with
          | Some b => if bool_decide (b = 0%Z) then campaign.(EmailCampaign.batch_size) else b
          | None => campaign.(EmailCampaign.batch_size)
          end = 0%Z) as ->.
  { by destruct Hnone as [-> | ->]. }
  rewrite bool_decide_false by lia. cbn. eexists _, _. done.
Qed.


(** ** Further properties of the tracking callback *)

Lemma filter_rows_none {A : Type} (P : Z * A → Prop) `{!∀ x, Decision (P x)}
    (table : gmap Z A) :
  (∀ k x, table !! k = Some x → ¬ P (k, x)) → filter P (rows table) = [].
Proof.
  intros Hnone. destruct (filter P (rows table)) as [|[k x] l] eqn:Hl; [done|].
  assert ((k, x) ∈ filter P (rows table)) as Hin by (rewrite Hl; apply list_elem_of_here).
  apply list_elem_of_filter in Hin as [HP Hin%elem_of_rows]. by destruct (Hnone k x).
Qed.

(** X7.  A callback for a tracking id that no email has is a silent no-op:
    the database is unchanged and the response is 204, also for [opened],
    for which no pixel is returned. *)
Theorem email_tracking_unknown_id (now : Z) (remote_addr : option string)
    (user_agent : string) (tracking_id : Z) (event : string) (db : DB) :
  (∀ k e, db.(db_emails) !! k = Some e → e.(Email.tracking_id) ≠ tracking_id) →
  email_tracking now remote_addr user_agent tracking_id event db = (db, Ok no_content).
Proof.
  intros Hnone. unfold email_tracking.
  rewrite filter_rows_none; [done|]. intros k e Hk. cbn. by apply (Hnone k).
Qed.

(** X8.  A callback with an event other than [opened] and [clicked] (a
    bounce, say) is logged and changes no email: one tracking row is
    appended, with the event, the user agent and the address as the column
    stores it (an empty address as NULL, an IPv6 address in its normal
    form), the Email table stays as it is, and the response is 204. *)
Theorem email_tracking_other_event (now : Z) (remote_addr : option string)
    (user_agent : string) (tracking_id : Z) (event : string) (db : DB)
    (pk : Z) (email : Email.t) :
  db.(db_emails) !! pk = Some email →
  email.(Email.tracking_id) = tracking_id →
  (∀ k e, db.(db_emails) !! k = Some e → e.(Email.tracking_id) = tracking_id → k = pk) →
  event ≠ "opened" → event ≠ "clicked" →
  email_tracking now remote_addr user_agent tracking_id event db
  = (with_tracking
       (db.(db_tracking)
        ++ [EmailTracking.mk pk event now (ip_address_db_value remote_addr) user_agent])
       db,
     Ok no_content).
Proof.
  intros Hpk Htid Huniq Ho Hc. unfold email_tracking.
  rewrite (filter_rows_unique _ _ pk email) by done.
  apply String.eqb_neq in Ho, Hc. by rewrite Ho, Hc.
Qed.

(** X9.  A [clicked] callback on an email that is [sent], [delivered] or
    [opened] makes it [clicked], stamps [clicked_at], adds one to
    [click_count] and, when the email had no opening time, records the
    opening as well; on an email in any other status, an email already
    [clicked] included, it changes no column.  Either way the response is
    204. *)
Theorem email_tracking_clicked (now : Z) (remote_addr : option string)
    (user_agent : string) (tracking_id : Z) (db : DB) (pk : Z) (email : Email.t) :
  db.(db_emails) !! pk = Some email →
  email.(Email.tracking_id) = tracking_id →
  (∀ k e, db.(db_emails) !! k = Some e → e.(Email.tracking_id) = tracking_id → k = pk) →
  ∃ db' email',
    email_tracking now remote_addr user_agent tracking_id "clicked" db
    = (db', Ok no_content)
    ∧ db'.(db_emails) !! pk = Some email'
    ∧ (email.(Email.status) ∈ [Email.sent; Email.delivered; Email.opened] →
       email'.(Email.status) = Email.clicked
       ∧ email'.(Email.clicked_at) = Some now
       ∧ email'.(Email.click_count) = (email.(Email.click_count) + 1)%Z
       ∧ email'.(Email.opened_at)
         = Some (default now email.(Email.opened_at))
       ∧ email'.(Email.open_count)
         = match email.(Email.opened_at) with
           | Some _ => email.(Email.open_count)
           | None => (email.(Email.open_count) + 1)%Z
           end)
    ∧ (email.(Email.status) ∉ [Email.sent; Email.delivered; Email.opened] →
       email' = email ∧ db'.(db_emails) = db.(db_emails)).
Proof.
  intros Hpk Htid Huniq. unfold email_tracking.
  rewrite (filter_rows_unique _ _ pk email) by done.
  cbn [String.eqb Ascii.eqb Bool.eqb]. unfold mark_as_clicked, within.
  case_bool_decide as Hst.
  - eexists _, _. split; [done|]. split; [apply save_email_lookup|].
    split; [|done]. intros _. cbn.
    destruct (Email.opened_at email) eqn:Ho; cbn; by rewrite ?Ho.
  - exists (with_tracking
              (db_tracking db
               ++ [EmailTracking.mk pk "clicked" now (ip_address_db_value remote_addr)
                     user_agent])
              db), email.
    done.
Qed.

Lemma mark_as_opened_once (now pk : Z) (email : Email.t) (db : DB) :
  opened_once email → opened_once (mark_as_opened now pk email db).2.
Proof.
  intros [Hcount Hpast]. unfold mark_as_opened, within.
  case_bool_decide as Hst; [|done]. split; cbn.
  - destruct (Email.opened_at email) as [t|] eqn:Ht; [|lia].
    by destruct Hpast.
  - intros _ Hbad. repeat (apply elem_of_cons in Hbad as [Hbad|Hbad]; [done|]).
    by apply elem_of_nil in Hbad.
Qed.

Lemma mark_as_clicked_once (now pk : Z) (email : Email.t) (db : DB) :
  opened_once email → opened_once (mark_as_clicked now pk email db).2.
Proof.
  intros [Hcount Hpast]. unfold mark_as_clicked, within.
  case_bool_decide as Hst; [|done]. cbn.
  destruct (Email.opened_at email) as [t|] eqn:Ht;
    (split; cbn; [rewrite ?Ht; lia|]);
    intros _ Hbad;
    repeat (apply elem_of_cons in Hbad as [Hbad|Hbad]; [done|]);
    by apply elem_of_nil in Hbad.
Qed.

Lemma mark_as_opened_db (now pk : Z) (email : Email.t) (db : DB) :
  (mark_as_opened now pk email db).1.(db_emails) = db.(db_emails)
  ∨ (mark_as_opened now pk email db).1.(db_emails)
    = <[pk := (mark_as_opened now pk email db).2]> db.(db_emails).
Proof. unfold mark_as_opened. destruct (within _ _); [by right|by left]. Qed.

Lemma mark_as_clicked_db (now pk : Z) (email : Email.t) (db : DB) :
  (mark_as_clicked now pk email db).1.(db_emails) = db.(db_emails)
  ∨ (mark_as_clicked now pk email db).1.(db_emails)
    = <[pk := (mark_as_clicked now pk email db).2]> db.(db_emails).
Proof. unfold mark_as_clicked. destruct (within _ _); [by right|by left]. Qed.

(** X10.  Through the tracking callbacks [open_count] never exceeds 1: when
    every email counts at most its first opening, every email still does
    after a callback with any tracking id and any event, so each
    [open_count] is 0 or 1. *)
Theorem email_tracking_opened_once (now : Z) (remote_addr : option string)
    (user_agent : string) (tracking_id : Z) (event : string) (db : DB) :
  (∀ k e, db.(db_emails) !! k = Some e → opened_once e) →
  ∀ k e,
    (email_tracking now remote_addr user_agent tracking_id event db).1.(db_emails) !! k
    = Some e →
    opened_once e ∧ (0 ≤ e.(Email.open_count) ≤ 1)%Z.
Proof.
  intros Hinv.
  assert (∀ e, opened_once e → (0 ≤ e.(Email.open_count) ≤ 1)%Z) as Hbound.
  { intros e [Hc _]. destruct (Email.opened_at e); lia. }
  assert (∀ k e,
            (email_tracking now remote_addr user_agent tracking_id event db).1.(db_emails)
            !! k = Some e → opened_once e) as Hkeep; [|by eauto].
  unfold email_tracking.
  destruct (filter _ (rows (db_emails db))) as [|[pk email] l] eqn:Hfilter; [done|].
  destruct l; [|done].
  assert (opened_once email) as Hemail.
  { apply (Hinv pk).
    assert ((pk, email) ∈ filter
              (λ r : Z * Email.t, r.2.(Email.tracking_id) = tracking_id)
              (rows (db_emails db))) as Hin by (rewrite Hfilter; apply list_elem_of_here).
    by apply list_elem_of_filter in Hin as [_ ?%elem_of_rows]. }
  intros k e. cbn [fst].
  set (db1 := with_tracking _ db).
  destruct (String.eqb event "opened").
  - destruct (mark_as_opened_db now pk email db1) as [-> | ->]; [by apply Hinv|].
    rewrite lookup_insert. case_decide; [|by apply Hinv].
    intros [= <-]. by apply mark_as_opened_once.
  - destruct (String.eqb event "clicked"); [|by apply Hinv].
    destruct (mark_as_clicked_db now pk email db1) as [-> | ->]; [by apply Hinv|].
    rewrite lookup_insert. case_decide; [|by apply Hinv].
    intros [= <-]. by apply mark_as_clicked_once.
Qed.


(** ** Further properties of the default configuration *)

(** X11.  Besides the row it writes, a save changes only default
    configurations of the same user, and only when the saved instance is a
    default itself: every other row of the table is the same after the
    save. *)
Theorem save_other_rows (pk : option Z) (self : EmailConfiguration.t) (db : DB)
    (k : Z) (c : EmailConfiguration.t) :
  db.(db_email_configs) !! k = Some c →
  (save pk self db).2 ≠ Ok k →
  c.(EmailConfiguration.user) ≠ self.(EmailConfiguration.user)
  ∨ self.(EmailConfiguration.is_default) = false
  ∨ c.(EmailConfiguration.is_default) = false →
  (save pk self db).1.(db_email_configs) !! k = Some c.
Proof.
  intros Hk Hkey Hcase. unfold save in *.
  set (db1 := if EmailConfiguration.is_default self then _ else db) in *.
  assert (db1.(db_email_configs) !! k = Some c) as Hk1.
  { subst db1. destruct (EmailConfiguration.is_default self) eqn:Hd; [|done].
    cbn. rewrite lookup_fmap, Hk. cbn. f_equal. unfold clear_default.
    destruct Hcase as [Hu|[Hs|Hc]]; [|done|].
    - by rewrite bool_decide_false.
    - rewrite Hc. by rewrite andb_false_r. }
  destruct (name_taken _ self _); [done|].
  cbn in Hkey |- *. rewrite lookup_insert_ne; [done|]. congruence.
Qed.

(** X12.  A save refused by the uniqueness of (user, name) has already
    cleared the defaults: when the instance is a default and another row of
    its user has its name, the save raises [IntegrityError] and leaves the
    user without any default configuration. *)
Theorem save_refused_clears_default (pk : option Z) (self : EmailConfiguration.t)
    (db : DB) (k' : Z) (c' : EmailConfiguration.t) :
  db.(db_email_configs) !! k' = Some c' →
  pk ≠ Some k' →
  c'.(EmailConfiguration.user) = self.(EmailConfiguration.user) →
  c'.(EmailConfiguration.name) = self.(EmailConfiguration.name) →
  (save pk self db).2 = Raise IntegrityError
  ∧ (self.(EmailConfiguration.is_default) = true →
     ∀ k c, (save pk self db).1.(db_email_configs) !! k = Some c →
            c.(EmailConfiguration.user) = self.(EmailConfiguration.user) →
            c.(EmailConfiguration.is_default) = false)
  ∧ (self.(EmailConfiguration.is_default) = false → (save pk self db).1 = db).
Proof.
  intros Hk Hpk Hu Hn. unfold save.
  set (db1 := if EmailConfiguration.is_default self then _ else db).
  assert (∃ c1, db1.(db_email_configs) !! k' = Some c1
                ∧ c1.(EmailConfiguration.user) = self.(EmailConfiguration.user)
                ∧ c1.(EmailConfiguration.name) = self.(EmailConfiguration.name))
    as (c1 & Hk1 & Hu1 & Hn1).
  { subst db1. destruct (EmailConfiguration.is_default self); [|by exists c'].
    exists (clear_default self.(EmailConfiguration.user) c'). cbn.
    rewrite lookup_fmap, Hk. split; [done|]. rewrite clear_default_user.
    split; [done|]. unfold clear_default. by destruct (_ && _). }
  assert (name_taken (default (next_pk db1.(db_email_configs)) pk) self
            db1.(db_email_configs) = true) as ->.
  { unfold name_taken. apply existsb_exists. exists (k', c1). split.
    - apply list_elem_of_In, elem_of_rows. done.
    - apply bool_decide_eq_true. cbn. split; [|done].
      destruct pk as [k0|]; cbn; [congruence|].
      intros ->. by rewrite next_pk_fresh in Hk1. }
  cbn. split; [done|]. subst db1.
  destruct (EmailConfiguration.is_default self); split; try done.
  intros _ k c. apply save_cleared.
Qed.

(** ** Further properties of the targets of a campaign *)

(** X13.  A campaign that targets neither all leads nor any status,
    priority, source or explicit lead has no targets: [get_target_leads]
    returns the empty list, without an error. *)
Theorem get_target_leads_no_criteria (pk : Z) (self : EmailCampaign.t) (db : DB) :
  self.(EmailCampaign.target_all_leads) = false →
  self.(EmailCampaign.target_statuses) = [] →
  self.(EmailCampaign.target_priorities) = [] →
  self.(EmailCampaign.target_sources) = [] →
  specific_leads pk db = [] →
  get_target_leads pk self db = Ok [].
Proof.
  intros Hall Hs Hp Hso Hsp. unfold get_target_leads.
  by rewrite Hall, Hs, Hp, Hso, Hsp.
Qed.

Lemma target_statuses_query (pk : Z) (self : EmailCampaign.t) (db : DB) :
  self.(EmailCampaign.target_all_leads) = false →
  self.(EmailCampaign.target_statuses) ≠ [] →
  self.(EmailCampaign.target_priorities) = [] →
  self.(EmailCampaign.target_sources) = [] →
  specific_leads pk db = [] →
  get_target_leads pk self db
  = Ok (order_by_desc Lead.created_at
          (filter (λ r : Z * Lead.t, negb (Text.is_empty r.2.(Lead.email)))
             (filter (λ _ : Z * Lead.t, true)
                (filter (λ r : Z * Lead.t,
                           within r.2.(Lead.status)
                             self.(EmailCampaign.target_statuses))
                   (rows db.(db_leads)))))).
Proof.
  intros Hall Hs Hp Hso Hsp. unfold get_target_leads.
  rewrite Hall, Hp, Hso, Hsp.
  by destruct (EmailCampaign.target_statuses self).
Qed.

(** X14.  A campaign that targets statuses only gets the leads whose status
    is one of them and whose email is not empty, each once. *)
Theorem get_target_leads_statuses (pk : Z) (self : EmailCampaign.t) (db : DB) :
  self.(EmailCampaign.target_all_leads) = false →
  self.(EmailCampaign.target_statuses) ≠ [] →
  self.(EmailCampaign.target_priorities) = [] →
  self.(EmailCampaign.target_sources) = [] →
  specific_leads pk db = [] →
  ∃ leads,
    get_target_leads pk self db = Ok leads
    ∧ NoDup leads.*1
    ∧ (∀ k lead,
         (k, lead) ∈ leads
         ↔ db.(db_leads) !! k = Some lead
           ∧ lead.(Lead.status) ∈ self.(EmailCampaign.target_statuses)
           ∧ lead.(Lead.email) ≠ "").
Proof.
  clear. intros Hall Hs Hp Hso Hsp.
  eexists. split; [by apply target_statuses_query|]. split.
  - rewrite order_by_desc_Permutation.
    do 3 apply NoDup_filter_keys. apply NoDup_rows_keys.
  - intros k lead. rewrite order_by_desc_Permutation.
    rewrite !list_elem_of_filter, elem_of_rows. cbn. unfold within.
    rewrite bool_decide_spec.
    destruct (Lead.email lead); cbn; intuition congruence.
Qed.

(** X15.  A campaign with two or more kinds of targets cannot be resolved:
    the union of the second kind makes a combined query, on which the
    filter on the email raises [NotSupportedError]; [create_campaign_emails]
    then raises as well and writes nothing. *)
Theorem get_target_leads_two_criteria (now pk : Z) (self : EmailCampaign.t) (db : DB) :
  self.(EmailCampaign.target_all_leads) = false →
  2 ≤ length (filter (λ b : bool, b = true)
                [truthy self.(EmailCampaign.target_statuses);
                 truthy self.(EmailCampaign.target_priorities);
                 truthy self.(EmailCampaign.target_sources);
                 truthy (specific_leads pk db)]) →
  get_target_leads pk self db = Raise NotSupportedError
  ∧ create_campaign_emails now pk self db = (db, Raise NotSupportedError).
Proof.
  intros Hall Htwo.
  assert (get_target_leads pk self db = Raise NotSupportedError) as Hraise.
  { unfold get_target_leads. rewrite Hall.
    destruct (truthy (EmailCampaign.target_statuses self));
      destruct (truthy (EmailCampaign.target_priorities self));
      destruct (truthy (EmailCampaign.target_sources self));
      destruct (truthy (specific_leads pk db));
      vm_compute in Htwo; try lia; reflexivity. }
  split; [done|]. unfold create_campaign_emails. by rewrite Hraise.
Qed.


(** ** Further properties of the sequence engine *)

(** X16.  A gap ends the sequence: when the step after the current one is
    missing or switched off, the enrollment is completed, whatever steps the
    sequence has after it. *)
Theorem schedule_gap_completes (now pk : Z)
    (enrollment : EmailSequenceEnrollment.t) (db : DB) :
  (∀ k st, db.(db_steps) !! k = Some st →
           st.(EmailSequenceStep.sequence) = enrollment.(EmailSequenceEnrollment.sequence) →
           st.(EmailSequenceStep.step_number)
           = (enrollment.(EmailSequenceEnrollment.current_step) + 1)%Z →
           st.(EmailSequenceStep.is_active) = false) →
  ∃ completed,
    _schedule_next_step now pk enrollment db
    = Some (save_enrollment pk completed db, completed)
    ∧ completed.(EmailSequenceEnrollment.is_active) = false
    ∧ completed.(EmailSequenceEnrollment.completed_at) = Some now
    ∧ completed.(EmailSequenceEnrollment.current_step)
      = enrollment.(EmailSequenceEnrollment.current_step)
    ∧ completed.(EmailSequenceEnrollment.emails_sent)
      = enrollment.(EmailSequenceEnrollment.emails_sent).
Proof.
  intros Hgap.
  exists (EmailSequenceEnrollment.set_completed_at (Some now)
            (EmailSequenceEnrollment.set_is_active false enrollment)).
  split; [|done].
  apply schedule_next_step_complete.
  destruct (find_step _ _ db) as [[k st]|] eqn:Hfind; [|done].
  apply find_step_Some in Hfind as (Hk & Hs & Hn & Ha).
  by rewrite (Hgap k st Hk Hs Hn) in Ha.
Qed.

(** X17.  A step with a status condition is skipped for a lead whose status
    is not in the list, like a step for a lead that replied: the call goes
    on as a call on the enrollment moved to the step's number, with the
    Email table as it was. *)
Theorem schedule_send_only_if_status (now pk : Z)
    (enrollment : EmailSequenceEnrollment.t) (db : DB)
    (k : Z) (next_step : EmailSequenceStep.t) :
  find_step enrollment.(EmailSequenceEnrollment.sequence)
    (enrollment.(EmailSequenceEnrollment.current_step) + 1)%Z db
  = Some (k, next_step) →
  next_step.(EmailSequenceStep.send_only_if_status) ≠ [] →
  enrollment.(EmailSequenceEnrollment.lead).(Lead.status)
  ∉ next_step.(EmailSequenceStep.send_only_if_status) →
  let skipped :=
    EmailSequenceEnrollment.set_current_step
      next_step.(EmailSequenceStep.step_number) enrollment in
  _schedule_next_step now pk enrollment db
  = _schedule_next_step now pk skipped (save_enrollment pk skipped db)
  ∧ (save_enrollment pk skipped db).(db_emails) = db.(db_emails)
  ∧ skipped.(EmailSequenceEnrollment.emails_sent)
    = enrollment.(EmailSequenceEnrollment.emails_sent).
Proof.
  intros Hfind Hlist Hstatus skipped. split; [|done].
  apply (schedule_next_step_skip now pk enrollment db k next_step Hfind).
  right. unfold within. rewrite bool_decide_false by done.
  by destruct (EmailSequenceStep.send_only_if_status next_step).
Qed.

(** X18.  A step whose template has a syntax error stops the sequence
    without a trace: the step applies, but the call returns the database
    and the enrollment as they were, with or without a configuration of the
    owner, so that the next call meets the same step again. *)
Theorem schedule_template_error (now pk : Z)
    (enrollment : EmailSequenceEnrollment.t) (db : DB)
    (k : Z) (next_step : EmailSequenceStep.t) :
  find_step enrollment.(EmailSequenceEnrollment.sequence)
    (enrollment.(EmailSequenceEnrollment.current_step) + 1)%Z db
  = Some (k, next_step) →
  next_step.(EmailSequenceStep.send_only_if_not_replied)
  && enrollment.(EmailSequenceEnrollment.has_replied) = false →
  truthy next_step.(EmailSequenceStep.send_only_if_status)
  && negb (within enrollment.(EmailSequenceEnrollment.lead).(Lead.status)
             next_step.(EmailSequenceStep.send_only_if_status)) = false →
  render_template next_step.(EmailSequenceStep.template)
    enrollment.(EmailSequenceEnrollment.lead)
    enrollment.(EmailSequenceEnrollment.sequence_user) now
  = Raise TemplateSyntaxError →
  _schedule_next_step now pk enrollment db = Some (db, enrollment).
Proof.
  intros Hfind Hreplied Hgate Hrender.
  rewrite (schedule_next_step_send now pk enrollment db k next_step) by done.
  unfold send_step. rewrite Hrender. by destruct (find_email_config _ db) as [[? ?]|].
Qed.

Lemma send_step_emails (now pk : Z) (enrollment : EmailSequenceEnrollment.t)
    (next_step : EmailSequenceStep.t) (db : DB) :
  (∀ k e, db.(db_emails) !! k = Some e →
          (send_step now pk enrollment next_step db).1.(db_emails) !! k = Some e)
  ∧ size (send_step now pk enrollment next_step db).1.(db_emails)
    ≤ S (size db.(db_emails))
  ∧ ((send_step now pk enrollment next_step db).2.(EmailSequenceEnrollment.emails_sent)
     ≤ enrollment.(EmailSequenceEnrollment.emails_sent) + 1)%Z
  ∧ (enrollment.(EmailSequenceEnrollment.emails_sent)
     ≤ (send_step now pk enrollment next_step db).2.(EmailSequenceEnrollment.emails_sent))%Z.
Proof.
  unfold send_step.
  destruct (find_email_config _ db) as [[ck email_config]|];
    [|cbn [fst snd]; split; [done|split; [lia|split; lia]]].
  destruct (render_template _ _ _ now) as [rendered|e];
    [|cbn [fst snd]; split; [done|split; [lia|split; lia]]].
  set (key := next_pk db.(db_emails)).
  set (email := step_email now key enrollment next_step email_config rendered).
  set (advanced := EmailSequenceEnrollment.set_last_email_sent _ _).
  destruct (send_email_table now key email
              (save_enrollment pk advanced (save_email key email db)))
    as (email' & Htable & _).
  cbn [fst snd]. rewrite Htable. cbn [save_enrollment with_enrollments save_email
                                       with_emails db_emails].
  rewrite insert_insert_eq. split; [|split; [|split; cbn; lia]].
  - intros k e Hk. rewrite lookup_insert_ne; [done|].
    intros <-. subst key. by rewrite next_pk_fresh in Hk.
  - rewrite map_size_insert_None by apply next_pk_fresh. done.
Qed.

Lemma schedule_steps_emails (fuel : nat) (now pk : Z)
    (enrollment : EmailSequenceEnrollment.t) (db db' : DB)
    (enrollment' : EmailSequenceEnrollment.t) :
  schedule_steps fuel now pk enrollment db = Some (db', enrollment') →
  (∀ k e, db.(db_emails) !! k = Some e → db'.(db_emails) !! k = Some e)
  ∧ size db'.(db_emails) ≤ S (size db.(db_emails))
  ∧ (enrollment.(EmailSequenceEnrollment.emails_sent)
     ≤ enrollment'.(EmailSequenceEnrollment.emails_sent)
     ≤ enrollment.(EmailSequenceEnrollment.emails_sent) + 1)%Z.
Proof.
  revert enrollment db. induction fuel as [|fuel IH]; intros enrollment db; [done|].
  cbn [schedule_steps].
  destruct (find_step _ _ db) as [[k st]|].
  - destruct (_ && _).
    { intros Hrun. apply IH in Hrun. exact Hrun. }
    destruct (_ && _).
    { intros Hrun. apply IH in Hrun. exact Hrun. }
    intros [= Hrun].
    destruct (send_step_emails now pk enrollment st db) as (H1 & H2 & H3 & H4).
    rewrite Hrun in H1, H2, H3, H4. cbn [fst snd] in *.
    split; [done|]. split; [done|]. lia.
  - intros [= <- <-]. cbn. split; [done|]. split; lia.
Qed.

(** X19.  A call of [_schedule_next_step] sends at most one email and never
    writes to an email that exists: every row of the Email table is the same
    after the call, the table has at most one row more, and [emails_sent] of
    the enrollment grows by at most one. *)
Theorem schedule_at_most_one_email (now pk : Z)
    (enrollment : EmailSequenceEnrollment.t) (db : DB) :
  ∃ db' enrollment',
    _schedule_next_step now pk enrollment db = Some (db', enrollment')
    ∧ (∀ k e, db.(db_emails) !! k = Some e → db'.(db_emails) !! k = Some e)
    ∧ size db'.(db_emails) ≤ S (size db.(db_emails))
    ∧ (enrollment.(EmailSequenceEnrollment.emails_sent)
       ≤ enrollment'.(EmailSequenceEnrollment.emails_sent)
       ≤ enrollment.(EmailSequenceEnrollment.emails_sent) + 1)%Z.
Proof.
  destruct (schedule_next_step_total now pk enrollment db) as [[db' enrollment'] Hrun].
  exists db', enrollment'. split; [done|].
  by apply (schedule_steps_emails _ _ _ _ _ _ _ Hrun).
Qed.

Lemma schedule_steps_all_skipped (fuel : nat) (now pk : Z)
    (enrollment : EmailSequenceEnrollment.t) (db db' : DB)
    (enrollment' : EmailSequenceEnrollment.t) :
  enrollment.(EmailSequenceEnrollment.has_replied) = true →
  (∀ k st, db.(db_steps) !! k = Some st →
           st.(EmailSequenceStep.sequence) = enrollment.(EmailSequenceEnrollment.sequence) →
           st.(EmailSequenceStep.is_active) = true →
           st.(EmailSequenceStep.send_only_if_not_replied) = true) →
  schedule_steps fuel now pk enrollment db = Some (db', enrollment') →
  db'.(db_emails) = db.(db_emails)
  ∧ db'.(db_tracking) = db.(db_tracking)
  ∧ enrollment'.(EmailSequenceEnrollment.is_active) = false
  ∧ enrollment'.(EmailSequenceEnrollment.completed_at) = Some now
  ∧ enrollment'.(EmailSequenceEnrollment.emails_sent)
    = enrollment.(EmailSequenceEnrollment.emails_sent)
  ∧ (enrollment.(EmailSequenceEnrollment.current_step)
     ≤ enrollment'.(EmailSequenceEnrollment.current_step))%Z
  ∧ db'.(db_enrollments) !! pk = Some enrollment'.
Proof.
  revert enrollment db. induction fuel as [|fuel IH]; intros enrollment db Hreplied Hall;
    [done|].
  cbn [schedule_steps].
  destruct (find_step _ _ db) as [[k st]|] eqn:Hfind.
  - apply find_step_Some in Hfind as (Hk & Hs & Hn & Ha).
    rewrite (Hall k st Hk Hs Ha), Hreplied. cbn [andb].
    intros Hrun. apply IH in Hrun; [|done|done].
    cbn in Hrun. destruct Hrun as (? & ? & ? & ? & ? & ? & ?).
    repeat split; try done. lia.
  - intros [= <- <-]. cbn. repeat split; try done; try lia. apply lookup_insert_eq.
Qed.

(** X20.  A lead that replied gets nothing more from a sequence whose active
    steps all ask for no reply: the call passes over every remaining step,
    creates no email, and completes the enrollment. *)
Theorem schedule_replied_completes (now pk : Z)
    (enrollment : EmailSequenceEnrollment.t) (db : DB) :
  enrollment.(EmailSequenceEnrollment.has_replied) = true →
  (∀ k st, db.(db_steps) !! k = Some st →
           st.(EmailSequenceStep.sequence) = enrollment.(EmailSequenceEnrollment.sequence) →
           st.(EmailSequenceStep.is_active) = true →
           st.(EmailSequenceStep.send_only_if_not_replied) = true) →
  ∃ db' enrollment',
    _schedule_next_step now pk enrollment db = Some (db', enrollment')
    ∧ db'.(db_emails) = db.(db_emails)
    ∧ db'.(db_tracking) = db.(db_tracking)
    ∧ enrollment'.(EmailSequenceEnrollment.is_active) = false
    ∧ enrollment'.(EmailSequenceEnrollment.completed_at) = Some now
    ∧ enrollment'.(EmailSequenceEnrollment.emails_sent)
      = enrollment.(EmailSequenceEnrollment.emails_sent)
    ∧ (enrollment.(EmailSequenceEnrollment.current_step)
       ≤ enrollment'.(EmailSequenceEnrollment.current_step))%Z
    ∧ db'.(db_enrollments) !! pk = Some enrollment'.
Proof.
  intros Hreplied Hall.
  destruct (schedule_next_step_total now pk enrollment db) as [[db' enrollment'] Hrun].
  exists db', enrollment'. split; [done|].
  by apply (schedule_steps_all_skipped _ _ _ _ _ _ _ Hreplied Hall Hrun).
Qed.


(** What [send_email] leaves alone. *)
Lemma send_email_frame (now pk : Z) (email : Email.t) (db : DB) :
  (send_email now pk email db).1.1.(db_email_configs) = db.(db_email_configs)
  ∧ (send_email now pk email db).1.1.(db_steps) = db.(db_steps)
  ∧ (send_email now pk email db).1.1.(db_leads) = db.(db_leads)
  ∧ (send_email now pk email db).1.1.(db_enrollments) = db.(db_enrollments).
Proof.
  unfold send_email. destruct (transport pk _) as [n|msg]; [|done].
  by case_bool_decide.
Qed.

Lemma send_step_enrollments (now pk : Z) (enrollment : EmailSequenceEnrollment.t)
    (next_step : EmailSequenceStep.t) (db : DB) :
  db.(db_enrollments) !! pk = Some enrollment →
  (send_step now pk enrollment next_step db).1.(db_enrollments)
  = <[pk := (send_step now pk enrollment next_step db).2]> db.(db_enrollments)
  ∧ (send_step now pk enrollment next_step db).2.(EmailSequenceEnrollment.sequence)
    = enrollment.(EmailSequenceEnrollment.sequence)
  ∧ (send_step now pk enrollment next_step db).2.(EmailSequenceEnrollment.lead_id)
    = enrollment.(EmailSequenceEnrollment.lead_id)
  ∧ (send_step now pk enrollment next_step db).1.(db_steps) = db.(db_steps)
  ∧ (send_step now pk enrollment next_step db).1.(db_leads) = db.(db_leads)
  ∧ (send_step now pk enrollment next_step db).1.(db_email_configs)
    = db.(db_email_configs).
Proof.
  intros Hsync. unfold send_step.
  destruct (find_email_config _ db) as [[ck email_config]|];
    [|cbn [fst snd]; by rewrite insert_id].
  destruct (render_template _ _ _ now) as [rendered|e];
    [|cbn [fst snd]; by rewrite insert_id].
  cbn [fst snd].
  match goal with
  | |- context [send_email now ?key ?email ?d] =>
      destruct (send_email_frame now key email d) as (Hc & Hs & Hl & He)
  end.
  rewrite Hc, Hs, Hl, He. done.
Qed.

Lemma schedule_steps_enrollments (fuel : nat) (now pk : Z)
    (enrollment : EmailSequenceEnrollment.t) (db db' : DB)
    (enrollment' : EmailSequenceEnrollment.t) :
  schedule_steps fuel now pk enrollment db = Some (db', enrollment') →
  db.(db_enrollments) !! pk = Some enrollment →
  db'.(db_enrollments) = <[pk := enrollment']> db.(db_enrollments)
  ∧ enrollment'.(EmailSequenceEnrollment.sequence)
    = enrollment.(EmailSequenceEnrollment.sequence)
  ∧ enrollment'.(EmailSequenceEnrollment.lead_id)
    = enrollment.(EmailSequenceEnrollment.lead_id)
  ∧ db'.(db_steps) = db.(db_steps)
  ∧ db'.(db_leads) = db.(db_leads)
  ∧ db'.(db_email_configs) = db.(db_email_configs).
Proof.
  revert enrollment db. induction fuel as [|fuel IH]; intros enrollment db; [done|].
  cbn [schedule_steps].
  assert (∀ skipped : EmailSequenceEnrollment.t,
            skipped.(EmailSequenceEnrollment.sequence)
            = enrollment.(EmailSequenceEnrollment.sequence) →
            skipped.(EmailSequenceEnrollment.lead_id)
            = enrollment.(EmailSequenceEnrollment.lead_id) →
            schedule_steps fuel now pk skipped (save_enrollment pk skipped db)
            = Some (db', enrollment') →
            db'.(db_enrollments) = <[pk := enrollment']> db.(db_enrollments)
            ∧ enrollment'.(EmailSequenceEnrollment.sequence)
              = enrollment.(EmailSequenceEnrollment.sequence)
            ∧ enrollment'.(EmailSequenceEnrollment.lead_id)
              = enrollment.(EmailSequenceEnrollment.lead_id)
            ∧ db'.(db_steps) = db.(db_steps)
            ∧ db'.(db_leads) = db.(db_leads)
            ∧ db'.(db_email_configs) = db.(db_email_configs)) as Hskip.
  { intros skipped Hs Hl Hrun. apply IH in Hrun; [|apply lookup_insert_eq].
    destruct Hrun as (Htable & Hs' & Hl' & Hrest).
    cbn in Htable. rewrite insert_insert_eq in Htable.
    split; [done|]. split; [congruence|]. split; [congruence|]. exact Hrest. }
  destruct (find_step _ _ db) as [[k st]|].
  - destruct (_ && _).
    { intros Hrun _. by apply Hskip in Hrun. }
    destruct (_ && _).
    { intros Hrun _. by apply Hskip in Hrun. }
    intros [= Hrun] Hsync.
    pose proof (send_step_enrollments now pk enrollment st db Hsync) as Hstep.
    by rewrite Hrun in Hstep.
  - intros [= <- <-] _. done.
Qed.

(** X21.  [_schedule_next_step] writes no enrollment but its own: the call
    leaves the row of the enrollment equal to the instance it returns, which
    keeps its sequence and its lead, and leaves every other enrollment, the
    steps, the leads and the configurations as they were. *)
Theorem schedule_writes_own_enrollment (now pk : Z)
    (enrollment : EmailSequenceEnrollment.t) (db : DB) :
  db.(db_enrollments) !! pk = Some enrollment →
  ∃ db' enrollment',
    _schedule_next_step now pk enrollment db = Some (db', enrollment')
    ∧ db'.(db_enrollments) = <[pk := enrollment']> db.(db_enrollments)
    ∧ enrollment'.(EmailSequenceEnrollment.sequence)
      = enrollment.(EmailSequenceEnrollment.sequence)
    ∧ enrollment'.(EmailSequenceEnrollment.lead_id)
      = enrollment.(EmailSequenceEnrollment.lead_id)
    ∧ db'.(db_steps) = db.(db_steps)
    ∧ db'.(db_leads) = db.(db_leads)
    ∧ db'.(db_email_configs) = db.(db_email_configs).
Proof.
  intros Hsync.
  destruct (schedule_next_step_total now pk enrollment db) as [[db' enrollment'] Hrun].
  exists db', enrollment'. split; [done|].
  by apply (schedule_steps_enrollments _ _ _ _ _ _ _ Hrun).
Qed.

(** ** Enrolling a lead in a sequence *)

Lemma enrollments_of_nonempty (sequence lead : Z) (db : DB) :
  enrollments_of sequence lead db ≠ []
  ↔ ∃ k e, db.(db_enrollments) !! k = Some e
           ∧ e.(EmailSequenceEnrollment.sequence) = sequence
           ∧ e.(EmailSequenceEnrollment.lead_id) = lead.
Proof.
  unfold enrollments_of. split.
  - intros Hne. destruct (filter _ _) as [|[k e] l] eqn:Hl; [done|].
    assert ((k, e) ∈ (k, e) :: l) as Hin by apply list_elem_of_here.
    rewrite <- Hl in Hin. apply list_elem_of_filter in Hin as [[Hs Hlead] Hin%elem_of_rows].
    by exists k, e.
  - intros (k & e & Hk & Hs & Hlead) Hnil.
    assert ((k, e) ∈ filter
              (λ r : Z * EmailSequenceEnrollment.t,
                 r.2.(EmailSequenceEnrollment.sequence) = sequence
                 ∧ r.2.(EmailSequenceEnrollment.lead_id) = lead)
              (rows db.(db_enrollments))) as Hin.
    { apply list_elem_of_filter. split; [done|]. by apply elem_of_rows. }
    rewrite Hnil in Hin. by apply elem_of_nil in Hin.
Qed.

Lemma enrollments_of_created (sequence lead key : Z) (e : EmailSequenceEnrollment.t)
    (db db' : DB) :
  enrollments_of sequence lead db = [] →
  e.(EmailSequenceEnrollment.sequence) = sequence →
  e.(EmailSequenceEnrollment.lead_id) = lead →
  db'.(db_enrollments) = <[key := e]> db.(db_enrollments) →
  enrollments_of sequence lead db' = [(key, e)].
Proof.
  intros Hnone Hs Hl Htable. unfold enrollments_of. rewrite Htable.
  apply filter_rows_unique; [apply lookup_insert_eq|done|].
  intros k y Hk [Hs' Hl']. destruct (decide (k = key)) as [|Hne]; [done|].
  rewrite lookup_insert_ne in Hk by done.
  exfalso. revert Hnone. apply enrollments_of_nonempty. by exists k, y.
Qed.

(** What a call of [enroll_lead_in_sequence] leaves behind: the pair has an
    enrollment, and so has every pair that had one. *)
Lemma enroll_lead_in_sequence_enrolled (now lead_id : Z) (lead : Lead.t)
    (sequence_id : Z) (sequence : EmailSequence.t) (db : DB) :
  ∃ db' created,
    enroll_lead_in_sequence now lead_id lead sequence_id sequence db
    = Some (db', created)
    ∧ (created = true ↔ enrollments_of sequence_id lead_id db = [])
    ∧ (∃ key e, db'.(db_enrollments) = <[key := e]> db.(db_enrollments)
                ∧ e.(EmailSequenceEnrollment.sequence) = sequence_id
                ∧ e.(EmailSequenceEnrollment.lead_id) = lead_id
                ∧ (created = true → db.(db_enrollments) !! key = None)
                ∧ (created = false → db' = db))
    ∧ db'.(db_leads) = db.(db_leads).
Proof.
  unfold enroll_lead_in_sequence.
  destruct (enrollments_of sequence_id lead_id db) as [|[k0 e0] l] eqn:Hrows.
  - set (key := next_pk db.(db_enrollments)).
    set (enrollment := EmailSequenceEnrollment.mk _ _ _ _ _ _ _ _ _ _).
    case_bool_decide.
    + destruct (schedule_next_step_total now key enrollment
                  (save_enrollment key enrollment db)) as [[db1 e1] Hrun].
      rewrite Hrun. exists db1, true. split; [done|]. split; [done|].
      apply schedule_steps_enrollments in Hrun as (Ht & Hs & Hl & _ & Hleads & _);
        [|apply lookup_insert_eq].
      cbn in Ht. rewrite insert_insert_eq in Ht.
      split; [|done].
      exists key, e1. split; [done|]. split; [done|]. split; [done|].
      split; [intros _; apply next_pk_fresh|done].
    + exists (save_enrollment key enrollment db), true.
      split; [done|]. split; [done|]. split; [|done].
      exists key, enrollment. split; [done|]. split; [done|]. split; [done|].
      split; [intros _; apply next_pk_fresh|done].
  - exists db, false. split; [done|]. split; [done|]. split; [|done].
    assert ((k0, e0) ∈ enrollments_of sequence_id lead_id db) as Hin
      by (rewrite Hrows; apply list_elem_of_here).
    unfold enrollments_of in Hin.
    apply list_elem_of_filter in Hin as [[Hs Hl] Hin%elem_of_rows].
    exists k0, e0. split; [by rewrite insert_id|]. done.
Qed.

(** X22.  Enrolling is idempotent: for a lead that is not in the sequence
    the first call creates one enrollment and returns [True]; a second call,
    at any later time, returns [False] and changes nothing, so that a lead
    is never enrolled twice in a sequence through this function. *)
Theorem enroll_lead_in_sequence_once (now later lead_id : Z) (lead : Lead.t)
    (sequence_id : Z) (sequence : EmailSequence.t) (db : DB) :
  enrollments_of sequence_id lead_id db = [] →
  ∃ db1,
    enroll_lead_in_sequence now lead_id lead sequence_id sequence db = Some (db1, true)
    ∧ length (enrollments_of sequence_id lead_id db1) = 1
    ∧ size db1.(db_enrollments) = S (size db.(db_enrollments))
    ∧ enroll_lead_in_sequence later lead_id lead sequence_id sequence db1
      = Some (db1, false).
Proof.
  intros Hnone.
  destruct (enroll_lead_in_sequence_enrolled now lead_id lead sequence_id sequence db)
    as (db1 & created & Hrun & Hcreated & (key & e & Ht & Hs & Hl & Hfresh & _) & _).
  apply Hcreated in Hnone as Htrue. subst created.
  exists db1. split; [done|].
  pose proof (enrollments_of_created _ _ key e db db1 Hnone Hs Hl Ht) as Hone.
  split; [by rewrite Hone|].
  split; [rewrite Ht; by apply map_size_insert_None, Hfresh|].
  unfold enroll_lead_in_sequence. by rewrite Hone.
Qed.

(** X23.  A sequence that does not start at once sends nothing at
    enrollment: with [delay_start_days] other than zero the call creates
    the enrollment at step 0, active, and leaves the Email table and the
    tracking log as they were. *)
Theorem enroll_lead_in_sequence_delayed (now lead_id : Z) (lead : Lead.t)
    (sequence_id : Z) (sequence : EmailSequence.t) (db : DB) :
  enrollments_of sequence_id lead_id db = [] →
  sequence.(EmailSequence.delay_start_days) ≠ 0%Z →
  ∃ db1 key e,
    enroll_lead_in_sequence now lead_id lead sequence_id sequence db = Some (db1, true)
    ∧ db1.(db_enrollments) = <[key := e]> db.(db_enrollments)
    ∧ db.(db_enrollments) !! key = None
    ∧ e.(EmailSequenceEnrollment.current_step) = 0%Z
    ∧ e.(EmailSequenceEnrollment.is_active) = true
    ∧ e.(EmailSequenceEnrollment.emails_sent) = 0%Z
    ∧ db1.(db_emails) = db.(db_emails)
    ∧ db1.(db_tracking) = db.(db_tracking).
Proof.
  intros Hnone Hdelay. unfold enroll_lead_in_sequence.
  rewrite Hnone, bool_decide_false by done.
  eexists _, _, _. split; [done|]. split; [done|].
  split; [apply next_pk_fresh|done].
Qed.

Lemma enroll_in_all_enrolled (now lead_id : Z) (lead : Lead.t)
    (sequences : list (Z * EmailSequence.t)) (db : DB) :
  ∃ db',
    enroll_in_all now lead_id lead sequences db = Some db'
    ∧ (∀ sequence_id sequence,
         (sequence_id, sequence) ∈ sequences →
         enrollments_of sequence_id lead_id db' ≠ [])
    ∧ (∀ sequence_id lead_id',
         enrollments_of sequence_id lead_id' db ≠ [] →
         enrollments_of sequence_id lead_id' db' ≠ [])
    ∧ db'.(db_leads) = db.(db_leads).
Proof.
  revert db. induction sequences as [|[sid s] sequences IH]; intros db.
  { exists db. split; [done|]. split; [|done].
    intros ? ? Hbad. by apply elem_of_nil in Hbad. }
  cbn [enroll_in_all].
  destruct (enroll_lead_in_sequence_enrolled now lead_id lead sid s db)
    as (db1 & created & Hrun & Hcreated & (key & e & Ht & Hs & Hl & Hfresh & Hsame) & Hleads).
  rewrite Hrun.
  destruct (IH db1) as (db' & Hall & Hin & Hkeep & Hleads').
  assert (∀ sequence_id lead_id',
            enrollments_of sequence_id lead_id' db ≠ [] →
            enrollments_of sequence_id lead_id' db1 ≠ []) as Hkeep1.
  { destruct created; [|by rewrite Hsame].
    intros sequence_id lead_id' (k & y & Hk & Hy)%enrollments_of_nonempty.
    apply enrollments_of_nonempty. exists k, y. split; [|done].
    rewrite Ht, lookup_insert_ne; [done|].
    intros <-. rewrite Hfresh in Hk; done. }
  exists db'. split; [done|]. split; [|split; [|congruence]].
  - intros sequence_id sequence [[= -> ->]|Hmem]%elem_of_cons; [|by eapply Hin].
    apply Hkeep, enrollments_of_nonempty. exists key, e.
    split; [|done]. rewrite Ht. apply lookup_insert_eq.
  - intros sequence_id lead_id' Hne. by apply Hkeep, Hkeep1.
Qed.

(** X24.  The handler of a created lead enrolls it everywhere it should:
    after [trigger_email_sequences] for a new lead, the lead has an
    enrollment in every active sequence with [trigger_on_lead_creation],
    every enrollment that existed is kept, and the Lead table is as it
    was. *)
Theorem trigger_created_enrolls (now : Z) (sequences : gmap Z EmailSequence.t)
    (pk : Z) (instance : Lead.t) (db : DB) :
  ∃ db',
    trigger_email_sequences now sequences pk instance true db = Some db'
    ∧ (∀ sequence_id sequence,
         sequences !! sequence_id = Some sequence →
         sequence.(EmailSequence.trigger_on_lead_creation) = true →
         sequence.(EmailSequence.is_active) = true →
         enrollments_of sequence_id pk db' ≠ [])
    ∧ (∀ sequence_id lead_id,
         enrollments_of sequence_id lead_id db ≠ [] →
         enrollments_of sequence_id lead_id db' ≠ [])
    ∧ db'.(db_leads) = db.(db_leads).
Proof.
  unfold trigger_email_sequences.
  destruct (enroll_in_all_enrolled now pk instance
              (active_sequences EmailSequence.trigger_on_lead_creation sequences) db)
    as (db' & Hrun & Hin & Hkeep & Hleads).
  exists db'. split; [done|]. split; [|done].
  intros sequence_id sequence Hk Hcreation Hactive.
  apply (Hin sequence_id sequence). unfold active_sequences.
  rewrite merge_sort_Permutation. apply list_elem_of_filter.
  split; [|by apply elem_of_rows].
  cbn. by rewrite Hcreation, Hactive.
Qed.

(** X25.  The handler of a saved lead compares the instance with the row
    of the table: when the row has the status and the priority of the
    instance, as it has once the save that sends the signal has written it,
    or when there is no row, it enrolls the lead nowhere. *)
Theorem trigger_saved_no_change (now : Z) (sequences : gmap Z EmailSequence.t)
    (pk : Z) (instance : Lead.t) (db : DB) :
  (∀ old_instance,
     db.(db_leads) !! pk = Some old_instance →
     old_instance.(Lead.status) = instance.(Lead.status)
     ∧ old_instance.(Lead.priority) = instance.(Lead.priority)) →
  trigger_email_sequences now sequences pk instance false db = Some db.
Proof.
  intros Hrow. unfold trigger_email_sequences.
  destruct (db_leads db !! pk) as [old_instance|]; [|done].
  destruct (Hrow old_instance eq_refl) as [Hs Hp].
  by rewrite !bool_decide_false by (intros Hne; by apply Hne).
Qed.


(** ** Retrying failed emails *)

(** X1.  When the transport raises, [send_email] marks the row failed with
    the message of the exception and counts one retry; it appends no
    tracking event and no activity, and writes no other Email row. *)
Theorem send_email_raised_effect (now pk : Z) (email : Email.t) (db : DB)
    (message : string) :
  transport pk (Email.set_status Email.sending email) = raised message →
  ∃ db' email',
    send_email now pk email db = (db', email', (false, message))
    ∧ db'.(db_emails) !! pk = Some email'
    ∧ email'.(Email.status) = Email.failed
    ∧ email'.(Email.error_message) = message
    ∧ email'.(Email.retry_count) = (email.(Email.retry_count) + 1)%Z
    ∧ email'.(Email.sent_at) = email.(Email.sent_at)
    ∧ db'.(db_tracking) = db.(db_tracking)
    ∧ db'.(db_activities) = db.(db_activities)
    ∧ (∀ k, k ≠ pk → db'.(db_emails) !! k = db.(db_emails) !! k).
Proof.
  intros Ht. unfold send_email. rewrite Ht.
  eexists _, _. split; [done|]. split; [apply save_email_lookup|].
  do 6 (split; [done|]). intros k Hk. cbn. by rewrite !lookup_insert_ne.
Qed.

(** The row [send_email] writes does not depend on the database. *)
Lemma send_email_row (now pk : Z) (email : Email.t) (db1 db2 : DB) :
  (send_email now pk email db1).1.2 = (send_email now pk email db2).1.2
  ∧ (send_email now pk email db1).2 = (send_email now pk email db2).2.
Proof.
  unfold send_email. destruct (transport pk _) as [n|msg]; [|done].
  by case_bool_decide.
Qed.

Lemma retry_config_frame (user : Z) (db db' : DB) :
  db'.(db_email_configs) = db.(db_email_configs) →
  retry_config user db' = retry_config user db.
Proof. intros Hc. unfold retry_config, first_config. by rewrite Hc. Qed.

(** The loop of [retry_failed_emails] on a list of rows with distinct keys:
    the rows outside the list are as they were, a row of the list whose
    user has a configuration is the row [send_email] writes for it, and a
    row whose user has none is as it was. *)
Lemma retry_emails_rows (now : Z) (failed_emails : list (Z * Email.t))
    (retried_count : Z) (db : DB) :
  NoDup failed_emails.*1 →
  (∀ k, k ∉ failed_emails.*1 →
        (retry_emails now failed_emails retried_count db).1.(db_emails) !! k
        = db.(db_emails) !! k)
  ∧ (∀ k email,
       (k, email) ∈ failed_emails →
       (retry_emails now failed_emails retried_count db).1.(db_emails) !! k
       = match retry_config email.(Email.user) db with
         | Some _ => Some (send_email now k email db).1.2
         | None => db.(db_emails) !! k
         end)
  ∧ (retry_emails now failed_emails retried_count db).1.(db_email_configs)
    = db.(db_email_configs)
  ∧ (retried_count ≤ (retry_emails now failed_emails retried_count db).2
     ≤ retried_count + Z.of_nat (length failed_emails))%Z.
Proof.
  revert retried_count db.
  induction failed_emails as [|[k0 e0] l IH]; intros n db Hnd.
  { cbn. split; [done|]. split; [|split; [done|lia]].
    intros k email Hbad. by apply elem_of_nil in Hbad. }
  rewrite fmap_cons in Hnd. apply NoDup_cons in Hnd as [Hk0 Hnd].
  cbn [retry_emails].
  destruct (retry_config (Email.user e0) db) as [c|] eqn:Hconfig.
  - destruct (send_email_table now k0 e0 db) as (e1 & Htable & Hrow & _).
    destruct (send_email_frame now k0 e0 db) as (Hconfigs & _).
    destruct (send_email now k0 e0 db) as [[db1 e1'] [success message]] eqn:Hsend.
    cbn in Htable, Hrow, Hconfigs. subst e1'.
    destruct (IH (if success then (n + 1)%Z else n) db1 Hnd)
      as (Hother & Hrows & Hc & Hcount).
    split; [|split; [|split]].
    + intros k Hk. rewrite fmap_cons, not_elem_of_cons in Hk. destruct Hk as [Hne Hk].
      rewrite Hother by done. rewrite Htable. by apply lookup_insert_ne.
    + intros k email [[= -> ->]|Hk]%elem_of_cons.
      * rewrite Hother by done. rewrite Htable, Hconfig, Hsend. apply lookup_insert_eq.
      * rewrite (Hrows k email Hk).
        rewrite (retry_config_frame _ db db1 Hconfigs).
        destruct (retry_config (Email.user email) db).
        -- f_equal. apply send_email_row.
        -- rewrite Htable. apply lookup_insert_ne.
           intros <-. apply Hk0, list_elem_of_fmap. by exists (k0, email).
    + by rewrite Hc.
    + rewrite length_cons. destruct success; lia.
  - destruct (IH n db Hnd) as (Hother & Hrows & Hc & Hcount).
    split; [|split; [|split]].
    + intros k Hk. rewrite fmap_cons, not_elem_of_cons in Hk. destruct Hk as [Hne Hk].
      by apply Hother.
    + intros k email [[= -> ->]|Hk]%elem_of_cons.
      * rewrite Hconfig. by apply Hother.
      * by apply Hrows.
    + done.
    + rewrite length_cons. lia.
Qed.

(** The rows the task selects are the rows of the table that can be
    retried, each once. *)
Lemma retry_candidates (db : DB) :
  NoDup (order_by_desc Email.created_at (rows (filter can_retry db.(db_emails)))).*1
  ∧ (∀ k email,
       (k, email) ∈ order_by_desc Email.created_at
                      (rows (filter can_retry db.(db_emails)))
       ↔ db.(db_emails) !! k = Some email ∧ can_retry (k, email))
  ∧ length (order_by_desc Email.created_at (rows (filter can_retry db.(db_emails))))
    = size (filter can_retry db.(db_emails)).
Proof.
  split; [|split].
  - rewrite order_by_desc_Permutation. apply NoDup_rows_keys.
  - intros k email. rewrite order_by_desc_Permutation, elem_of_rows.
    apply map_lookup_filter_Some.
  - rewrite order_by_desc_Permutation. unfold rows.
    rewrite merge_sort_Permutation. by rewrite length_map_to_list.
Qed.

(** X26.  The retry task touches only what it may retry: every Email row
    that is not failed, or that has used up its retries, is the same after
    the task, and so is every row of a user without an active
    configuration; the count it logs lies between zero and the number of
    rows that can be retried. *)
Theorem retry_failed_emails_frame (now : Z) (db : DB) :
  (∀ k email, db.(db_emails) !! k = Some email →
              ¬ can_retry (k, email) →
              (retry_failed_emails now db).1.(db_emails) !! k = Some email)
  ∧ (∀ k email, db.(db_emails) !! k = Some email →
                retry_config email.(Email.user) db = None →
                (retry_failed_emails now db).1.(db_emails) !! k = Some email)
  ∧ (∀ k, db.(db_emails) !! k = None →
          (retry_failed_emails now db).1.(db_emails) !! k = None)
  ∧ (0 ≤ (retry_failed_emails now db).2
     ≤ Z.of_nat (size (filter can_retry db.(db_emails))))%Z.
Proof.
  destruct (retry_candidates db) as (Hnd & Hmem & Hlen).
  destruct (retry_emails_rows now _ 0 db Hnd) as (Hother & Hrows & _ & Hcount).
  unfold retry_failed_emails.
  split; [|split; [|split]].
  - intros k email Hk Hno. rewrite Hother; [done|].
    intros ([k' email'] & -> & Hin)%list_elem_of_fmap.
    apply Hmem in Hin as [Hk' Hcan]. cbn in Hk. by simplify_eq.
  - intros k email Hk Hconfig.
    destruct (decide (can_retry (k, email))) as [Hcan|Hno].
    + rewrite (Hrows k email) by (by apply Hmem). by rewrite Hconfig.
    + rewrite Hother; [done|].
      intros ([k' email'] & -> & Hin)%list_elem_of_fmap.
      apply Hmem in Hin as [Hk' Hcan]. cbn in Hk. by simplify_eq.
  - intros k Hk. rewrite Hother; [done|].
    intros ([k' email'] & -> & Hin)%list_elem_of_fmap.
    apply Hmem in Hin as [Hk' Hcan]. cbn in Hk. by simplify_eq.
  - rewrite Hlen in Hcount. lia.
Qed.

(** X27.  Retries that end without a result are never used up: when the
    transport returns zero for every message, the task counts no email,
    and every row it selected can be retried again with the same
    [retry_count], so that the next run selects the same rows. *)
Theorem retry_failed_emails_no_result (now : Z) (db : DB) :
  (∀ k email, transport k email = returned 0) →
  (retry_failed_emails now db).2 = 0%Z
  ∧ (∀ k email, db.(db_emails) !! k = Some email →
                can_retry (k, email) →
                ∃ email',
                  (retry_failed_emails now db).1.(db_emails) !! k = Some email'
                  ∧ can_retry (k, email')
                  ∧ email'.(Email.retry_count) = email.(Email.retry_count))
  ∧ (∀ k, is_Some (filter can_retry (retry_failed_emails now db).1.(db_emails) !! k)
          ↔ is_Some (filter can_retry db.(db_emails) !! k)).
Proof.
  intros Hzero.
  destruct (retry_candidates db) as (Hnd & Hmem & Hlen).
  destruct (retry_emails_rows now _ 0 db Hnd) as (Hother & Hrows & _ & _).
  assert (∀ k email, db.(db_emails) !! k = Some email →
                     can_retry (k, email) →
                     ∃ email',
                       (retry_failed_emails now db).1.(db_emails) !! k = Some email'
                       ∧ can_retry (k, email')
                       ∧ email'.(Email.retry_count) = email.(Email.retry_count))
    as Hkept.
  { intros k email Hk Hcan. unfold retry_failed_emails.
    rewrite (Hrows k email) by (by apply Hmem).
    destruct (retry_config (Email.user email) db); [|by exists email].
    eexists. split; [done|].
    unfold send_email. rewrite Hzero. cbn.
    destruct Hcan as [_ Hcount]. split; [|done]. by split. }
  assert (∀ k email, db.(db_emails) !! k = Some email →
                     ¬ can_retry (k, email) →
                     (retry_failed_emails now db).1.(db_emails) !! k = Some email)
    as Hframe.
  { intros k email Hk Hno. unfold retry_failed_emails. rewrite Hother; [done|].
    intros ([k' email'] & -> & Hin)%list_elem_of_fmap.
    apply Hmem in Hin as [Hk' Hcan]. cbn in Hk. by simplify_eq. }
  split; [|split; [done|]].
  - unfold retry_failed_emails.
    generalize (order_by_desc Email.created_at (rows (filter can_retry (db_emails db)))).
    intros l. generalize db. induction l as [|[k e] l IH]; intros d; [done|].
    cbn [retry_emails]. destruct (retry_config (Email.user e) d); [|apply IH].
    unfold send_email at 1. rewrite Hzero. cbn. apply IH.
  - intros k. split.
    + intros [email' [Hk' Hcan']%map_lookup_filter_Some].
      destruct (db_emails db !! k) as [email|] eqn:Hk.
      * destruct (decide (can_retry (k, email))) as [Hcan|Hno].
        -- exists email. by apply map_lookup_filter_Some.
        -- rewrite (Hframe k email Hk Hno) in Hk'. by simplify_eq.
      * unfold retry_failed_emails in Hk'. rewrite Hother in Hk'; [congruence|].
        intros ([k' e'] & -> & Hin)%list_elem_of_fmap.
        apply Hmem in Hin as [Hbad _]. cbn in Hk. congruence.
    + intros [email [Hk Hcan]%map_lookup_filter_Some].
      destruct (Hkept k email Hk Hcan) as (email' & Hk' & Hcan' & _).
      exists email'. by apply map_lookup_filter_Some.
Qed.

(** X28.  Retries that raise are counted: when every attempt raises, each
    selected row of a user with an active configuration stays failed, with
    the message of the exception, and has one retry more after the task. *)
Theorem retry_failed_emails_raised (now : Z) (db : DB) (message : string) :
  (∀ k email, transport k email = raised message) →
  ∀ k email,
    db.(db_emails) !! k = Some email →
    can_retry (k, email) →
    is_Some (retry_config email.(Email.user) db) →
    ∃ email',
      (retry_failed_emails now db).1.(db_emails) !! k = Some email'
      ∧ email'.(Email.status) = Email.failed
      ∧ email'.(Email.error_message) = message
      ∧ email'.(Email.retry_count) = (email.(Email.retry_count) + 1)%Z
      ∧ email'.(Email.max_retries) = email.(Email.max_retries).
Proof.
  intros Hraise k email Hk Hcan [c Hconfig].
  destruct (retry_candidates db) as (Hnd & Hmem & Hlen).
  destruct (retry_emails_rows now _ 0 db Hnd) as (_ & Hrows & _ & _).
  unfold retry_failed_emails.
  rewrite (Hrows k email) by (by apply Hmem). rewrite Hconfig.
  eexists. split; [done|]. unfold send_email. by rewrite Hraise.
Qed.


(** ** Rendering a template for a lead *)

(** X30.  A placeholder of the context in the subject is replaced by its
    value with the HTML special characters escaped, as in an HTML body, and
    a template without a text body gets [strip_tags] of the rendered HTML
    as its text. *)
Theorem render_template_escapes (lead : Lead.t) (user : User.t) (now : Z)
    (id : Z) (pre name post html value : string) :
  template_context lead user now !! name = Some value →
  Django.plain_name name = true →
  Text.brace_free pre = true →
  Text.brace_free post = true →
  Text.brace_free html = true →
  render_template
    (EmailTemplate.mk id (pre +:+ "{{" +:+ name +:+ "}}" +:+ post) html "")
    lead user now
  = Ok (Rendered.mk (pre +:+ Text.escape value +:+ post) html (strip_tags html)).
Proof.
  intros Hvalue Hname Hpre Hpost Hhtml.
  unfold render_template, get_rendered_content.
  cbn [EmailTemplate.subject EmailTemplate.body_html EmailTemplate.body_text].
  rewrite render_placeholder by done.
  rewrite !render_brace_free by done.
  unfold Django.resolve. rewrite Hvalue. reflexivity.
Qed.


(** ** Failures within a batch *)



End Engine.

(** ** The statistics of a campaign *)

Lemma count_status_mono (campaign : Z) (statuses1 statuses2 : list Email.Status)
    (db : DB) :
  statuses1 ⊆ statuses2 →
  (0 ≤ count_status campaign statuses1 db ≤ count_status campaign statuses2 db)%Z.
Proof.
  intros Hsub. unfold count_status. split; [lia|].
  apply Nat2Z.inj_le, map_subseteq_size, map_filter_subseteq_ext.
  intros k email _ [Hc Hs]. split; [done|]. by apply Hsub.
Qed.

Lemma count_status_disjoint (campaign : Z) (statuses1 statuses2 : list Email.Status)
    (db : DB) :
  (∀ status, status ∈ statuses1 → status ∉ statuses2) →
  (count_status campaign statuses1 db + count_status campaign statuses2 db
   = count_status campaign (statuses1 ++ statuses2) db)%Z.
Proof.
  intros Hdisj. unfold count_status. rewrite <- Nat2Z.inj_add. f_equal.
  rewrite <- map_size_disj_union.
  - f_equal. rewrite <- map_filter_or. apply map_filter_ext.
    intros k email _. cbn. rewrite elem_of_app. tauto.
  - apply map_disjoint_spec.
    intros k x y [Hx [_ H1]]%map_lookup_filter_Some [Hy [_ H2]]%map_lookup_filter_Some.
    cbn in *. simplify_eq. by apply (Hdisj _ H1).
Qed.

Lemma rate_zero (float : Type) (truediv : Z → Z → float) (times100 : float → float)
    (part whole : Z) :
  (0 ≤ whole)%Z →
  (rate float truediv times100 part whole = int 0 ↔ whole = 0%Z)
  ∧ ((0 < whole)%Z →
     rate float truediv times100 part whole = real (times100 (truediv part whole))).
Proof.
  intros Hwhole. unfold rate. case_bool_decide as Hpos.
  - split; [|done]. split; [done|lia].
  - split; [|lia]. split; [lia|done].
Qed.

(** X29.  The statistics of a campaign form a funnel: clicked is at most
    opened, opened at most delivered, delivered at most sent; sent, bounced
    and failed emails together are at most the emails of the campaign; and
    each rate is the integer 0 exactly when the count it divides by is 0,
    so that no rate divides by zero. *)
Theorem get_campaign_stats_funnel (float : Type) (truediv : Z → Z → float)
    (times100 : float → float) (campaign : Z) (db : DB) :
  let stats := get_campaign_stats float truediv times100 campaign db in
  (0 ≤ clicked float stats ≤ opened float stats)%Z
  ∧ (opened float stats ≤ delivered float stats ≤ total_sent float stats)%Z
  ∧ (0 ≤ bounced float stats)%Z ∧ (0 ≤ failed float stats)%Z
  ∧ (total_sent float stats + bounced float stats + failed float stats
     ≤ Z.of_nat (size (filter (λ r, r.2.(Email.campaign) = Some campaign)
                         db.(db_emails))))%Z
  ∧ (delivery_rate float stats = int 0 ↔ total_sent float stats = 0%Z)
  ∧ (bounce_rate float stats = int 0 ↔ total_sent float stats = 0%Z)
  ∧ (open_rate float stats = int 0 ↔ delivered float stats = 0%Z)
  ∧ (click_rate float stats = int 0 ↔ delivered float stats = 0%Z).
Proof.
  cbn.
  assert (∀ l1 l2 : list Email.Status, bool_decide (l1 ⊆ l2) → l1 ⊆ l2) as Hsub
    by (intros l1 l2; apply bool_decide_unpack).
  assert (∀ l1 l2 : list Email.Status,
            bool_decide (Forall (λ status, status ∉ l2) l1) →
            ∀ status, status ∈ l1 → status ∉ l2) as Hdis.
  { intros l1 l2 Hall%bool_decide_unpack. by apply Forall_forall. }
  pose proof (count_status_mono campaign [Email.clicked]
                [Email.opened; Email.clicked] db ltac:(apply Hsub; exact I)) as H1.
  pose proof (count_status_mono campaign [Email.opened; Email.clicked]
                [Email.delivered; Email.opened; Email.clicked] db ltac:(apply Hsub; exact I)) as H2.
  pose proof (count_status_mono campaign
                [Email.delivered; Email.opened; Email.clicked]
                [Email.sent; Email.delivered; Email.opened; Email.clicked] db
                ltac:(apply Hsub; exact I)) as H3.
  pose proof (count_status_mono campaign [Email.bounced] [Email.bounced] db
                ltac:(apply Hsub; exact I)) as H4.
  pose proof (count_status_mono campaign [Email.failed] [Email.failed] db
                ltac:(apply Hsub; exact I)) as H5.
  pose proof (count_status_disjoint campaign
                [Email.sent; Email.delivered; Email.opened; Email.clicked]
                [Email.bounced] db ltac:(apply Hdis; exact I)) as H6.
  pose proof (count_status_disjoint campaign
                ([Email.sent; Email.delivered; Email.opened; Email.clicked]
                 ++ [Email.bounced])
                [Email.failed] db ltac:(apply Hdis; exact I)) as H7.
  assert (count_status campaign
            (([Email.sent; Email.delivered; Email.opened; Email.clicked]
              ++ [Email.bounced]) ++ [Email.failed]) db
          ≤ Z.of_nat (size (filter (λ r : Z * Email.t,
                                      r.2.(Email.campaign) = Some campaign)
                              db.(db_emails))))%Z as H8.
  { unfold count_status. apply Nat2Z.inj_le, map_subseteq_size, map_filter_subseteq_ext.
    by intros k email _ [Hc _]. }
  split; [lia|]. split; [lia|]. split; [lia|]. split; [lia|]. split; [lia|].
  split; [apply rate_zero; lia|]. split; [apply rate_zero; lia|].
  split; apply rate_zero; lia.
Qed.

(** ** The properties on the sample data *)

Lemma always_delivers_all (k : Z) (email : Email.t) :
  ∃ n, always_delivers k email = returned n ∧ n ≠ 0%Z.
Proof. by exists 1%Z. Defined.

(** Five queued rows and batches of 2: the calls send 2, 2 and 1, and the
    fourth call completes the campaign. *)
Lemma send_campaign_batch_five_queued_sample :
  ∃ db1 c1 db2 c2 db3 c3 db4 c4,
    send_campaign_batch always_delivers 101 7 sample_campaign None sample_queue_db
    = (db1, Ok (c1, (2, 0)%Z))
    ∧ c1.(EmailCampaign.emails_sent) = 2%Z
    ∧ c1.(EmailCampaign.status) = EmailCampaign.sending
    ∧ size (queued 7 db1) = 3
    ∧ send_campaign_batch always_delivers 102 7 c1 None db1 = (db2, Ok (c2, (2, 0)%Z))
    ∧ send_campaign_batch always_delivers 103 7 c2 None db2 = (db3, Ok (c3, (1, 0)%Z))
    ∧ (∀ k email,
         sample_queue_db.(db_emails) !! k = Some email → is_queued 7 (k, email) →
         ∃ email', db3.(db_emails) !! k = Some email'
                   ∧ email'.(Email.status) = Email.sent)
    ∧ c3.(EmailCampaign.emails_sent) = 5%Z
    ∧ c3.(EmailCampaign.status) = EmailCampaign.sending
    ∧ c3.(EmailCampaign.completed_at) = sample_campaign.(EmailCampaign.completed_at)
    ∧ send_campaign_batch always_delivers 104 7 c3 None db3 = (db4, Ok (c4, (0, 0)%Z))
    ∧ c4.(EmailCampaign.status) = EmailCampaign.sent
    ∧ c4.(EmailCampaign.completed_at) = Some 104%Z
    ∧ c4.(EmailCampaign.emails_sent) = 5%Z
    ∧ db4.(db_emails) = db3.(db_emails).
Proof.
  apply (send_campaign_batch_five_queued always_delivers 101 102 103 104 7
           sample_campaign sample_queue_db).
  - exact always_delivers_all.
  - reflexivity.
  - reflexivity.
  - reflexivity.
  - vm_compute. reflexivity.
Defined.

(** After the third call on the five queued rows the queue is empty and the
    status of the campaign is [sending], not [sent]. *)
Lemma three_batches_leave_sending :
  match send_campaign_batch always_delivers 101 7 sample_campaign None sample_queue_db with
  | (db1, Ok (c1, _)) =>
      match send_campaign_batch always_delivers 102 7 c1 None db1 with
      | (db2, Ok (c2, _)) =>
          match send_campaign_batch always_delivers 103 7 c2 None db2 with
          | (db3, Ok (c3, sent_failed)) =>
              sent_failed = (1, 0)%Z
              ∧ size (queued 7 db3) = 0
              ∧ c3.(EmailCampaign.emails_sent) = 5%Z
              ∧ c3.(EmailCampaign.status) = EmailCampaign.sending
              ∧ c3.(EmailCampaign.status) ≠ EmailCampaign.sent
              ∧ c3.(EmailCampaign.completed_at) = None
          | _ => False
          end
      | _ => False
      end
  | _ => False
  end.
Proof. vm_compute. repeat split; discriminate. Qed.

(** The unknown placeholder of the sample subject, which stands after
    another tag, renders as nothing. *)
Lemma unknown_placeholder_sample :
  Django.tokenize "Hi {{first_name}} {{nickname}}!"
  = [Django.TText "Hi "; Django.TVar "first_name"; Django.TText " "]
    ++ Django.TVar "nickname" :: [Django.TText "!"]
  ∧ Django.render
      (template_context sample_strftime (sample_lead 1 "a@x.test") sample_user 100)
      "Hi {{first_name}} {{nickname}}!"
    = Ok "Hi Ann !"
  ∧ Django.render
      (template_context sample_strftime (sample_lead 1 "a@x.test") sample_user 100)
      ("Hi " +:+ "{{" +:+ "nickname" +:+ "}}" +:+ "!")
    = Ok "Hi !".
Proof.
  assert ("nickname" ∉ allowed_placeholders) as Hname.
  { apply (bool_decide_unpack _). vm_compute. exact I. }
  assert ("nickname" ∉ ["True"; "False"; "None"]) as Hbuiltin.
  { apply (bool_decide_unpack _). vm_compute. exact I. }
  destruct (unknown_placeholder_renders_empty sample_strftime
              (sample_lead 1 "a@x.test") sample_user 100 "nickname"
              eq_refl Hname Hbuiltin) as [Htokens Hstring].
  assert (Django.tokenize "Hi {{first_name}} {{nickname}}!"
          = [Django.TText "Hi "; Django.TVar "first_name"; Django.TText " "]
            ++ Django.TVar "nickname" :: [Django.TText "!"]) as Hlex
    by (vm_compute; reflexivity).
  split; [exact Hlex|]. split.
  - destruct (Htokens _ _ _ Hlex) as (Hrender & _). rewrite Hrender.
    vm_compute. reflexivity.
  - destruct (Hstring "Hi " "!" eq_refl) as (Hrender & _). rewrite Hrender.
    vm_compute. reflexivity.
Defined.

(** The sample template has the placeholder [{{nickname}}] in its subject;
    it renders without an error and the placeholder is not in the rendered
    subject. *)
Lemma unknown_placeholder_not_verbatim :
  Text.contains "{{nickname}}" sample_template.(EmailTemplate.subject) = true
  ∧ ("nickname" ∉ allowed_placeholders)
  ∧ (∃ rendered,
       render_template sample_strip_tags sample_strftime sample_template
         (sample_lead 1 "a@x.test") sample_user 100 = Ok rendered
       ∧ rendered.(Rendered.subject) = "Hi Ann !"
       ∧ Text.contains "{{nickname}}" rendered.(Rendered.subject) = false).
Proof.
  split; [reflexivity|]. split.
  - apply (bool_decide_unpack _). vm_compute. exact I.
  - exists (Rendered.mk "Hi Ann !" "<p>ACME</p>" "<p>ACME</p>").
    vm_compute. repeat split.
Qed.

(** A second materialization of the sample campaign creates nothing. *)
Lemma create_campaign_emails_twice_sample :
  ∃ db1 c1 n leads db2,
    create_campaign_emails sample_strip_tags sample_strftime sample_uuid4 100 7
      sample_campaign sample_db = (db1, Ok (c1, n))
    ∧ get_target_leads 7 sample_campaign sample_db = Ok leads
    ∧ create_campaign_emails sample_strip_tags sample_strftime sample_uuid4 200 7
        c1 db1 = (db2, Ok (c1, 0%Z))
    ∧ db2.(db_emails) = db1.(db_emails)
    ∧ (∀ lead_id lead,
         (lead_id, lead) ∈ leads →
         size (campaign_lead_emails 7 lead_id sample_db) ≤ 1 →
         size (campaign_lead_emails 7 lead_id db1) = 1
         ∧ size (campaign_lead_emails 7 lead_id db2) = 1).
Proof.
  destruct (create_campaign_emails sample_strip_tags sample_strftime sample_uuid4
              100 7 sample_campaign sample_db) as [db1 [[c1 n]|e]] eqn:Hrun.
  - destruct (create_campaign_emails_idempotent sample_strip_tags sample_strftime
                sample_uuid4 100 200 7 sample_campaign c1 sample_db db1 n Hrun)
      as (leads & db2 & H1 & _ & H2 & H3 & H4).
    exists db1, c1, n, leads, db2. auto.
  - vm_compute in Hrun. discriminate Hrun.
Defined.

(** The targets of the sample campaign are the five leads with an address. *)
Lemma get_target_leads_all_sample :
  ∃ leads,
    get_target_leads 7 sample_campaign sample_db = Ok leads
    ∧ NoDup leads.*1
    ∧ (∀ k lead, (k, lead) ∈ leads
                 ↔ sample_db.(db_leads) !! k = Some lead ∧ lead.(Lead.email) ≠ "")
    ∧ (∀ pk' self',
         self'.(EmailCampaign.target_all_leads) = true →
         get_target_leads pk' self' sample_db = Ok leads).
Proof. apply (get_target_leads_all 7 sample_campaign sample_db). reflexivity. Defined.

Lemma sample_step_found (enrollment : EmailSequenceEnrollment.t) (db : DB) :
  enrollment.(EmailSequenceEnrollment.sequence) = 1%Z →
  enrollment.(EmailSequenceEnrollment.current_step) = 0%Z →
  db.(db_steps) = {[ 1%Z := sample_step ]} →
  find_step enrollment.(EmailSequenceEnrollment.sequence)
    (enrollment.(EmailSequenceEnrollment.current_step) + 1)%Z db
  = Some (1%Z, sample_step).
Proof. intros -> -> Hsteps. unfold find_step. rewrite Hsteps. reflexivity. Defined.

(** The step of the sample sequence is skipped for the enrollment that has
    replied, and sent for the one that has not; without a configuration the
    call changes nothing. *)
Lemma schedule_send_only_if_not_replied_sample :
  (_schedule_next_step sample_strip_tags sample_strftime sample_uuid4
     always_delivers 100 1 replied_enrollment sequence_db
   = _schedule_next_step sample_strip_tags sample_strftime sample_uuid4
       always_delivers 100 1
       (EmailSequenceEnrollment.set_current_step 1 replied_enrollment)
       (save_enrollment 1
          (EmailSequenceEnrollment.set_current_step 1 replied_enrollment)
          sequence_db))
  ∧ (∃ db' advanced sent_email,
       _schedule_next_step sample_strip_tags sample_strftime sample_uuid4
         always_delivers 100 1 sample_enrollment sequence_db
       = Some (db', advanced)
       ∧ sequence_db.(db_emails) !! 1%Z = None
       ∧ db'.(db_emails) !! 1%Z = Some sent_email
       ∧ sent_email.(Email.status) = Email.sent
       ∧ advanced.(EmailSequenceEnrollment.current_step) = 1%Z
       ∧ advanced.(EmailSequenceEnrollment.emails_sent) = 1%Z)
  ∧ _schedule_next_step sample_strip_tags sample_strftime sample_uuid4
      always_delivers 100 1 sample_enrollment unconfigured_db
    = Some (unconfigured_db, sample_enrollment).
Proof.
  split; [|split].
  - apply (schedule_send_only_if_not_replied sample_strip_tags sample_strftime
             sample_uuid4 always_delivers 100 1 replied_enrollment sequence_db
             1 sample_step);
      reflexivity.
  - destruct (schedule_send_only_if_not_replied sample_strip_tags
                sample_strftime sample_uuid4 always_delivers 100 1
                sample_enrollment sequence_db 1 sample_step
                eq_refl eq_refl) as (_ & Hsend & _).
    destruct (Hsend eq_refl eq_refl 1%Z sample_config
                (Rendered.mk "Hi Ann !" "<p>ACME</p>" "<p>ACME</p>")
                eq_refl eq_refl)
      as (db' & advanced & sent_email & Hrun & Hnew & Hrow & _ & Hsent & Hstep & Hcount & _).
    exists db', advanced, sent_email. repeat split; try assumption.
    eapply Hsent; [reflexivity|discriminate].
  - destruct (schedule_send_only_if_not_replied sample_strip_tags
                sample_strftime sample_uuid4 always_delivers 100 1
                sample_enrollment unconfigured_db 1 sample_step
                eq_refl eq_refl) as (_ & _ & Hnone).
    destruct (Hnone eq_refl eq_refl) as (Hconfig & _).
    apply Hconfig. reflexivity.
Defined.

(** Without a configuration for the owner of the sequence, the step of an
    enrollment that has not replied creates no email, although the step
    applies: the call returns the database and the enrollment as they
    were. *)
Lemma no_configuration_no_email :
  find_step 1 1 unconfigured_db = Some (1%Z, sample_step)
  ∧ sample_step.(EmailSequenceStep.send_only_if_not_replied) = true
  ∧ sample_step.(EmailSequenceStep.send_only_if_status) = []
  ∧ sample_enrollment.(EmailSequenceEnrollment.has_replied) = false
  ∧ _schedule_next_step sample_strip_tags sample_strftime sample_uuid4
      always_delivers 100 1 sample_enrollment unconfigured_db
    = Some (unconfigured_db, sample_enrollment)
  ∧ unconfigured_db.(db_emails) = ∅.
Proof. vm_compute. repeat split. Qed.

Lemma finished_enrollment_last (k : Z) (st : EmailSequenceStep.t) :
  sequence_db.(db_steps) !! k = Some st →
  st.(EmailSequenceStep.sequence) = finished_enrollment.(EmailSequenceEnrollment.sequence) →
  (st.(EmailSequenceStep.step_number)
   ≤ finished_enrollment.(EmailSequenceEnrollment.current_step))%Z.
Proof.
  cbn [sequence_db db_steps].
  intros [_ <-]%lookup_singleton_Some _. cbn. lia.
Defined.

(** The enrollment past the only step is completed at time 10, and once
    more at time 20. *)
Lemma schedule_past_last_step_sample :
  ∃ completed db',
    _schedule_next_step sample_strip_tags sample_strftime sample_uuid4
      always_delivers 10 1 finished_enrollment sequence_db = Some (db', completed)
    ∧ completed.(EmailSequenceEnrollment.is_active) = false
    ∧ completed.(EmailSequenceEnrollment.completed_at) = Some 10%Z
    ∧ _schedule_next_step sample_strip_tags sample_strftime sample_uuid4
        always_delivers 20 1 completed db'
      = Some (save_enrollment 1
                (EmailSequenceEnrollment.set_completed_at (Some 20%Z) completed) db',
              EmailSequenceEnrollment.set_completed_at (Some 20%Z) completed).
Proof.
  destruct (schedule_past_last_step sample_strip_tags sample_strftime sample_uuid4
              always_delivers 10 20 1 finished_enrollment sequence_db
              finished_enrollment_last)
    as (completed & db' & H1 & _ & H2 & H3 & _ & H4 & _).
  exists completed, db'. auto.
Defined.

(** A second call on a completed enrollment is not a no-op: it replaces the
    completion time 10 by the time 20 of the second call. *)
Lemma second_completion_restamps :
  match _schedule_next_step sample_strip_tags sample_strftime sample_uuid4
          always_delivers 10 1 finished_enrollment sequence_db with
  | Some (db1, completed) =>
      match _schedule_next_step sample_strip_tags sample_strftime sample_uuid4
              always_delivers 20 1 completed db1 with
      | Some (db2, again) =>
          completed.(EmailSequenceEnrollment.is_active) = false
          ∧ completed.(EmailSequenceEnrollment.completed_at) = Some 10%Z
          ∧ again.(EmailSequenceEnrollment.completed_at) = Some 20%Z
          ∧ again ≠ completed
          ∧ db2.(db_enrollments) !! 1%Z ≠ db1.(db_enrollments) !! 1%Z
      | None => False
      end
  | None => False
  end.
Proof. vm_compute. repeat split; discriminate. Qed.

Lemma sample_db_one_default : one_default sample_db.
Proof.
  intros k1 k2 c1 c2. cbn [sample_db db_email_configs].
  by intros [<- _]%lookup_singleton_Some [<- _]%lookup_singleton_Some.
Defined.

(** Saving a second configuration as the default of the sample user clears
    the flag on the first, which is kept as it is otherwise, and keeps one
    default per user. *)
Lemma save_one_default_sample :
  (save None second_config sample_db).2 = Ok 2%Z
  ∧ (save None second_config sample_db).1.(db_email_configs) !! 2%Z
    = Some second_config
  ∧ (save None second_config sample_db).1.(db_email_configs) !! 1%Z
    = Some (EmailConfiguration.set_is_default false sample_config)
  ∧ (∀ c, (save None second_config sample_db).1.(db_email_configs) !! 1%Z = Some c →
          c.(EmailConfiguration.is_default) = false)
  ∧ one_default (save None second_config sample_db).1.
Proof.
  destruct (save_one_default None second_config sample_db)
    as (Hclear & Hsaved & Hinv & Hfirst & _).
  assert ((save None second_config sample_db).2 ≠ Ok 1%Z) as Hkey by discriminate.
  split; [reflexivity|]. split; [by apply Hsaved|].
  split; [exact (Hfirst 1%Z sample_config eq_refl Hkey eq_refl eq_refl)|].
  split.
  - intros c Hc. apply (Hclear eq_refl 1%Z c Hc).
    + vm_compute in Hc. by injection Hc as <-.
    + discriminate.
  - apply Hinv, sample_db_one_default.
Defined.

(** A transport that returns zero: the row is failed and no retry is
    counted. *)
Lemma send_email_no_result_sample :
  ∃ db' email',
    send_email nothing_sent 100 1 (sample_email 1) sample_queue_db
    = (db', email', (false, "Failed to send email"))
    ∧ db'.(db_emails) !! 1%Z = Some email'
    ∧ email'.(Email.status) = Email.failed
    ∧ email'.(Email.error_message) = "Failed to send email"
    ∧ email'.(Email.retry_count) = (sample_email 1).(Email.retry_count).
Proof.
  apply (send_email_no_result_keeps_retry_count nothing_sent 100 1 (sample_email 1)
           sample_queue_db).
  reflexivity.
Defined.

Lemma opened_db_unique (k : Z) (e : Email.t) :
  opened_db.(db_emails) !! k = Some e → e.(Email.tracking_id) = 41%Z → k = 1%Z.
Proof. cbn [opened_db db_emails]. by intros [<- _]%lookup_singleton_Some. Defined.

Lemma sent_db_unique (k : Z) (e : Email.t) :
  sent_db.(db_emails) !! k = Some e → e.(Email.tracking_id) = 41%Z → k = 1%Z.
Proof. cbn [sent_db db_emails]. by intros [<- _]%lookup_singleton_Some. Defined.

(** An [opened] callback, from an empty address, on the email that is sent:
    the email is opened with one opening counted, one tracking event without
    an address is logged, and a second callback leaves the Email table as it
    is. *)
Lemma email_tracking_effect_sample :
  ∃ db' email',
    email_tracking sample_clean_ipv6_address 200 (Some "") "" 41 "opened" sent_db
    = (db', Ok pixel_gif)
    ∧ db'.(db_emails) = {[ 1%Z := email' ]}
    ∧ db'.(db_tracking) = [EmailTracking.mk 1 "opened" 200 None ""]
    ∧ email'.(Email.status) = Email.opened
    ∧ email'.(Email.opened_at) = Some 200%Z
    ∧ email'.(Email.open_count) = 1%Z
    ∧ (email_tracking sample_clean_ipv6_address 300 (Some "") "" 41 "opened" db').1
        .(db_emails)
      = db'.(db_emails).
Proof.
  destruct (email_tracking_effect sample_clean_ipv6_address 200 (Some "") "" 41
              "opened" sent_db 1 sent_email eq_refl eq_refl sent_db_unique)
    as (db' & email' & Hrun & _ & Hlog & _ & _ & _ & Htable & Hopened & _ & Hagain & _).
  assert (Email.status sent_email ∈ [Email.sent; Email.delivered]) as Hsent
    by apply list_elem_of_here.
  pose proof (Hopened eq_refl Hsent) as Hrow.
  exists db', email'. split; [exact Hrun|].
  split; [rewrite Htable; apply insert_singleton_eq|].
  split; [exact Hlog|].
  split; [by rewrite Hrow|]. split; [by rewrite Hrow|]. split; [by rewrite Hrow|].
  apply (Hagain eq_refl).
Defined.

(** A repeated [opened] callback does not add to [open_count]: the email
    opened once still has a count of 1 after a second callback. *)
Lemma repeat_open_not_counted :
  opened_email.(Email.status) = Email.opened
  ∧ opened_email.(Email.open_count) = 1%Z
  ∧ match email_tracking sample_clean_ipv6_address 200 None "" 41 "opened" opened_db with
    | (db', Ok r) =>
        r = pixel_gif
        ∧ length db'.(db_tracking) = 1
        ∧ Email.open_count <$> (db'.(db_emails) !! 1%Z) = Some 1%Z
        ∧ Email.open_count <$> (db'.(db_emails) !! 1%Z) ≠ Some 2%Z
    | _ => False
    end.
Proof. vm_compute. repeat split; discriminate. Qed.

Lemma sample_queue_rows (lead_id : Z) :
  lead_id ∈ [6; 5; 4; 3; 1]%Z →
  size (campaign_lead_emails 7 lead_id sample_queue_db) ≠ 0.
Proof.
  intros Hin. repeat (apply elem_of_cons in Hin as [->|Hin]; [by vm_compute|]).
  by apply elem_of_nil in Hin.
Defined.

(** Materializing the sample campaign again after two emails were counted as
    sent: nothing is created and the count is back at zero. *)
Lemma create_campaign_emails_resets_sample :
  ∃ db' campaign' n,
    create_campaign_emails sample_strip_tags sample_strftime sample_uuid4 300 7
      (EmailCampaign.set_emails_sent 2 sample_campaign) sample_queue_db
    = (db', Ok (campaign', n))
    ∧ (EmailCampaign.set_emails_sent 2 sample_campaign).(EmailCampaign.emails_sent) = 2%Z
    ∧ campaign'.(EmailCampaign.emails_sent) = 0%Z
    ∧ campaign'.(EmailCampaign.emails_failed) = 0%Z
    ∧ db'.(db_campaigns) !! 7%Z = Some campaign'
    ∧ n = 0%Z
    ∧ db'.(db_emails) = sample_queue_db.(db_emails).
Proof.
  destruct (create_campaign_emails_resets_counters sample_strip_tags sample_strftime
              sample_uuid4 300 7 (EmailCampaign.set_emails_sent 2 sample_campaign)
              sample_queue_db) as (_ & Hreturns & _).
  destruct (Hreturns
              [(6, sample_lead 6 "f@x.test"); (5, sample_lead 5 "e@x.test");
               (4, sample_lead 4 "d@x.test"); (3, sample_lead 3 "c@x.test");
               (1, sample_lead 1 "a@x.test")]%Z
              eq_refl (or_intror sample_queue_rows))
    as (db' & campaign' & n & Hrun & _ & Hs & Hf & Hrow & Hzero).
  destruct (Hzero sample_queue_rows) as [Hn He].
  exists db', campaign', n. repeat split; assumption.
Defined.

(** The reset is not unconditional.  When the renderer raises, the
    exception leaves [create_campaign_emails] before the counters are
    reset: the call on the campaign with the empty variable tag, which has
    counted four emails sent and one failed, raises and writes nothing, and
    the row of the campaign still has both counts. *)
Lemma create_campaign_emails_raises :
  broken_campaign.(EmailCampaign.emails_sent) = 4%Z
  ∧ broken_campaign.(EmailCampaign.emails_failed) = 1%Z
  ∧ create_campaign_emails sample_strip_tags sample_strftime sample_uuid4 300 8
      broken_campaign (save_campaign 8 broken_campaign sample_db)
    = (save_campaign 8 broken_campaign sample_db, Raise TemplateSyntaxError)
  ∧ (save_campaign 8 broken_campaign sample_db).(db_campaigns) !! 8%Z
    = Some broken_campaign
  ∧ EmailCampaign.emails_sent
    <$> (create_campaign_emails sample_strip_tags sample_strftime sample_uuid4 300 8
           broken_campaign (save_campaign 8 broken_campaign sample_db)).1
          .(db_campaigns) !! 8%Z
    ≠ Some 0%Z.
Proof. vm_compute. repeat split; discriminate. Qed.


(** ** The further properties on the sample data *)

(** A transport that raises: the row is failed and one retry is counted. *)
Lemma send_email_raised_sample :
  ∃ db' email',
    send_email always_raises 100 1 (sample_email 1) sample_queue_db
    = (db', email', (false, "Connection refused"))
    ∧ email'.(Email.status) = Email.failed
    ∧ email'.(Email.retry_count) = 1%Z
    ∧ db'.(db_tracking) = [].
Proof.
  destruct (send_email_raised_effect always_raises 100 1 (sample_email 1)
              sample_queue_db "Connection refused" eq_refl)
    as (db' & email' & Hrun & _ & Hstatus & _ & Hretry & _ & Hlog & _).
  exists db', email'. repeat split; assumption.
Defined.

(** A transport that delivers: the row is sent at the time of the call and
    one tracking event is logged. *)
Lemma send_email_delivered_sample :
  ∃ db' email',
    send_email always_delivers 100 1 (sample_email 1) sample_queue_db
    = (db', email', (true, "Email sent successfully"))
    ∧ email'.(Email.status) = Email.sent
    ∧ email'.(Email.sent_at) = Some 100%Z
    ∧ db'.(db_tracking) = [EmailTracking.mk 1 "sent" 100 None ""].
Proof.
  assert (1 ≠ 0)%Z as Hn by lia.
  destruct (send_email_delivered_effect always_delivers 100 1 (sample_email 1)
              sample_queue_db 1 eq_refl Hn)
    as (db' & email' & Hrun & _ & Hstatus & Hsent & _ & Hlog & _).
  exists db', email'. repeat split; assumption.
Defined.

(** A batch of 2 of the five queued rows through a transport that never
    delivers: both attempts are counted, as failures, and three rows stay
    queued. *)
Lemma send_campaign_batch_best_effort_sample :
  ∃ db' campaign' sent_count failed_count,
    send_campaign_batch nothing_sent 101 7 sample_campaign None sample_queue_db
    = (db', Ok (campaign', (sent_count, failed_count)))
    ∧ (sent_count + failed_count = 2)%Z
    ∧ campaign'.(EmailCampaign.status) = EmailCampaign.sending
    ∧ size (queued 7 db') = 3.
Proof.
  assert (size (queued 7 sample_queue_db) = 5) as Hfive by (vm_compute; reflexivity).
  assert (0 < 2)%Z as Hbound by lia.
  assert (size (queued 7 sample_queue_db) ≠ 0) as Hsome by (rewrite Hfive; lia).
  destruct (send_campaign_batch_best_effort nothing_sent 101 7 sample_campaign None
              sample_queue_db Hbound Hsome)
    as (db' & campaign' & s & f & Hrun & _ & _ & Hsum & _ & _ & Hstatus & _ & _ & Hq).
  exists db', campaign', s, f.
  rewrite Hfive in Hsum, Hq. cbn [EmailCampaign.batch_size sample_campaign] in Hsum, Hq.
  repeat split; [assumption|lia|assumption|lia].
Defined.

(** A batch leaves the failed row of the campaign alone. *)
Lemma send_campaign_batch_frame_sample :
  (send_campaign_batch always_delivers 101 7 sample_campaign None failed_db).1.(db_emails)
  !! 1%Z = Some failed_email.
Proof.
  apply send_campaign_batch_frame; [reflexivity|].
  intros [_ Hqueued]. discriminate Hqueued.
Defined.

(** A batch for a campaign without queued rows completes it. *)
Lemma send_campaign_batch_no_queued_sample :
  ∃ db' campaign',
    send_campaign_batch always_delivers 104 7 sample_campaign None sample_db
    = (db', Ok (campaign', (0, 0)%Z))
    ∧ campaign'.(EmailCampaign.status) = EmailCampaign.sent
    ∧ campaign'.(EmailCampaign.completed_at) = Some 104%Z.
Proof.
  assert (0 ≤ 2)%Z as Hbound by lia.
  destruct (send_campaign_batch_no_queued always_delivers 104 7 sample_campaign None
              sample_db Hbound eq_refl)
    as (db' & campaign' & Hrun & Hstatus & Hat & _).
  exists db', campaign'. repeat split; assumption.
Defined.

(** With a batch size of zero the campaign is marked as sent while its five
    rows are still queued. *)
Lemma send_campaign_batch_zero_bound_sample :
  ∃ db' campaign',
    send_campaign_batch always_delivers 104 7 zero_batch_campaign None sample_queue_db
    = (db', Ok (campaign', (0, 0)%Z))
    ∧ campaign'.(EmailCampaign.status) = EmailCampaign.sent
    ∧ size (queued 7 db') = 5.
Proof.
  destruct (send_campaign_batch_zero_bound always_delivers 104 7 zero_batch_campaign
              None sample_queue_db eq_refl (or_introl eq_refl))
    as (db' & campaign' & Hrun & Hstatus & _ & _ & Hq).
  exists db', campaign'. repeat split; try assumption.
  rewrite Hq. vm_compute. reflexivity.
Defined.

Lemma opened_db_no_99 (k : Z) (e : Email.t) :
  opened_db.(db_emails) !! k = Some e → e.(Email.tracking_id) ≠ 99%Z.
Proof. cbn [opened_db db_emails]. by intros [_ <-]%lookup_singleton_Some. Defined.

(** A callback with an identifier no email has changes nothing. *)
Lemma email_tracking_unknown_id_sample :
  email_tracking sample_clean_ipv6_address 200 None "" 99 "opened" opened_db
  = (opened_db, Ok no_content).
Proof.
  apply (email_tracking_unknown_id sample_clean_ipv6_address), opened_db_no_99.
Defined.

(** A callback with another event, from an empty address, is logged
    without an address and leaves the email alone. *)
Lemma email_tracking_other_event_sample :
  email_tracking sample_clean_ipv6_address 200 (Some "") "" 41 "delivered" opened_db
  = (with_tracking [EmailTracking.mk 1 "delivered" 200 None ""] opened_db,
     Ok no_content).
Proof.
  apply (email_tracking_other_event sample_clean_ipv6_address 200 (Some "") "" 41
           "delivered" opened_db 1 opened_email eq_refl eq_refl opened_db_unique);
    discriminate.
Defined.

(** A click on the opened email makes it clicked and counts the click; the
    opening is not counted again. *)
Lemma email_tracking_clicked_sample :
  ∃ db' email',
    email_tracking sample_clean_ipv6_address 200 None "" 41 "clicked" opened_db
    = (db', Ok no_content)
    ∧ db'.(db_emails) !! 1%Z = Some email'
    ∧ email'.(Email.status) = Email.clicked
    ∧ email'.(Email.click_count) = 1%Z
    ∧ email'.(Email.open_count) = 1%Z.
Proof.
  destruct (email_tracking_clicked sample_clean_ipv6_address 200 None "" 41
              opened_db 1 opened_email eq_refl eq_refl opened_db_unique)
    as (db' & email' & Hrun & Hrow & Hclick & _).
  destruct Hclick as (Hstatus & _ & Hcount & _ & Hopen).
  { apply list_elem_of_further, list_elem_of_further, list_elem_of_here. }
  exists db', email'. repeat split; assumption.
Defined.

Lemma opened_db_opened_once (k : Z) (e : Email.t) :
  opened_db.(db_emails) !! k = Some e → opened_once e.
Proof.
  cbn [opened_db db_emails]. intros [_ <-]%lookup_singleton_Some.
  split; [reflexivity|]. intros _ Hin.
  apply elem_of_cons in Hin as [Hin|Hin]; [discriminate Hin|].
  apply elem_of_cons in Hin as [Hin|Hin]; [discriminate Hin|].
  by apply elem_of_nil in Hin.
Defined.

(** After one more [opened] callback the email still counts one opening. *)
Lemma email_tracking_opened_once_sample :
  ∃ e,
    (email_tracking sample_clean_ipv6_address 200 None "" 41 "opened" opened_db).1
      .(db_emails) !! 1%Z = Some e
    ∧ opened_once e ∧ (0 ≤ e.(Email.open_count) ≤ 1)%Z.
Proof.
  exists opened_email.
  assert ((email_tracking sample_clean_ipv6_address 200 None "" 41 "opened" opened_db).1
            .(db_emails) !! 1%Z
          = Some opened_email) as Hrow by (vm_compute; reflexivity).
  split; [exact Hrow|].
  exact (email_tracking_opened_once sample_clean_ipv6_address 200 None "" 41
           "opened" opened_db opened_db_opened_once 1 opened_email Hrow).
Defined.

(** Saving a default configuration for user 1 leaves the configuration of
    user 2 alone. *)
Lemma save_other_rows_sample :
  (save None second_config two_users_db).1.(db_email_configs) !! 2%Z
  = Some other_config.
Proof.
  apply save_other_rows; [reflexivity|vm_compute; discriminate|].
  left. discriminate.
Defined.

(** A second configuration named like the first is refused, and the first
    is no longer the default. *)
Lemma save_refused_clears_default_sample :
  (save None duplicate_config sample_db).2 = Raise IntegrityError
  ∧ (∀ k c, (save None duplicate_config sample_db).1.(db_email_configs) !! k = Some c →
            c.(EmailConfiguration.user) = 1%Z →
            c.(EmailConfiguration.is_default) = false).
Proof.
  assert (None ≠ Some 1%Z) as Hpk by discriminate.
  destruct (save_refused_clears_default None duplicate_config sample_db 1 sample_config
              eq_refl Hpk eq_refl eq_refl)
    as (Hraise & Hclear & _).
  split; [assumption|]. exact (Hclear eq_refl).
Defined.

(** A campaign without any criterion targets nobody. *)
Lemma get_target_leads_no_criteria_sample :
  get_target_leads 7 no_criteria_campaign sample_db = Ok [].
Proof. apply get_target_leads_no_criteria; reflexivity. Defined.

(** A campaign for the status new targets lead 1 and not lead 2, which has
    no address. *)
Lemma get_target_leads_statuses_sample :
  ∃ leads,
    get_target_leads 7 statuses_campaign sample_db = Ok leads
    ∧ (1%Z, sample_lead 1 "a@x.test") ∈ leads
    ∧ (2%Z, sample_lead 2 "") ∉ leads.
Proof.
  assert (EmailCampaign.target_statuses statuses_campaign ≠ []) as Hlist by discriminate.
  destruct (get_target_leads_statuses 7 statuses_campaign sample_db
              eq_refl Hlist eq_refl eq_refl eq_refl)
    as (leads & Hrun & _ & Hmem).
  exists leads. split; [assumption|]. split.
  - apply Hmem. split; [reflexivity|]. split; [apply list_elem_of_here|discriminate].
  - intros (_ & _ & Hemail)%Hmem. by apply Hemail.
Defined.

(** A campaign with a status and a priority criterion cannot be
    materialized. *)
Lemma get_target_leads_two_criteria_sample :
  get_target_leads 7 two_criteria_campaign sample_db = Raise NotSupportedError
  ∧ create_campaign_emails sample_strip_tags sample_strftime sample_uuid4 10 7
      two_criteria_campaign sample_db
    = (sample_db, Raise NotSupportedError).
Proof.
  apply get_target_leads_two_criteria; [reflexivity|].
  vm_compute. lia.
Defined.


Lemma gap_db_first_inactive (k : Z) (st : EmailSequenceStep.t) :
  gap_db.(db_steps) !! k = Some st →
  st.(EmailSequenceStep.sequence) = sample_enrollment.(EmailSequenceEnrollment.sequence) →
  st.(EmailSequenceStep.step_number)
  = (sample_enrollment.(EmailSequenceEnrollment.current_step) + 1)%Z →
  st.(EmailSequenceStep.is_active) = false.
Proof.
  cbn [gap_db db_steps].
  intros [[_ <-]|[_ [_ <-]%lookup_singleton_Some]]%lookup_insert_Some _ Hn;
    [reflexivity|discriminate Hn].
Defined.

(** The first step is switched off: the enrollment is completed at step 0
    although the sequence has an active second step. *)
Lemma schedule_gap_completes_sample :
  ∃ completed,
    _schedule_next_step sample_strip_tags sample_strftime sample_uuid4
      always_delivers 10 1 sample_enrollment gap_db
    = Some (save_enrollment 1 completed gap_db, completed)
    ∧ completed.(EmailSequenceEnrollment.is_active) = false
    ∧ completed.(EmailSequenceEnrollment.current_step) = 0%Z
    ∧ find_step 1 2 gap_db = Some (2%Z, second_step).
Proof.
  destruct (schedule_gap_completes sample_strip_tags sample_strftime sample_uuid4
              always_delivers 10 1 sample_enrollment gap_db gap_db_first_inactive)
    as (completed & Hrun & Hactive & _ & Hstep & _).
  exists completed. repeat split; assumption || (vm_compute; reflexivity).
Defined.

(** The step for qualified leads is passed over for a new lead. *)
Lemma schedule_send_only_if_status_sample :
  _schedule_next_step sample_strip_tags sample_strftime sample_uuid4
    always_delivers 100 1 sample_enrollment status_db
  = _schedule_next_step sample_strip_tags sample_strftime sample_uuid4
      always_delivers 100 1
      (EmailSequenceEnrollment.set_current_step 1 sample_enrollment)
      (save_enrollment 1
         (EmailSequenceEnrollment.set_current_step 1 sample_enrollment) status_db).
Proof.
  assert (find_step 1 (0 + 1) status_db = Some (1%Z, status_step)) as Hfind
    by (vm_compute; reflexivity).
  assert (EmailSequenceStep.send_only_if_status status_step ≠ []) as Hlist
    by discriminate.
  assert ("new" ∉ EmailSequenceStep.send_only_if_status status_step) as Hstatus.
  { apply (bool_decide_unpack _). vm_compute. exact I. }
  destruct (schedule_send_only_if_status sample_strip_tags sample_strftime sample_uuid4
              always_delivers 100 1 sample_enrollment status_db 1 status_step
              Hfind Hlist Hstatus) as [Hskip _].
  exact Hskip.
Defined.

(** A step whose template does not compile leaves everything as it was. *)
Lemma schedule_template_error_sample :
  _schedule_next_step sample_strip_tags sample_strftime sample_uuid4
    always_delivers 100 1 sample_enrollment broken_step_db
  = Some (broken_step_db, sample_enrollment).
Proof.
  apply (schedule_template_error sample_strip_tags sample_strftime sample_uuid4
           always_delivers 100 1 sample_enrollment broken_step_db 1 broken_step);
    vm_compute; reflexivity.
Defined.

Lemma replied_db_steps (k : Z) (st : EmailSequenceStep.t) :
  replied_db.(db_steps) !! k = Some st →
  st.(EmailSequenceStep.sequence) = replied_enrollment.(EmailSequenceEnrollment.sequence) →
  st.(EmailSequenceStep.is_active) = true →
  st.(EmailSequenceStep.send_only_if_not_replied) = true.
Proof.
  cbn [replied_db db_steps].
  by intros [[_ <-]|[_ [_ <-]%lookup_singleton_Some]]%lookup_insert_Some.
Defined.

(** The lead replied: both steps are passed over, no email is created and
    the enrollment is completed. *)
Lemma schedule_replied_completes_sample :
  ∃ db' enrollment',
    _schedule_next_step sample_strip_tags sample_strftime sample_uuid4
      always_delivers 100 1 replied_enrollment replied_db = Some (db', enrollment')
    ∧ db'.(db_emails) = ∅
    ∧ enrollment'.(EmailSequenceEnrollment.is_active) = false
    ∧ enrollment'.(EmailSequenceEnrollment.completed_at) = Some 100%Z.
Proof.
  destruct (schedule_replied_completes sample_strip_tags sample_strftime sample_uuid4
              always_delivers 100 1 replied_enrollment replied_db eq_refl
              replied_db_steps)
    as (db' & enrollment' & Hrun & Hemails & _ & Hactive & Hat & _).
  exists db', enrollment'. repeat split; assumption.
Defined.

(** Sending the step of the sample sequence writes the row of the
    enrollment and no other. *)
Lemma schedule_writes_own_enrollment_sample :
  ∃ db' enrollment',
    _schedule_next_step sample_strip_tags sample_strftime sample_uuid4
      always_delivers 100 1 sample_enrollment sequence_db = Some (db', enrollment')
    ∧ db'.(db_enrollments) = {[ 1%Z := enrollment' ]}
    ∧ db'.(db_steps) = sequence_db.(db_steps).
Proof.
  destruct (schedule_writes_own_enrollment sample_strip_tags sample_strftime
              sample_uuid4 always_delivers 100 1 sample_enrollment sequence_db eq_refl)
    as (db' & enrollment' & Hrun & Htable & _ & _ & Hsteps & _).
  exists db', enrollment'. split; [assumption|]. split; [|assumption].
  rewrite Htable. cbn [sequence_db db_enrollments]. apply insert_singleton_eq.
Defined.

(** Lead 1 is enrolled once in the sample sequence: the second call creates
    nothing. *)
Lemma enroll_lead_in_sequence_once_sample :
  ∃ db1,
    enroll_lead_in_sequence sample_strip_tags sample_strftime sample_uuid4
      always_delivers 100 1 (sample_lead 1 "a@x.test") 1 sample_sequence enroll_db
    = Some (db1, true)
    ∧ size db1.(db_enrollments) = 1
    ∧ enroll_lead_in_sequence sample_strip_tags sample_strftime sample_uuid4
        always_delivers 200 1 (sample_lead 1 "a@x.test") 1 sample_sequence db1
      = Some (db1, false).
Proof.
  assert (enrollments_of 1 1 enroll_db = []) as Hnone by (vm_compute; reflexivity).
  destruct (enroll_lead_in_sequence_once sample_strip_tags sample_strftime sample_uuid4
              always_delivers 100 200 1 (sample_lead 1 "a@x.test") 1 sample_sequence
              enroll_db Hnone)
    as (db1 & Hrun & _ & Hsize & Hagain).
  exists db1. repeat split; assumption.
Defined.

(** A sequence that starts after two days sends nothing at enrollment. *)
Lemma enroll_lead_in_sequence_delayed_sample :
  ∃ db1 key e,
    enroll_lead_in_sequence sample_strip_tags sample_strftime sample_uuid4
      always_delivers 100 1 (sample_lead 1 "a@x.test") 1 delayed_sequence enroll_db
    = Some (db1, true)
    ∧ db1.(db_enrollments) = {[ key := e ]}
    ∧ e.(EmailSequenceEnrollment.current_step) = 0%Z
    ∧ db1.(db_emails) = ∅.
Proof.
  assert (enrollments_of 1 1 enroll_db = []) as Hnone by (vm_compute; reflexivity).
  assert (EmailSequence.delay_start_days delayed_sequence ≠ 0%Z) as Hdelay
    by discriminate.
  destruct (enroll_lead_in_sequence_delayed sample_strip_tags sample_strftime
              sample_uuid4 always_delivers 100 1 (sample_lead 1 "a@x.test") 1
              delayed_sequence enroll_db Hnone Hdelay)
    as (db1 & key & e & Hrun & Htable & _ & Hstep & _ & _ & Hemails & _).
  exists db1, key, e. repeat split; try assumption.
Defined.

Lemma sample_db_lead_1 (old_instance : Lead.t) :
  sample_db.(db_leads) !! 1%Z = Some old_instance →
  old_instance.(Lead.status) = (sample_lead 1 "a@x.test").(Lead.status)
  ∧ old_instance.(Lead.priority) = (sample_lead 1 "a@x.test").(Lead.priority).
Proof. intros Hold. vm_compute in Hold. injection Hold as <-. split; reflexivity. Defined.

(** Saving lead 1 again: the handler finds the row it compares with equal
    to the instance and enrolls the lead nowhere, not even in a sequence
    for its status. *)
Lemma trigger_saved_no_change_sample :
  trigger_email_sequences sample_strip_tags sample_strftime sample_uuid4
    always_delivers 100
    {[ 1%Z := EmailSequence.mk "Welcome" sample_user true ["new"] ["warm"] true 0 ]}
    1 (sample_lead 1 "a@x.test") false sample_db
  = Some sample_db.
Proof. apply trigger_saved_no_change, sample_db_lead_1. Defined.

Lemma failed_email_can_retry : can_retry (1%Z, failed_email).
Proof. split; [reflexivity|]. cbn. lia. Defined.

(** A retry through a transport that returns zero: the failed row is as
    retryable as before. *)
Lemma retry_failed_emails_no_result_sample :
  (retry_failed_emails nothing_sent 500 failed_db).2 = 0%Z
  ∧ ∃ email',
      (retry_failed_emails nothing_sent 500 failed_db).1.(db_emails) !! 1%Z = Some email'
      ∧ can_retry (1%Z, email')
      ∧ email'.(Email.retry_count) = 1%Z.
Proof.
  destruct (retry_failed_emails_no_result nothing_sent 500 failed_db
              (λ k email, eq_refl))
    as (Hcount & Hrows & _).
  split; [assumption|].
  destruct (Hrows 1%Z failed_email eq_refl failed_email_can_retry)
    as (email' & Hrow & Hcan & Hretry).
  exists email'. repeat split; try assumption. apply Hcan. apply Hcan.
Defined.

(** A retry through a transport that raises: the failed row has two retries
    counted. *)
Lemma retry_failed_emails_raised_sample :
  ∃ email',
    (retry_failed_emails always_raises 500 failed_db).1.(db_emails) !! 1%Z = Some email'
    ∧ email'.(Email.status) = Email.failed
    ∧ email'.(Email.retry_count) = 2%Z.
Proof.
  assert (is_Some (retry_config (Email.user failed_email) failed_db)) as Hconfig.
  { exists (1%Z, sample_config). vm_compute. reflexivity. }
  destruct (retry_failed_emails_raised always_raises 500 failed_db "Connection refused"
              (λ k email, eq_refl) 1 failed_email eq_refl failed_email_can_retry Hconfig)
    as (email' & Hrow & Hstatus & _ & Hretry & _).
  exists email'. repeat split; assumption.
Defined.

(** The first name of a lead is escaped in the subject. *)
Lemma render_template_escapes_sample :
  render_template sample_strip_tags sample_strftime
    (EmailTemplate.mk 3 "Hi {{first_name}}!" "<p>Hello</p>" "")
    escaped_lead sample_user 0
  = Ok (Rendered.mk "Hi Ann &amp; Co!" "<p>Hello</p>" "<p>Hello</p>").
Proof.
  assert (template_context sample_strftime escaped_lead sample_user 0 !! "first_name"
          = Some "Ann & Co") as Hvalue by (vm_compute; reflexivity).
  exact (render_template_escapes sample_strip_tags sample_strftime escaped_lead
           sample_user 0 3 "Hi " "first_name" "!" "<p>Hello</p>" "Ann & Co"
           Hvalue eq_refl eq_refl eq_refl eq_refl).
Defined.


